(** * Voxel engine: simulation core of [src/services/VoxelEngine.ts]

    A shallow embedding of the voxel store, the lifecycle state machine, the
    physics integrator, the reassembly matcher and the reassembly animator of
    the [VoxelEngine] class, together with the properties the specification
    states about them.

    JavaScript numbers are IEEE 754 binary64 values; they are embedded as
    Rocq's primitive [float], whose operations are exactly the binary64
    operations with round-to-nearest-even, so the arithmetic of the source
    is evaluated bit for bit ([NaN], signed zeros and infinities included).
    Rendering (scene graph, meshes, materials, camera, ray casting) is
    outside the simulation core and is not embedded.

    The second half of the development covers the rest of the simulation
    core and what [src/App.tsx] builds on it: the edit operations
    [addVoxel] and [removeVoxel], the placement of the ghost block from the
    intersection the ray caster reports, the palette [getUniqueColors], the
    colour conversion of the two importers and the display state the
    engine's callbacks drive. *)

From Stdlib Require Import ZArith Floats String Ascii Lia Bool.
From stdpp Require Import base list.

Set Warnings "-inexact-float".
Set Default Proof Using "Type".

(* ------------------------------------------------------------------------- *)
(** * JavaScript numbers *)
(* ------------------------------------------------------------------------- *)

Module Number.

(** The number denoted by an integer literal or produced by an integer
    computation: the binary64 value nearest to [z]. *)
Definition of_Z (z : Z) : float :=
  SF2Prim (binary_normalize prec emax z 0 false).

(** [a > b] of the source is the mirrored comparison [b < a]. *)
Definition gtb (a b : float) : bool := (b <? a)%float.

(** [v ** 2]: the square of [v], taken as the correctly rounded product. *)
Definition sq (v : float) : float := (v * v)%float.

(** [Math.max(a, b)]: [NaN] if either argument is [NaN]; [+0] is larger
    than [-0]. *)
Definition Math_max (a b : float) : float :=
  if is_nan a || is_nan b then nan
  else if (a <? b)%float then b
  else if (b <? a)%float then a
  else if get_sign a then b else a.

(** [Math.min(a, b)]: [NaN] if either argument is [NaN]; [-0] is smaller
    than [+0]. *)
Definition Math_min (a b : float) : float :=
  if is_nan a || is_nan b then nan
  else if (a <? b)%float then a
  else if (b <? a)%float then b
  else if get_sign a then a else b.

(** The exact integer [floor (v + 1/2)] of a finite [v], i.e. the value of
    [Math.round(v)]: the nearest integer, a tie going toward +infinity.
    [Math.round] leaves [NaN] and the infinities as they are; an integer
    has no such value and [0] stands for them here. *)
Definition Math_round (v : float) : Z :=
  match Prim2SF v with
  | S754_finite s m e =>
      let n := if s then Zneg m else Zpos m in
      match e with
      | Zneg k => (2 * n + 2 ^ Zpos k) / 2 ^ (Zpos k + 1)
      | _ => n * 2 ^ e
      end
  | _ => 0
  end%Z.

(** [+v.toFixed(2)]: the decimal string of [v] with two fraction digits,
    read back as a number.  [toFixed] prints a non-finite value, and a value
    of magnitude at least 10^21, with [Number::toString], which reads back
    as the same number.  Otherwise it prints the integer [n] for which
    [n / 100 - |v|] is closest to zero (the larger [n] on a tie) with a
    decimal point before its last two digits, preceded by a minus sign for
    [v < 0]; reading the string back gives the binary64 value nearest to
    [n / 100], negated under the sign.  [hundredths m e] is that [n] for
    [|v| = m * 2^e]. *)
Definition hundredths (m : positive) (e : Z) : Z :=
  match e with
  | Zneg k => (200 * Zpos m + 2 ^ Zpos k) / 2 ^ (Zpos k + 1)
  | _ => 100 * Zpos m * 2 ^ e
  end%Z.

Definition toFixed2 (v : float) : float :=
  if is_nan v || (1e21 <=? abs v)%float then v
  else
    match Prim2SF v with
    | S754_finite s m e =>
        let q := match hundredths m e with
                 | Zpos n =>
                     SF2Prim (SFdiv prec emax (S754_finite false n 0)
                                              (S754_finite false 100 0))
                 | _ => 0%float
                 end in
        if s then (- q)%float else q
    | _ => 0%float
    end.

(** [n.toString(16)] for a non-negative integer [n], as a list of
    characters. *)
Definition hexDigits : list ascii :=
  list_ascii_of_string "0123456789abcdef".

Definition hexDigit (d : Z) : ascii :=
  nth (Z.to_nat d) hexDigits "0"%char.

Fixpoint toString16_aux (fuel : nat) (n : Z) (acc : list ascii) : list ascii :=
  match fuel with
  | O => acc
  | S fuel' =>
      let acc' := hexDigit (n mod 16) :: acc in
      if (n / 16 =? 0)%Z then acc' else toString16_aux fuel' (n / 16) acc'
  end.

Definition toString16 (n : Z) : list ascii :=
  toString16_aux (S (Z.to_nat (Z.log2 n))) n [].

End Number.

(* ------------------------------------------------------------------------- *)
(** * The colour class of the rendering library *)
(* ------------------------------------------------------------------------- *)

(** [THREE.Color] of the rendering library, as far as the engine uses it:
    three channels stored as numbers between 0 and 1, built from a packed
    24-bit colour by [setHex] ([r = (hex >> 16 & 255) / 255], and likewise
    [g] and [b]), and read back with [getHex] / [getHexString].  A packed
    colour is an integer-valued number and is embedded as [Z]; the shifts
    and masks of the source act on its two's complement bits. *)
Module THREE.

Record Color := mkColor { r : float; g : float; b : float }.

(** [new THREE.Color(hex)] *)
Definition Color_new (hex : Z) : Color :=
  {| r := (Number.of_Z (Z.land (Z.shiftr hex 16) 255) / 255)%float;
     g := (Number.of_Z (Z.land (Z.shiftr hex 8) 255) / 255)%float;
     b := (Number.of_Z (Z.land hex 255) / 255)%float |}.

(** [MathUtils.clamp(value, min, max)] *)
Definition clamp (value min max : float) : float :=
  Number.Math_max min (Number.Math_min max value).

(** [color.getHex()] *)
Definition getHex (c : Color) : Z :=
  (Number.Math_round (clamp (r c * 255) 0 255) * 65536
   + Number.Math_round (clamp (g c * 255) 0 255) * 256
   + Number.Math_round (clamp (b c * 255) 0 255))%Z.

(** [color.getHexString()]:
    [('000000' + this.getHex().toString(16)).slice(-6)] *)
Definition getHexString (c : Color) : list ascii :=
  let s := list_ascii_of_string "000000" ++ Number.toString16 (getHex c) in
  drop (length s - 6) s.

End THREE.

(* ------------------------------------------------------------------------- *)
(** * Data model *)
(* ------------------------------------------------------------------------- *)

(** Modelled from the spec: [src/types.ts] is not part of the sources at hand.
    [AppState] is the lifecycle state of section 3 (Stable, Dismantling,
    Rebuilding) under the names the engine uses. *)
Inductive AppState : Set := STABLE | DISMANTLING | REBUILDING.

#[global] Instance AppState_eq_dec : EqDecision AppState.
Proof. solve_decision. Defined.

(** Modelled from the spec: [VoxelData] of [src/types.ts], the neutral
    transfer form of section 3: a position and one packed colour. *)
Module VoxelData.
Record t := mk { x : float; y : float; z : float; color : Z }.
End VoxelData.

(** Modelled from the spec: [SimulationVoxel] of [src/types.ts], the simulated
    unit of section 3 with the fields [createVoxels] initialises: identity,
    position, colour, linear velocity, rotation and angular velocity. *)
Module SimulationVoxel.
Record t := mk {
  id : nat;
  x : float; y : float; z : float;
  color : THREE.Color;
  vx : float; vy : float; vz : float;
  rx : float; ry : float; rz : float;
  rvx : float; rvy : float; rvz : float
}.
End SimulationVoxel.

(** Modelled from the spec: [RebuildTarget] of [src/types.ts], the per-voxel
    assignment of section 3 with the fields [rebuild] writes.  [isRubble] is
    an optional field of the source; an absent field reads as false. *)
Module RebuildTarget.
Record t := mk {
  x : float; y : float; z : float;
  isRubble : bool;
  delay : float
}.
End RebuildTarget.

(** The calls the engine makes to the two callbacks it was constructed
    with, [onStateChange] and [onCountChange]. *)
Inductive Notification : Type :=
  | StateChange (s : AppState)
  | CountChange (count : nat).

(** The fields of a [VoxelEngine] instance that belong to the simulation
    core.  [notified] records the callback calls made so far, oldest
    first. *)
Record VoxelEngine := mkEngine {
  voxels : list SimulationVoxel.t;
  rebuildTargets : list RebuildTarget.t;
  rebuildStartTime : float;
  state : AppState;
  notified : list Notification
}.

(** One entry of the matcher's working list [available]. *)
Module Available.
Record t := mk { index : nat; color : THREE.Color; taken : bool }.
End Available.

(** One record of the array [getJsonData] serialises. *)
Module JsonVoxel.
Record t := mk { id : nat; x : float; y : float; z : float; c : list ascii }.
End JsonVoxel.

(* ------------------------------------------------------------------------- *)
(** * The engine *)
(* ------------------------------------------------------------------------- *)

Section Engine.

Local Open Scope float_scope.

(** Modelled from the spec: [CONFIG.FLOOR_Y] of [src/utils/voxelConstants.ts],
    the floor level of sections 4.3 and 4.4; its value is not part of the
    sources at hand and every definition below takes it as a parameter. *)
Variable FLOOR_Y : float.

(** ** Voxel store *)

(** [createVoxels], without the mesh it uploads. *)
Definition createVoxels (data : list VoxelData.t) : list SimulationVoxel.t :=
  imap (fun i v =>
          let c := THREE.Color_new (VoxelData.color v) in
          {| SimulationVoxel.id := i;
             SimulationVoxel.x := VoxelData.x v;
             SimulationVoxel.y := VoxelData.y v;
             SimulationVoxel.z := VoxelData.z v;
             SimulationVoxel.color := c;
             SimulationVoxel.vx := 0; SimulationVoxel.vy := 0;
             SimulationVoxel.vz := 0;
             SimulationVoxel.rx := 0; SimulationVoxel.ry := 0;
             SimulationVoxel.rz := 0;
             SimulationVoxel.rvx := 0; SimulationVoxel.rvy := 0;
             SimulationVoxel.rvz := 0 |}) data.

Definition loadInitialModel (e : VoxelEngine) (data : list VoxelData.t)
  : VoxelEngine :=
  let vs := createVoxels data in
  {| voxels := vs;
     rebuildTargets := rebuildTargets e;
     rebuildStartTime := rebuildStartTime e;
     state := STABLE;
     notified := notified e ++ [CountChange (length vs); StateChange STABLE] |}.

Definition getVoxelData (e : VoxelEngine) : list VoxelData.t :=
  map (fun v =>
         {| VoxelData.x := SimulationVoxel.x v;
            VoxelData.y := SimulationVoxel.y v;
            VoxelData.z := SimulationVoxel.z v;
            VoxelData.color := THREE.getHex (SimulationVoxel.color v) |})
      (voxels e).

(** The array [data] that [getJsonData] builds and hands to
    [JSON.stringify]. *)
Definition getJsonData_data (e : VoxelEngine) : list JsonVoxel.t :=
  imap (fun i v =>
          {| JsonVoxel.id := i;
             JsonVoxel.x := Number.toFixed2 (SimulationVoxel.x v);
             JsonVoxel.y := Number.toFixed2 (SimulationVoxel.y v);
             JsonVoxel.z := Number.toFixed2 (SimulationVoxel.z v);
             JsonVoxel.c := "#"%char
                            :: THREE.getHexString (SimulationVoxel.color v) |})
       (voxels e).

(** [getJsonData]; [stringify] is [JSON.stringify(data, null, 2)] of the
    JavaScript runtime. *)
Definition getJsonData (stringify : list JsonVoxel.t -> string)
    (e : VoxelEngine) : string :=
  stringify (getJsonData_data e).

(** ** State machine: dismantle *)

(** The velocity seeding of [dismantle].  [random n] is the value the
    [n]-th call of [Math.random()] returns, counted from [k]; every voxel
    consumes six of them in the order of the source. *)
Fixpoint seedVelocities (random : nat -> float) (k : nat)
    (vs : list SimulationVoxel.t) : list SimulationVoxel.t :=
  match vs with
  | [] => []
  | v :: vs' =>
      {| SimulationVoxel.id := SimulationVoxel.id v;
         SimulationVoxel.x := SimulationVoxel.x v;
         SimulationVoxel.y := SimulationVoxel.y v;
         SimulationVoxel.z := SimulationVoxel.z v;
         SimulationVoxel.color := SimulationVoxel.color v;
         SimulationVoxel.vx := (random k - 0.5) * 0.8;
         SimulationVoxel.vy := random (k + 1)%nat * 0.5;
         SimulationVoxel.vz := (random (k + 2)%nat - 0.5) * 0.8;
         SimulationVoxel.rx := SimulationVoxel.rx v;
         SimulationVoxel.ry := SimulationVoxel.ry v;
         SimulationVoxel.rz := SimulationVoxel.rz v;
         SimulationVoxel.rvx := (random (k + 3)%nat - 0.5) * 0.2;
         SimulationVoxel.rvy := (random (k + 4)%nat - 0.5) * 0.2;
         SimulationVoxel.rvz := (random (k + 5)%nat - 0.5) * 0.2 |}
      :: seedVelocities random (k + 6) vs'
  end.

Definition dismantle (random : nat -> float) (e : VoxelEngine) : VoxelEngine :=
  if decide (state e = STABLE) then
    {| voxels := seedVelocities random 0 (voxels e);
       rebuildTargets := rebuildTargets e;
       rebuildStartTime := rebuildStartTime e;
       state := DISMANTLING;
       notified := notified e ++ [StateChange DISMANTLING] |}
  else e.

(** ** Reassembly matcher *)

Definition getColorDist (c1 : THREE.Color) (hex2 : Z) : float :=
  let c2 := THREE.Color_new hex2 in
  let r := (THREE.r c1 - THREE.r c2) * 0.3 in
  let g := (THREE.g c1 - THREE.g c2) * 0.59 in
  let b := (THREE.b c1 - THREE.b c2) * 0.11 in
  sqrt (r * r + g * g + b * b).

(** The inner [for] loop of [rebuild] from index [i] on, [l] being
    [available] from that index; [bestIdx] is [None] for the source's [-1].
    The result is the final [(bestDist, bestIdx)]. *)
Fixpoint scan (hex : Z) (l : list Available.t) (i : nat)
    (bestDist : float) (bestIdx : option nat) : float * option nat :=
  match l with
  | [] => (bestDist, bestIdx)
  | a :: l' =>
      if Available.taken a then scan hex l' (S i) bestDist bestIdx
      else
        let d := getColorDist (Available.color a) hex in
        if d <? bestDist then
          if d <? 0.01 then (d, Some i)
          else scan hex l' (S i) d (Some i)
        else scan hex l' (S i) bestDist bestIdx
  end.

(** [bestIdx] after the inner loop has run for one target cell. *)
Definition bestMatch (available : list Available.t) (target : VoxelData.t)
  : option nat :=
  snd (scan (VoxelData.color target) available 0 9999 None).

(** The [RebuildTarget] a matched voxel receives. *)
Definition matchedTarget (target : VoxelData.t) : RebuildTarget.t :=
  let h := Number.Math_max 0 ((VoxelData.y target - FLOOR_Y) / 15) in
  {| RebuildTarget.x := VoxelData.x target;
     RebuildTarget.y := VoxelData.y target;
     RebuildTarget.z := VoxelData.z target;
     RebuildTarget.isRubble := false;
     RebuildTarget.delay := h * 800 |}.

Definition setTaken (a : Available.t) : Available.t :=
  {| Available.index := Available.index a;
     Available.color := Available.color a;
     Available.taken := true |}.

(** One iteration of [targetModel.forEach]: the working list [available] and
    the array [mappings] ([None] for [null]) before and after one target
    cell.  [bestIdx] is an index the inner loop has visited, so
    [available[bestIdx]] exists. *)
Definition matchTarget
    (st : list Available.t * list (option RebuildTarget.t))
    (target : VoxelData.t)
  : list Available.t * list (option RebuildTarget.t) :=
  let '(available, mappings) := st in
  match bestMatch available target with
  | None => st
  | Some bestIdx =>
      match available !! bestIdx with
      | None => st
      | Some a =>
          (<[bestIdx := setTaken a]> available,
           <[Available.index a := Some (matchedTarget target)]> mappings)
      end
  end.

Definition initialAvailable (vs : list SimulationVoxel.t) : list Available.t :=
  imap (fun i v => {| Available.index := i;
                      Available.color := SimulationVoxel.color v;
                      Available.taken := false |}) vs.

Definition matchAll (vs : list SimulationVoxel.t) (targetModel : list VoxelData.t)
  : list Available.t * list (option RebuildTarget.t) :=
  fold_left matchTarget targetModel
            (initialAvailable vs, replicate (length vs) None).

Definition rubbleTarget (v : SimulationVoxel.t) : RebuildTarget.t :=
  {| RebuildTarget.x := SimulationVoxel.x v;
     RebuildTarget.y := SimulationVoxel.y v;
     RebuildTarget.z := SimulationVoxel.z v;
     RebuildTarget.isRubble := true;
     RebuildTarget.delay := 0 |}.

(** The final loop of [rebuild]: every index of [voxels] whose mapping is
    still missing becomes rubble. *)
Definition fillRubble (vs : list SimulationVoxel.t)
    (mappings : list (option RebuildTarget.t)) : list RebuildTarget.t :=
  imap (fun i v => match mappings !! i with
                   | Some (Some t) => t
                   | _ => rubbleTarget v
                   end) vs.

(** [rebuild]; [now] is the value of [Date.now()] at the call. *)
Definition rebuild (now : float) (e : VoxelEngine)
    (targetModel : list VoxelData.t) : VoxelEngine :=
  if decide (state e = REBUILDING) then e
  else
    {| voxels := voxels e;
       rebuildTargets := fillRubble (voxels e) (snd (matchAll (voxels e) targetModel));
       rebuildStartTime := now;
       state := REBUILDING;
       notified := notified e ++ [StateChange REBUILDING] |}.

(** ** Physics integrator *)

(** The body of [voxels.forEach] in the [DISMANTLING] branch of
    [updatePhysics], with the updates in the order of the source. *)
Definition physicsStep (v : SimulationVoxel.t) : SimulationVoxel.t :=
  let vy1 := SimulationVoxel.vy v - 0.025 in
  let x1 := SimulationVoxel.x v + SimulationVoxel.vx v in
  let y1 := SimulationVoxel.y v + vy1 in
  let z1 := SimulationVoxel.z v + SimulationVoxel.vz v in
  let rx1 := SimulationVoxel.rx v + SimulationVoxel.rvx v in
  let ry1 := SimulationVoxel.ry v + SimulationVoxel.rvy v in
  let rz1 := SimulationVoxel.rz v + SimulationVoxel.rvz v in
  if y1 <? FLOOR_Y + 0.5 then
    {| SimulationVoxel.id := SimulationVoxel.id v;
       SimulationVoxel.x := x1;
       SimulationVoxel.y := FLOOR_Y + 0.5;
       SimulationVoxel.z := z1;
       SimulationVoxel.color := SimulationVoxel.color v;
       SimulationVoxel.vx := SimulationVoxel.vx v * 0.9;
       SimulationVoxel.vy := vy1 * -0.5;
       SimulationVoxel.vz := SimulationVoxel.vz v * 0.9;
       SimulationVoxel.rx := rx1;
       SimulationVoxel.ry := ry1;
       SimulationVoxel.rz := rz1;
       SimulationVoxel.rvx := SimulationVoxel.rvx v * 0.8;
       SimulationVoxel.rvy := SimulationVoxel.rvy v * 0.8;
       SimulationVoxel.rvz := SimulationVoxel.rvz v * 0.8 |}
  else
    {| SimulationVoxel.id := SimulationVoxel.id v;
       SimulationVoxel.x := x1;
       SimulationVoxel.y := y1;
       SimulationVoxel.z := z1;
       SimulationVoxel.color := SimulationVoxel.color v;
       SimulationVoxel.vx := SimulationVoxel.vx v;
       SimulationVoxel.vy := vy1;
       SimulationVoxel.vz := SimulationVoxel.vz v;
       SimulationVoxel.rx := rx1;
       SimulationVoxel.ry := ry1;
       SimulationVoxel.rz := rz1;
       SimulationVoxel.rvx := SimulationVoxel.rvx v;
       SimulationVoxel.rvy := SimulationVoxel.rvy v;
       SimulationVoxel.rvz := SimulationVoxel.rvz v |}.

(** ** Reassembly animator *)

(** A voxel with a new position and rotation, everything else kept. *)
Definition setPose (v : SimulationVoxel.t) (x y z rx ry rz : float)
  : SimulationVoxel.t :=
  {| SimulationVoxel.id := SimulationVoxel.id v;
     SimulationVoxel.x := x;
     SimulationVoxel.y := y;
     SimulationVoxel.z := z;
     SimulationVoxel.color := SimulationVoxel.color v;
     SimulationVoxel.vx := SimulationVoxel.vx v;
     SimulationVoxel.vy := SimulationVoxel.vy v;
     SimulationVoxel.vz := SimulationVoxel.vz v;
     SimulationVoxel.rx := rx;
     SimulationVoxel.ry := ry;
     SimulationVoxel.rz := rz;
     SimulationVoxel.rvx := SimulationVoxel.rvx v;
     SimulationVoxel.rvy := SimulationVoxel.rvy v;
     SimulationVoxel.rvz := SimulationVoxel.rvz v |}.

Definition speed : float := 0.12.

(** The eased pose: [v.x += (t.x - v.x) * speed] and so on. *)
Definition ease (t : RebuildTarget.t) (v : SimulationVoxel.t) : SimulationVoxel.t :=
  setPose v
    (SimulationVoxel.x v + (RebuildTarget.x t - SimulationVoxel.x v) * speed)
    (SimulationVoxel.y v + (RebuildTarget.y t - SimulationVoxel.y v) * speed)
    (SimulationVoxel.z v + (RebuildTarget.z t - SimulationVoxel.z v) * speed)
    (SimulationVoxel.rx v + (0 - SimulationVoxel.rx v) * speed)
    (SimulationVoxel.ry v + (0 - SimulationVoxel.ry v) * speed)
    (SimulationVoxel.rz v + (0 - SimulationVoxel.rz v) * speed).

(** The snapped pose: exactly on the target, rotation zero. *)
Definition snap (t : RebuildTarget.t) (v : SimulationVoxel.t) : SimulationVoxel.t :=
  setPose v (RebuildTarget.x t) (RebuildTarget.y t) (RebuildTarget.z t) 0 0 0.

(** The squared Euclidean distance between a voxel and a target position. *)
Definition distSq (t : RebuildTarget.t) (v : SimulationVoxel.t) : float :=
  Number.sq (RebuildTarget.x t - SimulationVoxel.x v)
  + Number.sq (RebuildTarget.y t - SimulationVoxel.y v)
  + Number.sq (RebuildTarget.z t - SimulationVoxel.z v).

(** The body of [voxels.forEach] in the [REBUILDING] branch for one voxel
    and its target: the voxel afterwards and the flag [allDone]
    afterwards. *)
Definition animateVoxel (elapsed : float) (t : RebuildTarget.t)
    (v : SimulationVoxel.t) (allDone : bool) : SimulationVoxel.t * bool :=
  if RebuildTarget.isRubble t then (v, allDone)
  else if elapsed <? RebuildTarget.delay t then (v, false)
  else
    let v1 := ease t v in
    if Number.gtb (distSq t v1) 0.01 then (v1, false)
    else (snap t v1, allDone).

(** [voxels.forEach((v, i) => ...)] of the [REBUILDING] branch from index
    [i] on.  Reading a field of [rebuildTargets[i]] when the table has no
    entry [i] throws; the result is [None] then. *)
Fixpoint animateVoxels (targets : list RebuildTarget.t) (elapsed : float)
    (i : nat) (vs : list SimulationVoxel.t) (allDone : bool)
  : option (list SimulationVoxel.t * bool) :=
  match vs with
  | [] => Some ([], allDone)
  | v :: vs' =>
      match targets !! i with
      | None => None
      | Some t =>
          let '(v', allDone') := animateVoxel elapsed t v allDone in
          match animateVoxels targets elapsed (S i) vs' allDone' with
          | None => None
          | Some (vs'', allDone'') => Some (v' :: vs'', allDone'')
          end
      end
  end.

(** [updatePhysics], one tick; [now] is the value of [Date.now()] in it.
    The ghost block it also pulses belongs to rendering. *)
Definition updatePhysics (now : float) (e : VoxelEngine) : option VoxelEngine :=
  match state e with
  | DISMANTLING =>
      Some {| voxels := map physicsStep (voxels e);
              rebuildTargets := rebuildTargets e;
              rebuildStartTime := rebuildStartTime e;
              state := DISMANTLING;
              notified := notified e |}
  | REBUILDING =>
      let elapsed := now - rebuildStartTime e in
      match animateVoxels (rebuildTargets e) elapsed 0 (voxels e) true with
      | None => None
      | Some (vs, allDone) =>
          Some {| voxels := vs;
                  rebuildTargets := rebuildTargets e;
                  rebuildStartTime := rebuildStartTime e;
                  state := if allDone then STABLE else REBUILDING;
                  notified := if allDone
                              then notified e ++ [StateChange STABLE]
                              else notified e |}
      end
  | STABLE => Some e
  end.

End Engine.

(* ------------------------------------------------------------------------- *)
(** * Edit operations, palette and colour import *)
(* ------------------------------------------------------------------------- *)

(** [THREE.Vector3] of the rendering library, as far as the edit operations
    use it: three numbers. *)
Module Vector3.
Record t := mk { x : float; y : float; z : float }.
End Vector3.

(** [addVoxel].  [===] on numbers is the IEEE comparison: [NaN] equals
    nothing and the two zeros are equal. *)
Definition addVoxel (e : VoxelEngine) (pos : Vector3.t) (colorHex : Z)
  : VoxelEngine :=
  let newData :=
    map (fun v =>
           {| VoxelData.x := SimulationVoxel.x v;
              VoxelData.y := SimulationVoxel.y v;
              VoxelData.z := SimulationVoxel.z v;
              VoxelData.color := THREE.getHex (SimulationVoxel.color v) |})
        (voxels e) in
  if existsb (fun v => (VoxelData.x v =? Vector3.x pos)%float
                       && (VoxelData.y v =? Vector3.y pos)%float
                       && (VoxelData.z v =? Vector3.z pos)%float) newData
  then e
  else
    loadInitialModel e
      (newData ++ [{| VoxelData.x := Vector3.x pos;
                      VoxelData.y := Vector3.y pos;
                      VoxelData.z := Vector3.z pos;
                      VoxelData.color := colorHex |}]).

(** [removeVoxel] *)
Definition removeVoxel (e : VoxelEngine) (pos : Vector3.t) : VoxelEngine :=
  let newData :=
    map (fun v =>
           {| VoxelData.x := SimulationVoxel.x v;
              VoxelData.y := SimulationVoxel.y v;
              VoxelData.z := SimulationVoxel.z v;
              VoxelData.color := THREE.getHex (SimulationVoxel.color v) |})
        (List.filter
           (fun v => negb ((SimulationVoxel.x v =? Vector3.x pos)%float
                           && (SimulationVoxel.y v =? Vector3.y pos)%float
                           && (SimulationVoxel.z v =? Vector3.z pos)%float))
           (voxels e)) in
  if decide (length newData = length (voxels e)) then e
  else loadInitialModel e newData.

#[global] Instance ascii_eq_dec : EqDecision ascii := Ascii.ascii_dec.

(** [colors.add(s)] on a [Set<string>]: a set keeps its elements in the
    order they were first added, and [Array.from] lists them in that
    order. *)
Definition Set_add (colors : list (list ascii)) (s : list ascii)
  : list (list ascii) :=
  if decide (s ∈ colors) then colors else colors ++ [s].

(** [getUniqueColors] *)
Definition getUniqueColors (e : VoxelEngine) : list (list ascii) :=
  fold_left
    (fun colors v =>
       Set_add colors ("#"%char :: THREE.getHexString (SimulationVoxel.color v)))
    (voxels e) [].

(** ** Colour strings read by the importers of [src/App.tsx] *)

(** The white space [parseInt] skips at the start of its argument, among
    the code units below 256 (the strings of this development): tab, line
    feed, vertical tab, form feed, carriage return, space and no-break
    space. *)
Definition isWhiteSpace (c : ascii) : bool :=
  existsb (N.eqb (N_of_ascii c)) [9; 10; 11; 12; 13; 32; 160]%N.

Fixpoint trimStart (s : list ascii) : list ascii :=
  match s with
  | c :: s' => if isWhiteSpace c then trimStart s' else s
  | [] => []
  end.

(** The value of a radix-16 digit, upper or lower case. *)
Definition digit16 (c : ascii) : option Z :=
  let n := Z.of_N (N_of_ascii c) in
  if (48 <=? n)%Z && (n <=? 57)%Z then Some (n - 48)%Z
  else if (97 <=? n)%Z && (n <=? 102)%Z then Some (n - 87)%Z
  else if (65 <=? n)%Z && (n <=? 70)%Z then Some (n - 55)%Z
  else None.

(** The digit values of the longest prefix made of radix-16 digits. *)
Fixpoint digits16 (s : list ascii) : list Z :=
  match s with
  | c :: s' =>
      match digit16 c with
      | Some d => d :: digits16 s'
      | None => []
      end
  | [] => []
  end.

(** [parseInt(string, 16)]: leading white space is skipped, then a sign,
    then a prefix [0x] or [0X]; the longest run of radix-16 digits that
    follows is read as an integer, whatever comes after it is ignored, and
    the result is the nearest number with that sign ([-0] for a negative
    zero).  Without any digit the result is [NaN]. *)
Definition parseInt16 (string : list ascii) : float :=
  let s := trimStart string in
  let negative := match s with
                  | c :: _ => Ascii.eqb c "-"%char
                  | [] => false
                  end in
  let s1 := match s with
            | c :: rest => if Ascii.eqb c "-"%char || Ascii.eqb c "+"%char then rest else s
            | [] => s
            end in
  let s2 := match s1 with
            | c0 :: c1 :: rest =>
                if Ascii.eqb c0 "0"%char && (Ascii.eqb c1 "x"%char || Ascii.eqb c1 "X"%char)
                then rest else s1
            | _ => s1
            end in
  match digits16 s2 with
  | [] => nan
  | ds =>
      let mathInt := fold_left (fun a d => 16 * a + d)%Z ds 0%Z in
      if (mathInt =? 0)%Z then (if negative then (-0)%float else 0%float)
      else Number.of_Z (if negative then - mathInt else mathInt)
  end.

(** The packed colour an integer-valued number stands for.  The numbers
    that reach it here are results of [parseInt]: an integer stands for
    itself, and an infinity, whose bits under the shifts of
    [new THREE.Color(hex)] are those of zero, for 0. *)
Definition packedColor (v : float) : Z := Number.Math_round v.

(** The conversion both importers of [src/App.tsx] ([handleJsonImport] and
    [handlePromptSubmit]) apply to a colour given as a string:
    [if (colorVal.startsWith('#')) colorVal = colorVal.substring(1);
     colorInt = parseInt(colorVal, 16);] and then
    [color: isNaN(colorInt) ? 0xCCCCCC : colorInt]. *)
Definition colorOfString (colorVal : list ascii) : Z :=
  let colorVal' := match colorVal with
                   | c :: rest => if Ascii.eqb c "#"%char then rest else colorVal
                   | [] => colorVal
                   end in
  let colorInt := parseInt16 colorVal' in
  if is_nan colorInt then 0xCCCCCC%Z else packedColor colorInt.

(** ** The ghost block *)

(** [Math.round(v)] as a number: the nearest integer, a tie going toward
    +infinity; [-0] for a negative [v] that rounds to zero; [NaN], the
    infinities and the zeros are left as they are. *)
Definition Math_round_number (v : float) : float :=
  match Prim2SF v with
  | S754_finite s _ _ =>
      let n := Number.Math_round v in
      if (n =? 0)%Z then (if s then (-0)%float else 0%float)
      else Number.of_Z n
  | _ => v
  end.

(** The object an intersection of the ray caster belongs to: [updateGhost]
    casts against the instanced mesh of the voxels and the floor mesh. *)
Inductive HitObject : Set := InstanceMesh | FloorMesh.

(** [intersects[0]] as far as [updateGhost] reads it: [object], [point] and
    [face.normal]. *)
Record Intersection := mkIntersection {
  object : HitObject;
  point : Vector3.t;
  normal : Vector3.t
}.

(** The parameter [mode] of [updateGhost], the [buildTool] of the app. *)
Inductive BuildTool : Set := Add | Delete.

(** The fields of a [VoxelEngine] instance that belong to the ghost block:
    [isEditMode], [ghostMesh.visible] and [lastGhostPos]. *)
Record Ghost := mkGhost {
  isEditMode : bool;
  visible : bool;
  lastGhostPos : Vector3.t
}.

(** The ghost as the constructor leaves it. *)
Definition newGhost : Ghost :=
  {| isEditMode := false; visible := false;
     lastGhostPos := Vector3.mk 0 0 0 |}.

(** [setEditMode] *)
Definition setEditMode (enabled : bool) (g : Ghost) : Ghost :=
  {| isEditMode := enabled; visible := enabled;
     lastGhostPos := lastGhostPos g |}.

Section GhostBlock.

Local Open Scope float_scope.

Variable FLOOR_Y : float.

(** [updateGhost]; [intersects] is the first intersection the ray caster
    reports for the pointer position, if any.  The colour and the position
    of the ghost mesh belong to rendering. *)
Definition updateGhost (intersects : option Intersection) (mode : BuildTool)
    (g : Ghost) : Ghost :=
  if negb (isEditMode g) then g
  else
    match intersects with
    | None =>
        {| isEditMode := isEditMode g; visible := false;
           lastGhostPos := lastGhostPos g |}
    | Some intersect =>
        let pos := point intersect in
        let moved :=
          match mode, object intersect with
          | Add, InstanceMesh =>
              Some (Vector3.mk
                      (Vector3.x pos + Vector3.x (normal intersect) * 0.5)
                      (Vector3.y pos + Vector3.y (normal intersect) * 0.5)
                      (Vector3.z pos + Vector3.z (normal intersect) * 0.5))
          | Add, FloorMesh =>
              Some (Vector3.mk (Vector3.x pos) (Vector3.y pos + 0.5) (Vector3.z pos))
          | Delete, FloorMesh => None
          | Delete, InstanceMesh => Some pos
          end in
        match moved with
        | None =>
            {| isEditMode := isEditMode g; visible := false;
               lastGhostPos := lastGhostPos g |}
        | Some pos =>
            let y := Math_round_number (Vector3.y pos) in
            let snapped :=
              Vector3.mk (Math_round_number (Vector3.x pos))
                         (if y <? FLOOR_Y + 0.5 then FLOOR_Y + 0.5 else y)
                         (Math_round_number (Vector3.z pos)) in
            {| isEditMode := isEditMode g; visible := true;
               lastGhostPos := snapped |}
        end
    end.

End GhostBlock.

(** [getGhostPosition]; [None] is [null]. *)
Definition getGhostPosition (g : Ghost) : option Vector3.t :=
  if visible g then Some (lastGhostPos g) else None.

(** [handleClick] of [src/App.tsx], [editMode], [buildTool] and
    [selectedColor] being the React states of these names. *)
Definition handleClick (editMode : bool) (buildTool : BuildTool)
    (selectedColor : Z) (g : Ghost) (e : VoxelEngine) : VoxelEngine :=
  if editMode then
    match getGhostPosition g with
    | Some pos =>
        match buildTool with
        | Add => addVoxel e pos selectedColor
        | Delete => removeVoxel e pos
        end
    | None => e
    end
  else e.

(** ** The display state of [src/App.tsx] *)

(** The React state [appState] of [src/App.tsx]: [AppState.STABLE] at first,
    then whatever the callback [onStateChange] was last called with. *)
Definition appState (log : list Notification) : AppState :=
  fold_left (fun s n => match n with
                        | StateChange s' => s'
                        | CountChange _ => s
                        end) log STABLE.

(** The React state [voxelCount] of [src/App.tsx]: 0 at first, then whatever
    the callback [onCountChange] was last called with. *)
Definition voxelCount (log : list Notification) : nat :=
  fold_left (fun c n => match n with
                        | StateChange _ => c
                        | CountChange c' => c'
                        end) log 0%nat.

(** ** Notions the statements about these operations are phrased with *)

(** The voxel stands exactly at [pos]: the test of [addVoxel] and
    [removeVoxel]. *)
Definition occupies (pos : Vector3.t) (v : SimulationVoxel.t) : bool :=
  (SimulationVoxel.x v =? Vector3.x pos)%float
  && (SimulationVoxel.y v =? Vector3.y pos)%float
  && (SimulationVoxel.z v =? Vector3.z pos)%float.

(** No coordinate of [pos] is [NaN]. *)
Definition isPosition (pos : Vector3.t) : Prop :=
  is_nan (Vector3.x pos) = false
  /\ is_nan (Vector3.y pos) = false
  /\ is_nan (Vector3.z pos) = false.

(** A voxel as [createVoxels] leaves it: no velocity, no rotation. *)
Definition atRest (v : SimulationVoxel.t) : Prop :=
  SimulationVoxel.vx v = 0%float /\ SimulationVoxel.vy v = 0%float
  /\ SimulationVoxel.vz v = 0%float
  /\ SimulationVoxel.rx v = 0%float /\ SimulationVoxel.ry v = 0%float
  /\ SimulationVoxel.rz v = 0%float
  /\ SimulationVoxel.rvx v = 0%float /\ SimulationVoxel.rvy v = 0%float
  /\ SimulationVoxel.rvz v = 0%float.

(** Voxel data with the colour reduced to its low 24 bits. *)
Definition low24 (d : VoxelData.t) : VoxelData.t :=
  {| VoxelData.x := VoxelData.x d;
     VoxelData.y := VoxelData.y d;
     VoxelData.z := VoxelData.z d;
     VoxelData.color := (VoxelData.color d mod 2 ^ 24)%Z |}.

(** The record [addVoxel] pushes. *)
Definition placed (pos : Vector3.t) (colorHex : Z) : VoxelData.t :=
  {| VoxelData.x := Vector3.x pos;
     VoxelData.y := Vector3.y pos;
     VoxelData.z := Vector3.z pos;
     VoxelData.color := colorHex |}.

(** The record [getVoxelData], [addVoxel] and [removeVoxel] map a voxel
    to. *)
Definition toVoxelData (v : SimulationVoxel.t) : VoxelData.t :=
  {| VoxelData.x := SimulationVoxel.x v;
     VoxelData.y := SimulationVoxel.y v;
     VoxelData.z := SimulationVoxel.z v;
     VoxelData.color := THREE.getHex (SimulationVoxel.color v) |}.

(** What of a voxel the snapshot, the JSON records and the palette read:
    its position and its colour. *)
Definition placement (v : SimulationVoxel.t)
  : float * float * float * THREE.Color :=
  (SimulationVoxel.x v, SimulationVoxel.y v, SimulationVoxel.z v,
   SimulationVoxel.color v).

(** What only [createVoxels] writes: identity and colour. *)
Definition identity (v : SimulationVoxel.t) : nat * THREE.Color :=
  (SimulationVoxel.id v, SimulationVoxel.color v).

(** The rotation of a voxel. *)
Definition rotation (v : SimulationVoxel.t) : float * float * float :=
  (SimulationVoxel.rx v, SimulationVoxel.ry v, SimulationVoxel.rz v).

(** The integer a list of radix-16 digit values denotes, most significant
    digit first. *)
Definition radix16 (ds : list Z) : Z :=
  fold_left (fun a d => 16 * a + d)%Z ds 0%Z.

Definition isDigitValue (d : Z) : Prop := (0 <= d < 16)%Z.

(** A binary64 datum that is [NaN] or a zero. *)
Definition nanOrZero (x : spec_float) : Prop :=
  match x with
  | S754_nan | S754_zero _ => True
  | _ => False
  end.

(* ------------------------------------------------------------------------- *)
(** * Definitions the specification's statements are phrased with *)
(* ------------------------------------------------------------------------- *)

(** The weighted Euclidean distance of section 4.4 in the specification's
    words: the Euclidean length of the channel differences, each difference
    scaled by its channel's weight. *)
Definition weightedEuclidean (weights xs ys : list float) : float :=
  let terms := zip_with (fun w d => Number.sq (d * w)%float)
                        weights (zip_with PrimFloat.sub xs ys) in
  sqrt (match terms with
        | [] => 0%float
        | t :: ts => fold_left PrimFloat.add ts t
        end).

Definition lumaWeights : list float := [0.3; 0.59; 0.11]%float.

Definition channels (c : THREE.Color) : list float :=
  [THREE.r c; THREE.g c; THREE.b c].

(** A number between 0 and 1. *)
Definition normalized (v : float) : Prop :=
  (0 <=? v)%float = true /\ (v <=? 1)%float = true.

(** The inner scan of the matcher without its early exit: every entry of
    the working list is visited. *)
Fixpoint scanFull (hex : Z) (l : list Available.t) (i : nat)
    (bestDist : float) (bestIdx : option nat) : float * option nat :=
  match l with
  | [] => (bestDist, bestIdx)
  | a :: l' =>
      if Available.taken a then scanFull hex l' (S i) bestDist bestIdx
      else
        let d := getColorDist (Available.color a) hex in
        if (d <? bestDist)%float then scanFull hex l' (S i) d (Some i)
        else scanFull hex l' (S i) bestDist bestIdx
  end.

(** Entry [j] of a working list is a source voxel that is still free. *)
Definition untakenAt (available : list Available.t) (j : nat)
    (a : Available.t) : Prop :=
  available !! j = Some a /\ Available.taken a = false.

(** What the inner scan of the matcher ends with, for the packed target
    colour [hex] and the working list [available]: either no source voxel
    still free is closer than the initial [bestDist] 9999 and nothing is
    selected, or the selected entry [b] is free, is strictly closer than
    every free entry before it, none of which is closer than 0.01, and
    either it is closer than 0.01 (the scan stopped there) or no free entry
    at all is closer than it or closer than 0.01. *)
Definition scanResult (hex : Z) (available : list Available.t)
    (bestDist : float) (bestIdx : option nat) : Prop :=
  let dist a := getColorDist (Available.color a) hex in
  match bestIdx with
  | None =>
      forall j a, untakenAt available j a -> (dist a <? 9999)%float = false
  | Some b =>
      exists a,
        untakenAt available b a
        /\ bestDist = dist a
        /\ (dist a <? 9999)%float = true
        /\ (forall j a', (j < b)%nat -> untakenAt available j a' ->
              (dist a' <=? dist a)%float = false
              /\ (dist a' <? 0.01)%float = false)
        /\ ((dist a <? 0.01)%float = true
            \/ forall j a', untakenAt available j a' ->
                 (dist a' <? dist a)%float = false
                 /\ (dist a' <? 0.01)%float = false)
  end.

(** The invariant of the matcher's outer loop over the voxel list [vs]:
    the working list and [mappings] have one entry per voxel; entry [i] of
    the working list carries index [i] and the colour of voxel [i]; a free
    entry has no mapping yet and a taken entry has a non-rubble one. *)
Record matchInv (vs : list SimulationVoxel.t)
    (st : list Available.t * list (option RebuildTarget.t)) : Prop := {
  mi_available : length (fst st) = length vs;
  mi_mappings : length (snd st) = length vs;
  mi_index : forall i a, fst st !! i = Some a -> Available.index a = i;
  mi_color : forall i a v, fst st !! i = Some a -> vs !! i = Some v ->
    Available.color a = SimulationVoxel.color v;
  mi_free : forall i a, fst st !! i = Some a -> Available.taken a = false ->
    snd st !! i = Some None;
  mi_taken : forall i a, fst st !! i = Some a -> Available.taken a = true ->
    exists t, snd st !! i = Some (Some t) /\ RebuildTarget.isRubble t = false
}.

(** The number of entries of a list that satisfy a test. *)
Definition countb {A : Type} (f : A -> bool) (l : list A) : nat :=
  length (List.filter f l).

(** The loop invariant of the inner scan after the entries below [n]:
    the best entry so far is free and strictly closer than every free entry
    before it, no free entry visited is closer than it, and none is closer
    than 0.01 (the scan would have stopped). *)
Record scanInv (hex : Z) (available : list Available.t) (n : nat)
    (bestDist : float) (bestIdx : option nat) : Prop := {
  inv_none : bestIdx = None -> bestDist = 9999%float;
  inv_some : forall b, bestIdx = Some b ->
    exists a, untakenAt available b a /\ (b < n)%nat
              /\ bestDist = getColorDist (Available.color a) hex
              /\ (bestDist <? 9999)%float = true;
  inv_earlier : forall b j a, bestIdx = Some b -> (j < b)%nat ->
    untakenAt available j a ->
    (getColorDist (Available.color a) hex <=? bestDist)%float = false;
  inv_all : forall j a, (j < n)%nat -> untakenAt available j a ->
    (getColorDist (Available.color a) hex <? bestDist)%float = false;
  inv_far : forall j a, (j < n)%nat -> untakenAt available j a ->
    (getColorDist (Available.color a) hex <? 0.01)%float = false
}.

(** Every colour distance between a voxel of [vs] and a cell of [targets]
    is below the initial [bestDist] of the scan. *)
Definition belowSentinel (vs : list SimulationVoxel.t)
    (targets : list VoxelData.t) : Prop :=
  forall v target, v ∈ vs -> target ∈ targets ->
    (getColorDist (SimulationVoxel.color v) (VoxelData.color target) <? 9999)%float
    = true.

(** A binary64 datum that is zero, or positive with value at most [2^K]. *)
Definition atMost (K : Z) (x : spec_float) : Prop :=
  match x with
  | S754_zero _ => True
  | S754_finite false m e => (e <= K /\ Zpos m <= 2 ^ (K - e))%Z
  | _ => False
  end.

(** The engine as its constructor leaves it (the initialisers of the class
    fields): no voxel, no target, state Stable. *)
Definition emptyEngine : VoxelEngine :=
  {| voxels := [];
     rebuildTargets := [];
     rebuildStartTime := 0%float;
     state := STABLE;
     notified := [] |}.

(** The engine states the public operations lead to from the state the
    constructor leaves: [loadInitialModel] (which the two edit operations
    [addVoxel] and [removeVoxel] end in), [dismantle], [rebuild] and the
    ticks of the animation loop. *)
Inductive reachable (FLOOR_Y : float) : VoxelEngine -> Prop :=
  | reachable_new : reachable FLOOR_Y emptyEngine
  | reachable_load e data :
      reachable FLOOR_Y e -> reachable FLOOR_Y (loadInitialModel e data)
  | reachable_dismantle e random :
      reachable FLOOR_Y e -> reachable FLOOR_Y (dismantle random e)
  | reachable_rebuild e now targetModel :
      reachable FLOOR_Y e -> reachable FLOOR_Y (rebuild FLOOR_Y now e targetModel)
  | reachable_tick e now e' :
      reachable FLOOR_Y e -> updatePhysics FLOOR_Y now e = Some e' ->
      reachable FLOOR_Y e'.

(** The colour of every voxel was built from a packed colour. *)
Definition coloursBuilt (vs : list SimulationVoxel.t) : Prop :=
  Forall (fun v => exists hex, SimulationVoxel.color v = THREE.Color_new hex) vs.

(** A run of ticks, [nows] holding the value of [Date.now()] in each. *)
Fixpoint runTicks (FLOOR_Y : float) (nows : list float) (e : VoxelEngine)
  : option VoxelEngine :=
  match nows with
  | [] => Some e
  | now :: nows' =>
      match updatePhysics FLOOR_Y now e with
      | None => None
      | Some e' => runTicks FLOOR_Y nows' e'
      end
  end.

(** A packed colour with 24 significant bits. *)
Definition validColor (hex : Z) : Prop := (0 <= hex < 2 ^ 24)%Z.

Definition isHexDigit (ch : ascii) : Prop := ch ∈ Number.hexDigits.

(* ------------------------------------------------------------------------- *)
(** * Sample engines *)
(* ------------------------------------------------------------------------- *)

(** A floor level for the samples. *)
Definition sampleFloor : float := 0%float.

(** The stream of [Math.random()] values of the samples. *)
Definition sampleRandom (k : nat) : float :=
  if Nat.even k then 0.75%float else 0.25%float.

(** Three voxels in a row, red, green and blue (section 8 of the
    specification), and a target of the same cells with blue and green
    swapped, one of them raised. *)
Definition rgbModel : list VoxelData.t :=
  [VoxelData.mk 0 0 0 0xff0000; VoxelData.mk 1 0 0 0x00ff00;
   VoxelData.mk 2 0 0 0x0000ff]%float.

Definition rgbTarget : list VoxelData.t :=
  [VoxelData.mk 0 0 0 0xff0000; VoxelData.mk 1 3 0 0x0000ff;
   VoxelData.mk 2 0 0 0x00ff00]%float.

Definition rgbLoaded : VoxelEngine := loadInitialModel emptyEngine rgbModel.

Definition rgbDismantled : VoxelEngine := dismantle sampleRandom rgbLoaded.

Definition rgbRebuilding : VoxelEngine :=
  rebuild sampleFloor 1000 rgbDismantled rgbTarget.

(** Two voxels, the first one shade of red away from black and the second
    black, and a black target cell. *)
Definition nearBlackModel : list VoxelData.t :=
  [VoxelData.mk 0 0 0 0x010000; VoxelData.mk 1 0 0 0x000000]%float.

Definition blackCell : VoxelData.t := VoxelData.mk 5 5 5 0x000000%Z.

(** One voxel whose vertical coordinate is [NaN]. *)
Definition nanModel : list VoxelData.t :=
  [VoxelData.mk 0 nan 0 0xff0000]%float.

(* ------------------------------------------------------------------------- *)
(** * Order of binary64 numbers *)
(* ------------------------------------------------------------------------- *)

Section FloatOrder.

Local Open Scope float_scope.

Local Ltac sf_cases :=
  repeat match goal with
  | s : bool |- _ => destruct s
  | |- context [Z.compare ?a ?b] => destruct (Z.compare_spec a b)
  | |- context [Pos.compare_cont Eq ?a ?b] =>
      change (Pos.compare_cont Eq a b) with (Pos.compare a b);
      destruct (Pos.compare_spec a b)
  end; simpl in *; try congruence; try lia.

Local Ltac sf_order :=
  unfold SFltb, SFleb, SFcompare;
  repeat match goal with
  | x : spec_float |- _ => destruct x as [?|?| |? ? ?]
  end; try (simpl; congruence); sf_cases.

Lemma SFltb_trans a b c :
  SFltb a b = true -> SFltb b c = true -> SFltb a c = true.
Proof. sf_order. Qed.

Lemma SFleb_ltb_trans a b c :
  SFleb a b = true -> SFltb b c = true -> SFltb a c = true.
Proof. sf_order. Qed.

Lemma SFltb_not_leb a b : SFltb a b = true -> SFleb b a = false.
Proof. sf_order. Qed.

Lemma SFltb_total a b :
  a <> S754_nan -> b <> S754_nan -> SFltb a b = false -> SFleb b a = true.
Proof. sf_order. Qed.

Lemma SFltb_leb a b : SFltb a b = true -> SFleb a b = true.
Proof. sf_order. Qed.

Lemma SFleb_not_ltb a b : SFleb a b = true -> SFltb b a = false.
Proof. sf_order. Qed.

Lemma ltb_trans a b c : (a <? b) = true -> (b <? c) = true -> (a <? c) = true.
Proof. rewrite !FloatAxioms.ltb_spec. apply SFltb_trans. Qed.

Lemma leb_ltb_trans a b c : (a <=? b) = true -> (b <? c) = true -> (a <? c) = true.
Proof. rewrite FloatAxioms.leb_spec, !FloatAxioms.ltb_spec. apply SFleb_ltb_trans. Qed.

Lemma ltb_not_leb a b : (a <? b) = true -> (b <=? a) = false.
Proof. rewrite FloatAxioms.leb_spec, FloatAxioms.ltb_spec. apply SFltb_not_leb. Qed.

Lemma ltb_leb a b : (a <? b) = true -> (a <=? b) = true.
Proof. rewrite FloatAxioms.leb_spec, FloatAxioms.ltb_spec. apply SFltb_leb. Qed.

Lemma leb_not_ltb a b : (a <=? b) = true -> (b <? a) = false.
Proof. rewrite FloatAxioms.leb_spec, FloatAxioms.ltb_spec. apply SFleb_not_ltb. Qed.

Lemma ltb_asym a b : (a <? b) = true -> (b <? a) = false.
Proof. intros H. apply leb_not_ltb, ltb_leb, H. Qed.

Lemma ltb_irrefl a : (a <? a) = false.
Proof.
  destruct (a <? a) eqn:H; [|reflexivity].
  rewrite (ltb_asym _ _ H) in H. discriminate.
Qed.

Lemma is_nan_Prim2SF a : is_nan a = false -> Prim2SF a <> S754_nan.
Proof.
  unfold is_nan. rewrite FloatAxioms.eqb_spec. intros H E. rewrite E in H. discriminate.
Qed.

Lemma ltb_is_nan_l a b : (a <? b) = true -> is_nan a = false.
Proof.
  unfold is_nan. rewrite FloatAxioms.ltb_spec, FloatAxioms.eqb_spec. unfold SFltb, SFeqb, SFcompare.
  destruct (Prim2SF a) as [?|?| |? ? ?], (Prim2SF b) as [?|?| |? ? ?];
    try (simpl; congruence); sf_cases;
    rewrite ?Z.compare_refl, ?Pos.compare_cont_refl; reflexivity.
Qed.

Lemma ltb_is_nan_r a b : (a <? b) = true -> is_nan b = false.
Proof.
  unfold is_nan. rewrite FloatAxioms.ltb_spec, FloatAxioms.eqb_spec. unfold SFltb, SFeqb, SFcompare.
  destruct (Prim2SF a) as [?|?| |? ? ?], (Prim2SF b) as [?|?| |? ? ?];
    try (simpl; congruence); sf_cases;
    rewrite ?Z.compare_refl, ?Pos.compare_cont_refl; reflexivity.
Qed.

(** Two numbers, neither of them [NaN], are comparable. *)
Lemma ltb_total a b :
  is_nan a = false -> is_nan b = false -> (a <? b) = false -> (b <=? a) = true.
Proof.
  intros Ha Hb. rewrite FloatAxioms.leb_spec, FloatAxioms.ltb_spec.
  apply SFltb_total; apply is_nan_Prim2SF; assumption.
Qed.

End FloatOrder.

(* ------------------------------------------------------------------------- *)
(** * Magnitude of binary64 sums and square roots *)
(* ------------------------------------------------------------------------- *)

Section Magnitude.

Local Open Scope Z_scope.

Lemma atMost_mono K K' x : K <= K' -> atMost K x -> atMost K' x.
Proof.
  intros HK. destruct x as [?| | |[] m e]; cbn; try done.
  intros [He Hm]. split; [lia|].
  etransitivity; [exact Hm|]. apply Z.pow_le_mono_r; lia.
Qed.

Lemma digits2_pos_size (p : positive) : digits2_pos p = Pos.size p.
Proof. induction p; cbn; congruence. Qed.

(** A positive number below [2^j] has at most [j] binary digits. *)
Lemma digits_le (p : positive) (j : Z) :
  Zpos p < 2 ^ j -> Zpos (digits2_pos p) <= j.
Proof.
  intros Hp. rewrite digits2_pos_size.
  destruct (Z.le_gt_cases (Zpos (Pos.size p)) j) as [|Hgt]; [assumption|exfalso].
  assert (0 <= j).
  { destruct (Z.le_gt_cases 0 j); [assumption|].
    rewrite Z.pow_neg_r in Hp by lia. lia. }
  pose proof (Pos.size_le p) as Hs.
  assert (2 ^ (j + 1) <= 2 ^ Zpos (Pos.size p)) by (apply Z.pow_le_mono_r; lia).
  rewrite Z.pow_add_r in * by lia. change (2 ^ 1) with 2 in *.
  assert (Zpos (2 ^ Pos.size p) <= Zpos p~0) by exact Hs.
  rewrite Pos2Z.inj_pow in *. lia.
Qed.

Lemma shr_1_m (mrs : shr_record) :
  0 <= shr_m mrs -> shr_m (shr_1 mrs) = shr_m mrs / 2.
Proof.
  destruct mrs as [m r s]. cbn [shr_m]. intros Hm.
  destruct m as [|[p|p|]|p]; cbn [shr_1 shr_m]; try lia; try reflexivity.
  - apply Z.div_unique with 1; lia.
  - apply Z.div_unique with 0; lia.
Qed.

Lemma pow2_xO (p : positive) : 2 ^ Zpos p~0 = 2 ^ Zpos p * 2 ^ Zpos p.
Proof.
  replace (Zpos p~0) with (Zpos p + Zpos p) by lia. apply Z.pow_add_r; lia.
Qed.

Lemma pow2_xI (p : positive) : 2 ^ Zpos p~1 = 2 * (2 ^ Zpos p * 2 ^ Zpos p).
Proof.
  replace (Zpos p~1) with (1 + (Zpos p + Zpos p)) by lia.
  rewrite !Z.pow_add_r by lia. reflexivity.
Qed.

Lemma iter_shr_1_m (p : positive) :
  forall mrs, 0 <= shr_m mrs ->
    shr_m (SpecFloat.iter_pos shr_1 p mrs) = shr_m mrs / 2 ^ Zpos p.
Proof.
  induction p as [p IH|p IH|]; intros mrs Hm; cbn [SpecFloat.iter_pos].
  - assert (Hp : 0 < 2 ^ Zpos p) by (apply Z.pow_pos_nonneg; lia).
    assert (H1 : 0 <= shr_m (shr_1 mrs))
      by (rewrite shr_1_m by assumption; apply Z.div_pos; lia).
    assert (H2 : 0 <= shr_m (SpecFloat.iter_pos shr_1 p (shr_1 mrs)))
      by (rewrite IH by assumption; apply Z.div_pos; lia).
    rewrite IH, IH, shr_1_m by assumption.
    rewrite !Z.div_div by lia. now rewrite pow2_xI.
  - assert (Hp : 0 < 2 ^ Zpos p) by (apply Z.pow_pos_nonneg; lia).
    assert (H2 : 0 <= shr_m (SpecFloat.iter_pos shr_1 p mrs))
      by (rewrite IH by assumption; apply Z.div_pos; lia).
    rewrite IH, IH by assumption.
    rewrite !Z.div_div by lia. now rewrite pow2_xO.
  - rewrite shr_1_m by assumption. reflexivity.
Qed.

Lemma fexp_binary64 (z : Z) : fexp prec emax z = Z.max (z - 53) (-1074).
Proof. reflexivity. Qed.

Lemma Zdigits2_le (m j : Z) : 0 <= m < 2 ^ j -> 0 <= j -> Zdigits2 m <= j.
Proof.
  intros [Hm Hlt] Hj. destruct m as [|p|p]; cbn [Zdigits2]; [assumption| |lia].
  now apply digits_le.
Qed.

Lemma shr_record_of_loc_m (m : Z) (l : location) :
  shr_m (shr_record_of_loc m l) = m.
Proof. destruct l as [|[]]; reflexivity. Qed.

(** The shift to the canonical exponent never raises the value. *)
Lemma shr_fexp_bound (m e : Z) (l : location) :
  0 <= m ->
  0 <= shr_m (fst (shr_fexp prec emax m e l))
  /\ snd (shr_fexp prec emax m e l) = Z.max e (fexp prec emax (Zdigits2 m + e))
  /\ shr_m (fst (shr_fexp prec emax m e l))
     * 2 ^ (snd (shr_fexp prec emax m e l) - e) <= m.
Proof.
  intros Hm. unfold shr_fexp, shr.
  destruct (fexp prec emax (Zdigits2 m + e) - e) as [|p|p] eqn:Hn; cbn [fst snd].
  - rewrite shr_record_of_loc_m, Z.sub_diag. cbn. lia.
  - assert (Hp : 0 < 2 ^ Zpos p) by (apply Z.pow_pos_nonneg; lia).
    rewrite iter_shr_1_m by now rewrite shr_record_of_loc_m.
    rewrite shr_record_of_loc_m.
    replace (e + Zpos p - e) with (Zpos p) by lia.
    split; [apply Z.div_pos; lia|]. split; [lia|].
    rewrite Z.mul_comm. apply Z.mul_div_le. lia.
  - rewrite shr_record_of_loc_m, Z.sub_diag. cbn. lia.
Qed.

Lemma round_nearest_even_bound (m : Z) (l : location) :
  m <= round_nearest_even m l <= m + 1.
Proof.
  unfold round_nearest_even. destruct l as [|[]]; try lia.
  destruct (Z.even m); lia.
Qed.

Lemma pow2_split (a b c : Z) : a <= b -> b <= c -> 2 ^ (c - a) = 2 ^ (c - b) * 2 ^ (b - a).
Proof. intros. rewrite <- Z.pow_add_r by lia. f_equal. lia. Qed.

(** Rounding a non-negative value below [2^K] gives zero or a positive
    datum of value at most [2^K]. *)
Lemma binary_round_aux_atMost (K : Z) (sx : bool) (mx ex : Z) (lx : location) :
  -1074 <= K <= 971 ->
  0 <= mx -> ex <= K -> mx < 2 ^ (K - ex) ->
  match binary_round_aux prec emax sx mx ex lx with
  | S754_zero s => s = sx
  | S754_finite s m e => s = sx /\ e <= K /\ Zpos m <= 2 ^ (K - e)
  | _ => False
  end.
Proof.
  intros HK Hmx Hex Hlt. unfold binary_round_aux.
  destruct (shr_fexp_bound mx ex lx Hmx) as (Hm1 & He1 & Hb1).
  destruct (shr_fexp prec emax mx ex lx) as [mrs1 e1]. cbn [fst snd] in *.
  set (m1 := shr_m mrs1) in *.
  assert (Hd1 : Zdigits2 mx <= K - ex) by (apply Zdigits2_le; lia).
  assert (He1K : e1 <= K) by (rewrite He1, fexp_binary64; lia).
  assert (Hex1 : ex <= e1) by lia.
  assert (Hm1lt : m1 < 2 ^ (K - e1)).
  { rewrite (pow2_split ex e1 K) in Hlt by lia.
    assert (0 < 2 ^ (e1 - ex)) by (apply Z.pow_pos_nonneg; lia).
    nia. }
  pose proof (round_nearest_even_bound m1 (loc_of_shr_record mrs1)) as Hr.
  set (m2 := round_nearest_even m1 (loc_of_shr_record mrs1)) in *.
  assert (Hm2 : 0 <= m2) by lia.
  destruct (shr_fexp_bound m2 e1 loc_Exact Hm2) as (Hm3 & He3 & Hb3).
  destruct (shr_fexp prec emax m2 e1 loc_Exact) as [mrs3 e3]. cbn [fst snd] in *.
  remember (shr_m mrs3) as m3 eqn:Hm3e.
  assert (Hd2 : Zdigits2 m2 <= K - e1 + 1).
  { apply Zdigits2_le; [|lia]. split; [lia|].
    rewrite Z.pow_add_r by lia. change (2 ^ 1) with 2. lia. }
  assert (He3K : e3 <= K) by (rewrite He3, fexp_binary64; lia).
  assert (Hm3le : m3 <= 2 ^ (K - e3)).
  { assert (Hm2le : m2 <= 2 ^ (K - e1)) by lia.
    rewrite (pow2_split e1 e3 K) in Hm2le by lia.
    assert (0 < 2 ^ (e3 - e1)) by (apply Z.pow_pos_nonneg; lia).
    nia. }
  destruct m3 as [|p|p]; [reflexivity| |lia].
  replace (e3 <=? emax - prec) with true
    by (symmetry; apply Z.leb_le; change (emax - prec) with 971; lia).
  auto.
Qed.

Lemma iter_xO (d m : positive) : Zpos (Pos.iter xO m d) = Zpos m * 2 ^ Zpos d.
Proof.
  induction d as [|d IH] using Pos.peano_ind.
  - cbn. lia.
  - rewrite Pos.iter_succ, Pos2Z.inj_xO, IH, Pos2Z.inj_succ, Z.pow_succ_r by lia. lia.
Qed.

(** Aligning a mantissa to a lower exponent keeps the value. *)
Lemma shl_align_value (m : positive) (e e' : Z) :
  snd (shl_align m e e') <= e
  /\ Zpos (fst (shl_align m e e')) = Zpos m * 2 ^ (e - snd (shl_align m e e'))
  /\ snd (shl_align m e e') = Z.min e e'.
Proof.
  unfold shl_align. destruct (e' - e) as [|d|d] eqn:Hd; cbn [fst snd].
  - rewrite Z.sub_diag. cbn. lia.
  - rewrite Z.sub_diag. cbn. lia.
  - rewrite iter_xO. replace (e - e') with (Zpos d) by lia. lia.
Qed.

(** The sum of two data that are zero or positive with value at most
    [2^K] is zero or positive with value at most [2^(K+2)]. *)
Lemma SFadd_atMost (K : Z) (x y : spec_float) :
  -1074 <= K <= 969 ->
  atMost K x -> atMost K y -> atMost (K + 2) (SFadd prec emax x y).
Proof.
  intros HK Hx Hy.
  destruct x as [sx| | |[] mx ex], y as [sy| | |[] my ey]; cbn in Hx, Hy; try done.
  - destruct sx, sy; exact I.
  - cbn. destruct Hy. split; [lia|].
    etransitivity; [eassumption|]. apply Z.pow_le_mono_r; lia.
  - cbn. destruct Hx. split; [lia|].
    etransitivity; [eassumption|]. apply Z.pow_le_mono_r; lia.
  - destruct Hx as [Hex Hmx], Hy as [Hey Hmy].
    unfold SFadd, cond_Zopp.
    destruct (shl_align_value mx ex (Z.min ex ey)) as (_ & Hvx & Hsx).
    destruct (shl_align_value my ey (Z.min ex ey)) as (_ & Hvy & Hsy).
    rewrite Hsx in Hvx. rewrite Hsy in Hvy.
    replace (Z.min ex (Z.min ex ey)) with (Z.min ex ey) in Hvx by lia.
    replace (Z.min ey (Z.min ex ey)) with (Z.min ex ey) in Hvy by lia.
    set (ez := Z.min ex ey) in *.
    set (ax := fst (shl_align mx ex ez)) in *.
    set (ay := fst (shl_align my ey ez)) in *.
    change (Zpos ax + Zpos ay) with (Zpos (ax + ay)).
    cbn [binary_normalize]. unfold binary_round.
    destruct (shl_align_value (ax + ay) ez
                (fexp prec emax (Zpos (digits2_pos (ax + ay)) + ez))) as (Hle & Hv & _).
    destruct (shl_align (ax + ay) ez
                (fexp prec emax (Zpos (digits2_pos (ax + ay)) + ez))) as [mz ez'].
    cbn [fst snd] in *.
    assert (Hsum : Zpos (ax + ay) <= 2 ^ (K + 1 - ez)).
    { rewrite Pos2Z.inj_add, Hvx, Hvy.
      assert (Zpos mx * 2 ^ (ex - ez) <= 2 ^ (K - ez)).
      { rewrite (pow2_split ez ex K) by lia.
        apply Z.mul_le_mono_nonneg_r; [apply Z.pow_nonneg; lia | assumption]. }
      assert (Zpos my * 2 ^ (ey - ez) <= 2 ^ (K - ez)).
      { rewrite (pow2_split ez ey K) by lia.
        apply Z.mul_le_mono_nonneg_r; [apply Z.pow_nonneg; lia | assumption]. }
      replace (K + 1 - ez) with (1 + (K - ez)) by lia.
      rewrite Z.pow_add_r by lia. change (2 ^ 1) with 2. lia. }
    pose proof (binary_round_aux_atMost (K + 2) false (Zpos mz) ez' loc_Exact
                  ltac:(lia) ltac:(lia) ltac:(lia)) as Hround.
    destruct (binary_round_aux prec emax false (Zpos mz) ez' loc_Exact)
      as [s| | |s m e]; cbn.
    + exact I.
    + apply Hround.
      rewrite Hv. rewrite (pow2_split ez' ez (K + 2)) by lia.
      apply Z.mul_lt_mono_pos_r; [apply Z.pow_pos_nonneg; lia|].
      replace (K + 2 - ez) with (1 + (K + 1 - ez)) by lia.
      rewrite Z.pow_add_r by lia. change (2 ^ 1) with 2.
      assert (0 < 2 ^ (K + 1 - ez)) by (apply Z.pow_pos_nonneg; lia). lia.
    + apply Hround.
      rewrite Hv. rewrite (pow2_split ez' ez (K + 2)) by lia.
      apply Z.mul_lt_mono_pos_r; [apply Z.pow_pos_nonneg; lia|].
      replace (K + 2 - ez) with (1 + (K + 1 - ez)) by lia.
      rewrite Z.pow_add_r by lia. change (2 ^ 1) with 2.
      assert (0 < 2 ^ (K + 1 - ez)) by (apply Z.pow_pos_nonneg; lia). lia.
    + destruct Hround as (-> & He & Hm).
      * rewrite Hv. rewrite (pow2_split ez' ez (K + 2)) by lia.
        apply Z.mul_lt_mono_pos_r; [apply Z.pow_pos_nonneg; lia|].
        replace (K + 2 - ez) with (1 + (K + 1 - ez)) by lia.
        rewrite Z.pow_add_r by lia. change (2 ^ 1) with 2.
        assert (0 < 2 ^ (K + 1 - ez)) by (apply Z.pow_pos_nonneg; lia). lia.
      * split; assumption.
Qed.

(** The square root of a datum that is zero or positive with value at most
    [2^(2J)] is zero or positive with value at most [2^(J+1)]. *)
Lemma SFsqrt_atMost (J : Z) (x : spec_float) :
  -537 <= J <= 970 ->
  atMost (2 * J) x -> atMost (J + 1) (SFsqrt prec emax x).
Proof.
  intros HJ Hx.
  destruct x as [sx| | |[] mx ex]; cbn in Hx; try done.
  destruct Hx as [Hex Hmx]. unfold SFsqrt, SFsqrt_core_binary.
  set (e' := Z.min (fexp prec emax (Z.div2 (Zdigits2 (Zpos mx) + ex + 1))) (Z.div2 ex)).
  assert (He' : 2 * e' <= ex).
  { assert (2 * Z.div2 ex <= ex)
      by (rewrite Z.div2_div; pose proof (Z.mul_div_le ex 2 ltac:(lia)); lia).
    lia. }
  set (m' := match ex - 2 * e' with
             | 0 => Zpos mx
             | Zpos _ => Z.shiftl (Zpos mx) (ex - 2 * e')
             | Zneg _ => 0
             end).
  assert (Hm' : m' = Zpos mx * 2 ^ (ex - 2 * e')).
  { unfold m'. destruct (ex - 2 * e') as [|p|p] eqn:Hs; [cbn; lia| |lia].
    apply Z.shiftl_mul_pow2. lia. }
  assert (Hm'0 : 0 <= m') by (rewrite Hm'; apply Z.mul_nonneg_nonneg; [lia|apply Z.pow_nonneg; lia]).
  pose proof (Z.sqrtrem_spec m' Hm'0) as Hspec.
  destruct (Z.sqrtrem m') as [q r]. destruct Hspec as [Hq Hr].
  assert (HP : 0 < 2 ^ (J - e')) by (apply Z.pow_pos_nonneg; lia).
  assert (Hqle : q <= 2 ^ (J - e')).
  { assert (Hsq : q * q <= 2 ^ (J - e') * 2 ^ (J - e')).
    { rewrite <- Z.pow_add_r by lia.
      replace (J - e' + (J - e')) with (2 * J - ex + (ex - 2 * e')) by lia.
      rewrite Z.pow_add_r by lia.
      assert (Zpos mx * 2 ^ (ex - 2 * e') <= 2 ^ (2 * J - ex) * 2 ^ (ex - 2 * e'))
        by (apply Z.mul_le_mono_nonneg_r; [apply Z.pow_nonneg; lia | assumption]).
      lia. }
    nia. }
  pose proof (binary_round_aux_atMost (J + 1) false q e'
                (if r =? 0 then loc_Exact
                 else loc_Inexact (if r <=? q then Lt else Gt))
                ltac:(lia) ltac:(lia) ltac:(lia)) as Hround.
  destruct (binary_round_aux prec emax false q e' _) as [s| | |s m e]; cbn.
  - exact I.
  - apply Hround. replace (J + 1 - e') with (1 + (J - e')) by lia.
    rewrite Z.pow_add_r by lia. change (2 ^ 1) with 2. lia.
  - apply Hround. replace (J + 1 - e') with (1 + (J - e')) by lia.
    rewrite Z.pow_add_r by lia. change (2 ^ 1) with 2. lia.
  - destruct Hround as (-> & He & Hm); [|split; assumption].
    replace (J + 1 - e') with (1 + (J - e')) by lia.
    rewrite Z.pow_add_r by lia. change (2 ^ 1) with 2. lia.
Qed.

(** A valid datum that is zero or positive with value at most 8 is below
    9999. *)
Lemma atMost_below_9999 (x : spec_float) :
  SpecFloat.valid_binary prec emax x = true -> atMost 3 x ->
  SFltb x (Prim2SF 9999%float) = true.
Proof.
  intros Hv Hx.
  change (Prim2SF 9999%float) with (S754_finite false 5497008383066112 (-39)).
  destruct x as [sx| | |[] m e]; cbn in Hx; try done.
  destruct Hx as [He Hm]. cbn in Hv.
  apply andb_true_iff in Hv as [Hc _]. unfold canonical_mantissa in Hc.
  apply Z.eqb_eq in Hc. rewrite fexp_binary64 in Hc.
  assert (Hd : Zpos (digits2_pos m) + e <= 4).
  { rewrite digits2_pos_size.
    pose proof (Pos.size_le m) as Hs.
    assert (Hs' : 2 ^ Zpos (Pos.size m) <= 2 * Zpos m)
      by (rewrite <- Pos2Z.inj_pow; exact Hs).
    destruct (Z.le_gt_cases (Zpos (Pos.size m)) (4 - e)) as [|Hgt]; [lia|exfalso].
    assert (2 ^ (5 - e) <= 2 ^ Zpos (Pos.size m)) by (apply Z.pow_le_mono_r; lia).
    replace (5 - e) with (2 + (3 - e)) in * by lia.
    rewrite Z.pow_add_r in * by lia. change (2 ^ 2) with 4 in *.
    assert (0 < 2 ^ (3 - e)) by (apply Z.pow_pos_nonneg; lia). lia. }
  unfold SFltb, SFcompare.
  replace (e ?= -39) with Lt; [reflexivity|].
  symmetry. apply Z.compare_lt_iff. lia.
Qed.

Lemma compare_cont_Eq (p q : positive) : Pos.compare_cont Eq p q = (p ?= q)%positive.
Proof. reflexivity. Qed.

(** A number between 0 and 1 is a datum that is zero or positive with
    value at most [2^0]. *)
Lemma unit_interval_atMost (x : float) :
  (0 <=? x)%float = true -> (x <=? 1)%float = true -> atMost 0 (Prim2SF x).
Proof.
  rewrite !FloatAxioms.leb_spec. intros H0 H1. pose proof (Prim2SF_valid x) as Hv.
  change (Prim2SF 0%float) with (S754_zero false) in H0.
  change (Prim2SF 1%float) with (S754_finite false 4503599627370496 (-52)) in H1.
  destruct (Prim2SF x) as [sx|sx| |sx m e]; try exact I; try discriminate.
  - destruct sx; discriminate.
  - destruct sx; [discriminate|]. cbn in Hv |- *.
    apply andb_true_iff in Hv as [Hc _]. unfold canonical_mantissa in Hc.
    apply Z.eqb_eq in Hc. rewrite fexp_binary64 in Hc.
    unfold SFleb, SFcompare in H1.
    assert (Hsize : Zpos m < 2 ^ Zpos (digits2_pos m)).
    { rewrite digits2_pos_size, <- Pos2Z.inj_pow. exact (Pos.size_gt m). }
    destruct (Z.compare_spec e (-52)) as [->|Hlt|Hgt]; [| |discriminate].
    + split; [lia|]. change (2 ^ (0 - -52)) with 4503599627370496.
      rewrite compare_cont_Eq in H1. clear Hsize Hc H0.
      destruct (Pos.compare_spec m 4503599627370496) as [Heq|Hl|Hg].
      * rewrite Heq. apply Z.le_refl.
      * apply Z.lt_le_incl. exact Hl.
      * discriminate H1.
    + split; [lia|].
      assert (Zpos (digits2_pos m) <= 0 - e) by lia.
      assert (2 ^ Zpos (digits2_pos m) <= 2 ^ (0 - e)) by (apply Z.pow_le_mono_r; lia).
      lia.
Qed.

End Magnitude.

(* ------------------------------------------------------------------------- *)
(** * State machine guards *)
(* ------------------------------------------------------------------------- *)

Section Guards.

Variable FLOOR_Y : float.

(** C5. [dismantle()] called when the state is not Stable, and [rebuild()]
    called when the state is Rebuilding, return the engine as it was: the
    state, the voxel list with every position, velocity and rotation, the
    target table and the callback calls made are all unchanged (no callback
    is invoked).  A [dismantle()] call from Stable leaves the engine in state
    Dismantling. *)
Theorem C5_illegal_transitions_are_noops
    (random : nat -> float) (now : float) (e : VoxelEngine)
    (targetModel : list VoxelData.t) :
  (state e <> STABLE -> dismantle random e = e)
  /\ (state e = REBUILDING -> rebuild FLOOR_Y now e targetModel = e)
  /\ (state e = STABLE -> state (dismantle random e) = DISMANTLING).
Proof.
  unfold dismantle, rebuild. repeat split; intros H.
  - destruct (decide (state e = STABLE)); [contradiction | reflexivity].
  - destruct (decide (state e = REBUILDING)); [reflexivity | contradiction].
  - destruct (decide (state e = STABLE)); [reflexivity | contradiction].
Qed.

End Guards.

(* ------------------------------------------------------------------------- *)
(** * Physics integrator *)
(* ------------------------------------------------------------------------- *)

Section Integrator.

Local Open Scope float_scope.

Variable FLOOR_Y : float.

(** C4. A tick in state Dismantling succeeds, stays in Dismantling and
    replaces every voxel, independently of the others, by the voxel with:
    vertical velocity decremented by 0.025; position incremented by the
    velocity (the vertical one after the decrement); rotation incremented by
    the angular velocity; and, when the new vertical position is below
    [FLOOR_Y + 0.5], vertical position set to [FLOOR_Y + 0.5], vertical
    velocity multiplied by -0.5, horizontal velocities by 0.9 and angular
    velocities by 0.8. *)
Theorem C4_dismantling_tick (now : float) (e : VoxelEngine) :
  state e = DISMANTLING ->
  exists e',
    updatePhysics FLOOR_Y now e = Some e'
    /\ state e' = DISMANTLING
    /\ length (voxels e') = length (voxels e)
    /\ forall (i : nat) (v : SimulationVoxel.t),
         voxels e !! i = Some v ->
         exists v',
           voxels e' !! i = Some v'
           /\ SimulationVoxel.id v' = SimulationVoxel.id v
           /\ SimulationVoxel.color v' = SimulationVoxel.color v
           /\ SimulationVoxel.x v' = SimulationVoxel.x v + SimulationVoxel.vx v
           /\ SimulationVoxel.z v' = SimulationVoxel.z v + SimulationVoxel.vz v
           /\ SimulationVoxel.rx v' = SimulationVoxel.rx v + SimulationVoxel.rvx v
           /\ SimulationVoxel.ry v' = SimulationVoxel.ry v + SimulationVoxel.rvy v
           /\ SimulationVoxel.rz v' = SimulationVoxel.rz v + SimulationVoxel.rvz v
           /\ let vy1 := SimulationVoxel.vy v - 0.025 in
              let y1 := SimulationVoxel.y v + vy1 in
              if y1 <? FLOOR_Y + 0.5 then
                SimulationVoxel.y v' = FLOOR_Y + 0.5
                /\ SimulationVoxel.vy v' = vy1 * -0.5
                /\ SimulationVoxel.vx v' = SimulationVoxel.vx v * 0.9
                /\ SimulationVoxel.vz v' = SimulationVoxel.vz v * 0.9
                /\ SimulationVoxel.rvx v' = SimulationVoxel.rvx v * 0.8
                /\ SimulationVoxel.rvy v' = SimulationVoxel.rvy v * 0.8
                /\ SimulationVoxel.rvz v' = SimulationVoxel.rvz v * 0.8
              else
                SimulationVoxel.y v' = y1
                /\ SimulationVoxel.vy v' = vy1
                /\ SimulationVoxel.vx v' = SimulationVoxel.vx v
                /\ SimulationVoxel.vz v' = SimulationVoxel.vz v
                /\ SimulationVoxel.rvx v' = SimulationVoxel.rvx v
                /\ SimulationVoxel.rvy v' = SimulationVoxel.rvy v
                /\ SimulationVoxel.rvz v' = SimulationVoxel.rvz v.
Proof.
  intros Hst. unfold updatePhysics. rewrite Hst.
  eexists. split; [reflexivity|]. cbn [state voxels].
  split; [reflexivity|]. split; [apply length_map|].
  intros i v Hv. exists (physicsStep FLOOR_Y v).
  split; [rewrite list_lookup_fmap, Hv; reflexivity|].
  unfold physicsStep.
  destruct (SimulationVoxel.y v + (SimulationVoxel.vy v - 0.025) <? FLOOR_Y + 0.5);
    cbn; repeat split; reflexivity.
Qed.

(** The vertical position after one integrator step, when it is a number,
    is not below the floor height. *)
Lemma physicsStep_above_floor (v : SimulationVoxel.t) :
  is_nan (FLOOR_Y + 0.5) = false ->
  is_nan (SimulationVoxel.y v + (SimulationVoxel.vy v - 0.025)) = false ->
  (FLOOR_Y + 0.5 <=? SimulationVoxel.y (physicsStep FLOOR_Y v)) = true.
Proof.
  intros Hf Hy. unfold physicsStep.
  destruct (SimulationVoxel.y v + (SimulationVoxel.vy v - 0.025) <? FLOOR_Y + 0.5)
    eqn:Hlt; cbn.
  - apply ltb_total; [assumption | assumption | apply ltb_irrefl].
  - apply ltb_total; assumption.
Qed.

(** C10, as the code has it.  At the end of a tick in state Dismantling,
    with the floor height [FLOOR_Y + 0.5] a number, every voxel whose
    integrated vertical position [y + (vy - 0.025)] is a number (not [NaN])
    has a vertical position of at least [FLOOR_Y + 0.5], whatever its
    position and velocity were before the tick. *)
Theorem C10_floor_bound_after_tick (now : float) (e e' : VoxelEngine)
    (i : nat) (v v' : SimulationVoxel.t) :
  state e = DISMANTLING ->
  is_nan (FLOOR_Y + 0.5) = false ->
  updatePhysics FLOOR_Y now e = Some e' ->
  voxels e !! i = Some v ->
  voxels e' !! i = Some v' ->
  is_nan (SimulationVoxel.y v + (SimulationVoxel.vy v - 0.025)) = false ->
  (FLOOR_Y + 0.5 <=? SimulationVoxel.y v') = true.
Proof.
  intros Hst Hf Hup Hv Hv' Hy.
  unfold updatePhysics in Hup. rewrite Hst in Hup.
  injection Hup as <-. cbn [voxels] in Hv'.
  rewrite list_lookup_fmap, Hv in Hv'. injection Hv' as <-.
  apply physicsStep_above_floor; assumption.
Qed.

End Integrator.

(* ------------------------------------------------------------------------- *)
(** * Reassembly animator *)
(* ------------------------------------------------------------------------- *)

Section Animator.

Local Open Scope float_scope.

Variable FLOOR_Y : float.

Local Ltac conj := repeat match goal with |- _ /\ _ => split end.

(** The flag [allDone] only ever goes from true to false: one voxel's step
    is its step from a true flag, conjoined with the flag before. *)
Lemma animateVoxel_flag (elapsed : float) (t : RebuildTarget.t)
    (v : SimulationVoxel.t) (allDone : bool) :
  animateVoxel elapsed t v allDone
  = (fst (animateVoxel elapsed t v true),
     allDone && snd (animateVoxel elapsed t v true)).
Proof.
  unfold animateVoxel.
  destruct (RebuildTarget.isRubble t), (elapsed <? RebuildTarget.delay t),
    (Number.gtb (distSq t (ease t v)) 0.01), allDone; reflexivity.
Qed.

(** The animator's loop over a table that has an entry for every voxel it
    visits: it does not throw, it steps every voxel with its own target and
    [allDone] ends true exactly when it was true and no voxel cleared it. *)
Lemma animateVoxels_spec (targets : list RebuildTarget.t) (elapsed : float)
    (vs : list SimulationVoxel.t) :
  forall (i : nat) (allDone : bool),
    (i + length vs <= length targets)%nat ->
    exists vs' allDone',
      animateVoxels targets elapsed i vs allDone = Some (vs', allDone')
      /\ length vs' = length vs
      /\ (forall k v t, vs !! k = Some v -> targets !! (i + k)%nat = Some t ->
            vs' !! k = Some (fst (animateVoxel elapsed t v true)))
      /\ (allDone' = true <->
            allDone = true
            /\ forall k v t, vs !! k = Some v -> targets !! (i + k)%nat = Some t ->
                 snd (animateVoxel elapsed t v true) = true).
Proof.
  induction vs as [|v vs IH]; intros i allDone Hlen; cbn [animateVoxels].
  - exists [], allDone. repeat split; try done. tauto.
  - cbn [length] in Hlen.
    destruct (lookup_lt_is_Some_2 targets i ltac:(lia)) as [t Ht].
    rewrite Ht, animateVoxel_flag.
    destruct (IH (S i) (allDone && snd (animateVoxel elapsed t v true)) ltac:(lia))
      as (vs' & allDone' & -> & Hl & Hvs & Hdone).
    eexists _, _. split; [reflexivity|]. split; [cbn; lia|]. split.
    + intros [|k] v0 t0 Hv0 Ht0.
      * rewrite Nat.add_0_r in Ht0. cbn in Hv0. simplify_eq. reflexivity.
      * cbn in Hv0 |- *. apply Hvs; [assumption|].
        now replace (S i + k)%nat with (i + S k)%nat by lia.
    + rewrite Hdone, andb_true_iff. split.
      * intros [[Ha Hs] Hrest]. split; [assumption|].
        intros [|k] v0 t0 Hv0 Ht0.
        -- rewrite Nat.add_0_r in Ht0. cbn in Hv0. simplify_eq. assumption.
        -- cbn in Hv0. eapply Hrest; [eassumption|].
           now replace (S i + k)%nat with (i + S k)%nat by lia.
      * intros [Ha Hall]. repeat split; [assumption| |].
        -- apply (Hall 0%nat v t); [reflexivity|]. now rewrite Nat.add_0_r.
        -- intros k v0 t0 Hv0 Ht0. apply (Hall (S k) v0 t0); [assumption|].
           now replace (i + S k)%nat with (S i + k)%nat by lia.
Qed.

(** The animator's tick, for a table that has one entry per voxel. *)
Lemma animator_tick (now : float) (e : VoxelEngine) :
  state e = REBUILDING ->
  length (rebuildTargets e) = length (voxels e) ->
  let elapsed := now - rebuildStartTime e in
  let x1 t v := SimulationVoxel.x v
                + (RebuildTarget.x t - SimulationVoxel.x v) * 0.12 in
  let y1 t v := SimulationVoxel.y v
                + (RebuildTarget.y t - SimulationVoxel.y v) * 0.12 in
  let z1 t v := SimulationVoxel.z v
                + (RebuildTarget.z t - SimulationVoxel.z v) * 0.12 in
  let d2 t v := Number.sq (RebuildTarget.x t - x1 t v)
                + Number.sq (RebuildTarget.y t - y1 t v)
                + Number.sq (RebuildTarget.z t - z1 t v) in
  exists e',
    updatePhysics FLOOR_Y now e = Some e'
    /\ length (voxels e') = length (voxels e)
    /\ (forall i v t,
          voxels e !! i = Some v -> rebuildTargets e !! i = Some t ->
          exists v',
            voxels e' !! i = Some v'
            /\ SimulationVoxel.id v' = SimulationVoxel.id v
            /\ SimulationVoxel.color v' = SimulationVoxel.color v
            /\ SimulationVoxel.vx v' = SimulationVoxel.vx v
            /\ SimulationVoxel.vy v' = SimulationVoxel.vy v
            /\ SimulationVoxel.vz v' = SimulationVoxel.vz v
            /\ SimulationVoxel.rvx v' = SimulationVoxel.rvx v
            /\ SimulationVoxel.rvy v' = SimulationVoxel.rvy v
            /\ SimulationVoxel.rvz v' = SimulationVoxel.rvz v
            /\ (RebuildTarget.isRubble t = true -> v' = v)
            /\ (RebuildTarget.isRubble t = false ->
                if elapsed <? RebuildTarget.delay t
                then v' = v /\ state e' = REBUILDING
                else
                  (if 0.01 <? d2 t v
                   then SimulationVoxel.x v' = x1 t v
                        /\ SimulationVoxel.y v' = y1 t v
                        /\ SimulationVoxel.z v' = z1 t v
                        /\ SimulationVoxel.rx v'
                           = SimulationVoxel.rx v + (0 - SimulationVoxel.rx v) * 0.12
                        /\ SimulationVoxel.ry v'
                           = SimulationVoxel.ry v + (0 - SimulationVoxel.ry v) * 0.12
                        /\ SimulationVoxel.rz v'
                           = SimulationVoxel.rz v + (0 - SimulationVoxel.rz v) * 0.12
                        /\ state e' = REBUILDING
                   else SimulationVoxel.x v' = RebuildTarget.x t
                        /\ SimulationVoxel.y v' = RebuildTarget.y t
                        /\ SimulationVoxel.z v' = RebuildTarget.z t
                        /\ SimulationVoxel.rx v' = 0
                        /\ SimulationVoxel.ry v' = 0
                        /\ SimulationVoxel.rz v' = 0)
                  /\ ((d2 t v <? 0.01) = true ->
                      SimulationVoxel.x v' = RebuildTarget.x t
                      /\ SimulationVoxel.y v' = RebuildTarget.y t
                      /\ SimulationVoxel.z v' = RebuildTarget.z t
                      /\ SimulationVoxel.rx v' = 0
                      /\ SimulationVoxel.ry v' = 0
                      /\ SimulationVoxel.rz v' = 0)))
    /\ (state e' = STABLE <->
        forall i v t,
          voxels e !! i = Some v -> rebuildTargets e !! i = Some t ->
          RebuildTarget.isRubble t = false ->
          (elapsed <? RebuildTarget.delay t) = false
          /\ (0.01 <? d2 t v) = false)
    /\ (state e' = STABLE \/ state e' = REBUILDING).
Proof.
  intros Hst Hlen elapsed x1 y1 z1 d2.
  unfold updatePhysics. rewrite Hst. fold elapsed.
  destruct (animateVoxels_spec (rebuildTargets e) elapsed (voxels e) 0 true
              ltac:(cbn; lia)) as (vs' & allDone' & -> & Hl & Hvs & Hdone).
  eexists. split; [reflexivity|]. cbn [voxels state].
  assert (Hflag : forall i v t,
             voxels e !! i = Some v -> rebuildTargets e !! i = Some t ->
             RebuildTarget.isRubble t = false ->
             snd (animateVoxel elapsed t v true)
             = negb (elapsed <? RebuildTarget.delay t) && negb (0.01 <? d2 t v)).
  { intros i v t _ _ Hr. unfold animateVoxel. rewrite Hr.
    destruct (elapsed <? RebuildTarget.delay t); [reflexivity|].
    unfold Number.gtb. change (distSq t (ease t v)) with (d2 t v).
    destruct (0.01 <? d2 t v); reflexivity. }
  assert (Hblock : forall i v t,
             voxels e !! i = Some v -> rebuildTargets e !! i = Some t ->
             RebuildTarget.isRubble t = false ->
             negb (elapsed <? RebuildTarget.delay t) && negb (0.01 <? d2 t v) = false ->
             (if allDone' then STABLE else REBUILDING) = REBUILDING).
  { intros i v t Hv Ht Hr Hb. destruct allDone'; [exfalso|reflexivity].
    destruct Hdone as [Hdone _]. destruct (Hdone eq_refl) as [_ Hall].
    specialize (Hall i v t Hv Ht). rewrite (Hflag i v t Hv Ht Hr), Hb in Hall.
    discriminate. }
  split; [assumption|]. split; [|split].
  - intros i v t Hv Ht. eexists. split; [apply (Hvs i v t Hv Ht)|].
    unfold animateVoxel.
    destruct (RebuildTarget.isRubble t) eqn:Hr; cbn [fst].
    { conj; try reflexivity; try discriminate. }
    destruct (elapsed <? RebuildTarget.delay t) eqn:Hd; cbn [fst].
    { conj; try reflexivity; try discriminate.
      intros _. split; [reflexivity|].
      apply (Hblock i v t Hv Ht Hr). now rewrite Hd. }
    unfold Number.gtb. change (distSq t (ease t v)) with (d2 t v).
    destruct (0.01 <? d2 t v) eqn:Hg; cbn [fst].
    + conj; try reflexivity; try discriminate.
      intros _. split.
      * conj; try reflexivity.
        apply (Hblock i v t Hv Ht Hr). now rewrite Hd, Hg.
      * intros Hlt. rewrite (ltb_asym _ _ Hlt) in Hg. discriminate.
    + conj; try reflexivity; try discriminate.
      intros _. split; [|intros _]; conj; reflexivity.
  - split.
    + intros Hs i v t Hv Ht Hr.
      destruct allDone'; [|discriminate].
      destruct Hdone as [Hdone _]. destruct (Hdone eq_refl) as [_ Hall].
      specialize (Hall i v t Hv Ht). rewrite (Hflag i v t Hv Ht Hr) in Hall.
      apply andb_true_iff in Hall as [H1 H2].
      apply negb_true_iff in H1, H2. now split.
    + intros Hall.
      assert (allDone' = true) as ->; [|reflexivity].
      apply Hdone. split; [reflexivity|].
      intros i v t Hv Ht.
      destruct (RebuildTarget.isRubble t) eqn:Hr.
      * unfold animateVoxel. now rewrite Hr.
      * rewrite (Hflag i v t Hv Ht Hr).
        destruct (Hall i v t Hv Ht Hr) as [-> ->]. reflexivity.
  - destruct allDone'; [left|right]; reflexivity.
Qed.

End Animator.

(* ------------------------------------------------------------------------- *)
(** * Colours *)
(* ------------------------------------------------------------------------- *)

Section Colours.

Local Open Scope Z_scope.

(** A property of the 256 byte values is checked on each of them. *)
Lemma byte_cases (P : Z -> bool) :
  forallb P (map Z.of_nat (seq 0 256)) = true ->
  forall k, 0 <= k < 256 -> P k = true.
Proof.
  intros H k Hk. rewrite forallb_forall in H. apply H.
  apply in_map_iff. exists (Z.to_nat k). split; [lia|].
  apply in_seq. lia.
Qed.

Lemma land_255_range (x : Z) : 0 <= Z.land x 255 < 256.
Proof.
  change 255 with (Z.ones 8). rewrite Z.land_ones by lia.
  apply Z.mod_pos_bound. lia.
Qed.

(** Every channel the constructor computes lies between 0 and 1. *)
Lemma channel_normalized (k : Z) :
  0 <= k < 256 -> normalized (Number.of_Z k / 255)%float.
Proof.
  intros Hk. apply andb_true_iff.
  revert k Hk. apply byte_cases. vm_compute. reflexivity.
Qed.

(** A channel built from a byte reads back as that byte. *)
Lemma channel_roundtrip (k : Z) :
  0 <= k < 256 ->
  Number.Math_round (THREE.clamp (Number.of_Z k / 255 * 255)%float 0 255) = k.
Proof.
  intros Hk. apply Z.eqb_eq.
  revert k Hk. apply byte_cases. vm_compute. reflexivity.
Qed.

Lemma getHex_Color_new (hex : Z) :
  validColor hex -> THREE.getHex (THREE.Color_new hex) = hex.
Proof.
  unfold validColor, THREE.getHex, THREE.Color_new. intros Hh. cbn [THREE.r THREE.g THREE.b].
  rewrite !channel_roundtrip by apply land_255_range.
  change 255 with (Z.ones 8). rewrite !Z.land_ones, !Z.shiftr_div_pow2 by lia.
  change (2 ^ 24) with 16777216 in Hh.
  change (2 ^ 16) with 65536. change (2 ^ 8) with 256.
  Z.to_euclidean_division_equations. lia.
Qed.

(** A property of two channel values is checked on the 256 values a
    channel can take. *)
Lemma channel_pair_cases (P : float -> float -> bool) :
  (let chans := map (fun k => Number.of_Z k / 255)%float (map Z.of_nat (seq 0 256)) in
   forallb (fun c1 => forallb (P c1) chans) chans) = true ->
  forall k1 k2, 0 <= k1 < 256 -> 0 <= k2 < 256 ->
    P (Number.of_Z k1 / 255)%float (Number.of_Z k2 / 255)%float = true.
Proof.
  cbv zeta. intros H k1 k2 Hk1 Hk2. rewrite forallb_forall in H.
  assert (Hin : forall k, 0 <= k < 256 ->
            In (Number.of_Z k / 255)%float
               (map (fun k => Number.of_Z k / 255)%float (map Z.of_nat (seq 0 256)))).
  { intros k Hk. apply in_map_iff. exists k. split; [reflexivity|].
    apply in_map_iff. exists (Z.to_nat k). split; [lia|]. apply in_seq. lia. }
  specialize (H _ (Hin k1 Hk1)). rewrite forallb_forall in H.
  exact (H _ (Hin k2 Hk2)).
Qed.

(** The square of a weighted channel difference is zero or positive and at
    most 1, for each of the three weights. *)
Lemma weighted_square_atMost (k1 k2 : Z) :
  0 <= k1 < 256 -> 0 <= k2 < 256 ->
  let term w := (let d := (Number.of_Z k1 / 255 - Number.of_Z k2 / 255) * w in d * d)%float in
  atMost 0 (Prim2SF (term 0.3%float))
  /\ atMost 0 (Prim2SF (term 0.59%float))
  /\ atMost 0 (Prim2SF (term 0.11%float)).
Proof.
  intros Hk1 Hk2 term. subst term. cbv beta zeta.
  assert (Hall : forall w : float,
    (let chans := map (fun k => Number.of_Z k / 255)%float (map Z.of_nat (seq 0 256)) in
     forallb (fun c1 => forallb (fun c2 =>
       (0 <=? (c1 - c2) * w * ((c1 - c2) * w))
       && ((c1 - c2) * w * ((c1 - c2) * w) <=? 1))%float chans) chans) = true ->
    atMost 0 (Prim2SF ((Number.of_Z k1 / 255 - Number.of_Z k2 / 255) * w
                       * ((Number.of_Z k1 / 255 - Number.of_Z k2 / 255) * w))%float)).
  { intros w Hw.
    pose proof (channel_pair_cases
                  (fun c1 c2 => (0 <=? (c1 - c2) * w * ((c1 - c2) * w))
                                && ((c1 - c2) * w * ((c1 - c2) * w) <=? 1))%float
                  Hw k1 k2 Hk1 Hk2) as H.
    cbv beta in H. apply andb_true_iff in H as [H0 H1].
    now apply unit_interval_atMost. }
  repeat split; apply Hall; vm_compute; reflexivity.
Qed.

(** The distance between two colours built from packed colours is below
    the initial [bestDist] of the matcher's scan. *)
Lemma getColorDist_below_sentinel (hex1 hex2 : Z) :
  (getColorDist (THREE.Color_new hex1) hex2 <? 9999)%float = true.
Proof.
  unfold getColorDist, THREE.Color_new. cbn [THREE.r THREE.g THREE.b].
  destruct (weighted_square_atMost (Z.land (Z.shiftr hex1 16) 255)
              (Z.land (Z.shiftr hex2 16) 255)
              (land_255_range _) (land_255_range _)) as (Hr & _ & _).
  destruct (weighted_square_atMost (Z.land (Z.shiftr hex1 8) 255)
              (Z.land (Z.shiftr hex2 8) 255)
              (land_255_range _) (land_255_range _)) as (_ & Hg & _).
  destruct (weighted_square_atMost (Z.land hex1 255) (Z.land hex2 255)
              (land_255_range _) (land_255_range _)) as (_ & _ & Hb).
  cbv zeta in Hr, Hg, Hb |- *.
  rewrite FloatAxioms.ltb_spec. apply atMost_below_9999.
  - apply Prim2SF_valid.
  - rewrite sqrt_spec. apply (SFsqrt_atMost 2); [lia|].
    rewrite add_spec. apply (SFadd_atMost 2); [lia| |].
    + rewrite add_spec. apply (SFadd_atMost 0); [lia| |]; assumption.
    + apply (atMost_mono 0); [lia|assumption].
Qed.

Lemma hexDigit_isHexDigit (d : Z) : isHexDigit (Number.hexDigit d).
Proof.
  unfold isHexDigit, Number.hexDigit. apply list_elem_of_In.
  destruct (nth_in_or_default (Z.to_nat d) Number.hexDigits "0"%char) as [H| ->].
  - exact H.
  - vm_compute. tauto.
Qed.

Lemma toString16_aux_hex (fuel : nat) :
  forall (n : Z) (acc : list ascii),
    Forall isHexDigit acc -> Forall isHexDigit (Number.toString16_aux fuel n acc).
Proof.
  induction fuel as [|fuel IH]; intros n acc Hacc; cbn; [assumption|].
  assert (Forall isHexDigit (Number.hexDigit (n mod 16) :: acc))
    by (constructor; [apply hexDigit_isHexDigit | assumption]).
  destruct (n / 16 =? 0); [assumption | now apply IH].
Qed.

(** [getHexString] always yields six hexadecimal digits. *)
Lemma getHexString_digits (c : THREE.Color) :
  length (THREE.getHexString c) = 6%nat
  /\ Forall isHexDigit (THREE.getHexString c).
Proof.
  unfold THREE.getHexString. split.
  - rewrite length_drop, length_app. cbn. lia.
  - apply Forall_drop, Forall_app. split.
    + repeat constructor; apply list_elem_of_In; vm_compute; tauto.
    + apply toString16_aux_hex. constructor.
Qed.

(** The integer [toFixed(2)] prints is nearest to a hundred times the
    number: for [|v| = m / 2^k] it is within one half of [100 * m / 2^k],
    and for [|v| = m * 2^e] with [e >= 0] it is [100 * m * 2^e]. *)
Lemma hundredths_nearest (m : positive) (e : Z) :
  match e with
  | Zneg k =>
      2 * (Number.hundredths m e * 2 ^ Zpos k - 100 * Zpos m) <= 2 ^ Zpos k
      /\ - 2 ^ Zpos k < 2 * (Number.hundredths m e * 2 ^ Zpos k - 100 * Zpos m)
  | _ => Number.hundredths m e = 100 * Zpos m * 2 ^ e
  end.
Proof.
  destruct e as [|k|k]; cbn [Number.hundredths]; try reflexivity.
  assert (Hp : 0 < 2 ^ Zpos k) by (apply Z.pow_pos_nonneg; lia).
  rewrite Z.pow_add_r by lia. change (2 ^ 1) with 2.
  generalize dependent (2 ^ Zpos k). intros p Hp.
  pose proof (Z.div_mod (200 * Zpos m + p) (p * 2) ltac:(lia)) as Hdm.
  pose proof (Z.mod_pos_bound (200 * Zpos m + p) (p * 2) ltac:(lia)) as Hb.
  nia.
Qed.

End Colours.


(* ------------------------------------------------------------------------- *)
(** * Voxel store: load, snapshot, serialisation *)
(* ------------------------------------------------------------------------- *)

Section Store.



End Store.

(* ------------------------------------------------------------------------- *)
(** * Reassembly matcher: the inner scan *)
(* ------------------------------------------------------------------------- *)

Section Scan.

Local Open Scope float_scope.

Lemma scan_scanFull (hex : Z) (l : list Available.t) :
  forall (i : nat) (bestDist : float) (bestIdx : option nat),
    (forall a, a ∈ l -> Available.taken a = false ->
               (getColorDist (Available.color a) hex <? 0.01) = false) ->
    scan hex l i bestDist bestIdx = scanFull hex l i bestDist bestIdx.
Proof.
  induction l as [|a l IH]; intros i bestDist bestIdx Hfar;
    cbn [scan scanFull]; [reflexivity|]. cbv zeta.
  assert (Hl : forall a', a' ∈ l -> Available.taken a' = false ->
                 (getColorDist (Available.color a') hex <? 0.01) = false)
    by (intros a' Ha'; apply Hfar; now right).
  destruct (Available.taken a) eqn:Ht; [now apply IH|].
  rewrite (Hfar a ltac:(left) Ht).
  destruct (getColorDist (Available.color a) hex <? bestDist); now apply IH.
Qed.

Lemma untakenAt_middle (pre l : list Available.t) (a a' : Available.t) :
  untakenAt (pre ++ a :: l) (length pre) a' -> a' = a /\ Available.taken a = false.
Proof.
  intros [Hl Ht]. rewrite list_lookup_middle in Hl by reflexivity.
  injection Hl as <-. split; [reflexivity | assumption].
Qed.

Lemma scanInv_below_sentinel hex available n bestDist bestIdx (d : float) :
  scanInv hex available n bestDist bestIdx ->
  (d <? bestDist) = true -> (d <? 9999) = true.
Proof.
  intros Hinv Hd. destruct bestIdx as [b|].
  - destruct (inv_some _ _ _ _ _ Hinv b eq_refl) as (a & _ & _ & _ & Hs).
    exact (ltb_trans _ _ _ Hd Hs).
  - now rewrite (inv_none _ _ _ _ _ Hinv eq_refl) in Hd.
Qed.

(** The invariant after a free entry that became the new best. *)
Lemma scanInv_improve hex (pre l : list Available.t) (a : Available.t)
    bestDist bestIdx :
  let d := getColorDist (Available.color a) hex in
  scanInv hex (pre ++ a :: l) (length pre) bestDist bestIdx ->
  Available.taken a = false ->
  (d <? bestDist) = true ->
  (d <? 0.01) = false ->
  scanInv hex (pre ++ a :: l) (S (length pre)) d (Some (length pre)).
Proof.
  intros d Hinv Ht Hd Hfar.
  assert (Hmid : untakenAt (pre ++ a :: l) (length pre) a)
    by (split; [now apply list_lookup_middle | assumption]).
  split.
  - discriminate.
  - intros b [= <-]. exists a. repeat split; try apply Hmid; try lia.
    eapply scanInv_below_sentinel; eassumption.
  - intros b j a' [= <-] Hj Hu.
    destruct (getColorDist (Available.color a') hex <=? d) eqn:Hle; [|reflexivity].
    rewrite <- (inv_all _ _ _ _ _ Hinv j a' Hj Hu).
    symmetry. exact (leb_ltb_trans _ _ _ Hle Hd).
  - intros j a' Hj Hu. destruct (decide (j = length pre)) as [->|Hne].
    + apply untakenAt_middle in Hu as [-> _]. apply ltb_irrefl.
    + destruct (getColorDist (Available.color a') hex <? d) eqn:Hlt; [|reflexivity].
      rewrite <- (inv_all _ _ _ _ _ Hinv j a' ltac:(lia) Hu).
      symmetry. exact (ltb_trans _ _ _ Hlt Hd).
  - intros j a' Hj Hu. destruct (decide (j = length pre)) as [->|Hne].
    + apply untakenAt_middle in Hu as [-> _]. exact Hfar.
    + apply (inv_far _ _ _ _ _ Hinv j a' ltac:(lia) Hu).
Qed.

(** The invariant after a free entry that is not closer than the best. *)
Lemma scanInv_keep hex (pre l : list Available.t) (a : Available.t)
    bestDist bestIdx :
  let d := getColorDist (Available.color a) hex in
  scanInv hex (pre ++ a :: l) (length pre) bestDist bestIdx ->
  Available.taken a = false ->
  (d <? bestDist) = false ->
  scanInv hex (pre ++ a :: l) (S (length pre)) bestDist bestIdx.
Proof.
  intros d Hinv Ht Hd. split.
  - apply Hinv.
  - intros b Hb. destruct (inv_some _ _ _ _ _ Hinv b Hb) as (a0 & ? & ? & ? & ?).
    exists a0. repeat split; try assumption; try apply H; lia.
  - apply Hinv.
  - intros j a' Hj Hu. destruct (decide (j = length pre)) as [->|Hne].
    + apply untakenAt_middle in Hu as [-> _]. exact Hd.
    + apply (inv_all _ _ _ _ _ Hinv j a' ltac:(lia) Hu).
  - intros j a' Hj Hu. destruct (decide (j = length pre)) as [->|Hne].
    + apply untakenAt_middle in Hu as [-> _].
      destruct (d <? 0.01) eqn:Hnear; [exfalso|exact Hnear].
      destruct bestIdx as [b|].
      * destruct (inv_some _ _ _ _ _ Hinv b eq_refl) as (a0 & Hu0 & Hb & -> & Hs).
        pose proof (ltb_total _ _ (ltb_is_nan_l _ _ Hnear) (ltb_is_nan_l _ _ Hs) Hd) as Hle.
        pose proof (leb_ltb_trans _ _ _ Hle Hnear) as Hn0.
        rewrite (inv_far _ _ _ _ _ Hinv b a0 Hb Hu0) in Hn0. discriminate.
      * rewrite (inv_none _ _ _ _ _ Hinv eq_refl) in Hd.
        assert (Hs : (0.01 <? 9999) = true) by reflexivity.
        rewrite (ltb_trans _ _ 9999 Hnear Hs) in Hd. discriminate.
    + apply (inv_far _ _ _ _ _ Hinv j a' ltac:(lia) Hu).
Qed.

(** The invariant after an entry that is taken. *)
Lemma scanInv_skip hex (pre l : list Available.t) (a : Available.t)
    bestDist bestIdx :
  scanInv hex (pre ++ a :: l) (length pre) bestDist bestIdx ->
  Available.taken a = true ->
  scanInv hex (pre ++ a :: l) (S (length pre)) bestDist bestIdx.
Proof.
  intros Hinv Ht.
  assert (Hno : forall a', ~ untakenAt (pre ++ a :: l) (length pre) a').
  { intros a' Hu. apply untakenAt_middle in Hu as [_ Hu]. congruence. }
  split.
  - apply Hinv.
  - intros b Hb. destruct (inv_some _ _ _ _ _ Hinv b Hb) as (a0 & ? & ? & ? & ?).
    exists a0. repeat split; try assumption; try apply H; lia.
  - apply Hinv.
  - intros j a' Hj Hu. destruct (decide (j = length pre)) as [->|Hne].
    + destruct (Hno a' Hu).
    + apply (inv_all _ _ _ _ _ Hinv j a' ltac:(lia) Hu).
  - intros j a' Hj Hu. destruct (decide (j = length pre)) as [->|Hne].
    + destruct (Hno a' Hu).
    + apply (inv_far _ _ _ _ _ Hinv j a' ltac:(lia) Hu).
Qed.

(** The scan from an invariant state ends in a state [scanResult]
    describes. *)
Lemma scan_scanResult (hex : Z) (l : list Available.t) :
  forall (pre : list Available.t) (bestDist : float) (bestIdx : option nat),
    scanInv hex (pre ++ l) (length pre) bestDist bestIdx ->
    scanResult hex (pre ++ l)
      (fst (scan hex l (length pre) bestDist bestIdx))
      (snd (scan hex l (length pre) bestDist bestIdx)).
Proof.
  induction l as [|a l IH]; intros pre bestDist bestIdx Hinv; cbn [scan].
  - cbn [fst snd]. unfold scanResult. destruct bestIdx as [b|].
    + destruct (inv_some _ _ _ _ _ Hinv b eq_refl) as (a & Hu & Hb & -> & Hs).
      exists a. repeat split; try apply Hu; try assumption.
      * apply (inv_earlier _ _ _ _ _ Hinv b j a' eq_refl H H0).
      * apply (inv_far _ _ _ _ _ Hinv j a'); [|assumption].
        destruct H0 as [H0 _]. apply lookup_lt_Some in H0.
        rewrite length_app in *. cbn in *. lia.
      * right. intros j a' Hu'.
        assert (j < length pre)%nat.
        { destruct Hu' as [H0 _]. apply lookup_lt_Some in H0.
          rewrite length_app in *. cbn in *. lia. }
        split; [apply (inv_all _ _ _ _ _ Hinv j a') | apply (inv_far _ _ _ _ _ Hinv j a')];
          assumption.
    + intros j a Hu. rewrite <- (inv_none _ _ _ _ _ Hinv eq_refl).
      apply (inv_all _ _ _ _ _ Hinv j a); [|assumption].
      destruct Hu as [H0 _]. apply lookup_lt_Some in H0.
      rewrite length_app in *. cbn in *. lia.
  - cbv zeta.
    assert (Happ : pre ++ a :: l = (pre ++ [a]) ++ l) by now rewrite <- app_assoc.
    assert (Hlen : S (length pre) = length (pre ++ [a]))
      by (rewrite length_app; cbn; lia).
    destruct (Available.taken a) eqn:Ht.
    { rewrite Happ, Hlen. apply IH. rewrite <- Happ, <- Hlen.
      exact (scanInv_skip hex pre l a bestDist bestIdx Hinv Ht). }
    destruct (getColorDist (Available.color a) hex <? bestDist) eqn:Hd.
    2:{ rewrite Happ, Hlen. apply IH. rewrite <- Happ, <- Hlen.
        exact (scanInv_keep hex pre l a bestDist bestIdx Hinv Ht Hd). }
    destruct (getColorDist (Available.color a) hex <? 0.01) eqn:Hnear.
    2:{ rewrite Happ, Hlen. apply IH. rewrite <- Happ, <- Hlen.
        exact (scanInv_improve hex pre l a bestDist bestIdx Hinv Ht Hd Hnear). }
    cbn [fst snd]. exists a.
    assert (Hmid : untakenAt (pre ++ a :: l) (length pre) a)
      by (split; [now apply list_lookup_middle | assumption]).
    repeat split; try apply Hmid.
    + eapply scanInv_below_sentinel; eassumption.
    + destruct (getColorDist (Available.color a') hex
                <=? getColorDist (Available.color a) hex) eqn:Hle; [|reflexivity].
      rewrite <- (inv_all _ _ _ _ _ Hinv j a' H H0).
      symmetry. exact (leb_ltb_trans _ _ _ Hle Hd).
    + apply (inv_far _ _ _ _ _ Hinv j a' H H0).
    + left. assumption.
Qed.

(** What [bestMatch] selects. *)
Lemma bestMatch_scanResult (available : list Available.t) (target : VoxelData.t) :
  scanResult (VoxelData.color target) available
    (fst (scan (VoxelData.color target) available 0 9999 None))
    (bestMatch available target).
Proof.
  apply (scan_scanResult (VoxelData.color target) available []).
  split; try discriminate; try reflexivity; cbn; intros; lia.
Qed.


End Scan.

(* ------------------------------------------------------------------------- *)
(** * Reassembly matcher: the loop over the target cells *)
(* ------------------------------------------------------------------------- *)

Section Counting.

Context {A : Type}.

Lemma countb_le (f : A -> bool) (l : list A) : countb f l <= length l.
Proof.
  unfold countb. induction l as [|x l IH]; cbn; [lia|].
  destruct (f x); cbn; lia.
Qed.

(** Below full count there is an entry that fails the test. *)
Lemma countb_lt_exists (f : A -> bool) (l : list A) :
  countb f l < length l -> exists i x, l !! i = Some x /\ f x = false.
Proof.
  unfold countb. induction l as [|x l IH]; cbn; [lia|].
  destruct (f x) eqn:Hx; cbn; intros Hlt.
  - destruct (IH ltac:(lia)) as (i & y & Hi & Hy). now exists (S i), y.
  - now exists 0, x.
Qed.

(** At full count every entry passes the test. *)
Lemma countb_full (f : A -> bool) (l : list A) :
  length l <= countb f l -> forall i x, l !! i = Some x -> f x = true.
Proof.
  unfold countb. induction l as [|x l IH]; cbn; intros Hle i y Hi; [done|].
  pose proof (countb_le f l) as Hc. unfold countb in Hc.
  destruct (f x) eqn:Hx; cbn in Hle; [|lia].
  destruct i as [|i]; cbn in Hi; [congruence|].
  apply (IH ltac:(lia) i y Hi).
Qed.

(** No entry passes the test: the count is zero. *)
Lemma countb_none (f : A -> bool) (l : list A) :
  (forall i x, l !! i = Some x -> f x = false) -> countb f l = 0.
Proof.
  unfold countb. induction l as [|x l IH]; intros Hf; cbn; [reflexivity|].
  rewrite (Hf 0 x eq_refl). apply IH. intros i y Hi. apply (Hf (S i) y Hi).
Qed.

(** Replacing an entry that fails the test by one that passes it raises
    the count by one. *)
Lemma countb_insert (f : A -> bool) (l : list A) (i : nat) (x y : A) :
  l !! i = Some x -> f x = false -> f y = true ->
  countb f (<[i := y]> l) = S (countb f l).
Proof.
  unfold countb. revert i. induction l as [|z l IH]; intros i Hi Hx Hy; [done|].
  destruct i as [|i]; cbn in Hi |- *.
  - injection Hi as ->. now rewrite Hx, Hy.
  - specialize (IH i Hi Hx Hy). destruct (f z); cbn in IH |- *; [f_equal|]; exact IH.
Qed.

(** Every entry either passes the test or fails it. *)
Lemma countb_negb (f : A -> bool) (l : list A) :
  countb f l + countb (fun x => negb (f x)) l = length l.
Proof.
  unfold countb. induction l as [|x l IH]; cbn; [reflexivity|].
  destruct (f x); cbn; lia.
Qed.

(** Two lists whose tests agree index by index have the same count. *)
Lemma countb_pointwise {B : Type} (f : A -> bool) (g : B -> bool)
    (l : list A) (k : list B) :
  length l = length k ->
  (forall i x y, l !! i = Some x -> k !! i = Some y -> f x = g y) ->
  countb f l = countb g k.
Proof.
  unfold countb. revert k. induction l as [|x l IH]; intros [|y k] Hlen Hfg;
    cbn in Hlen |- *; try lia.
  rewrite (Hfg 0 x y eq_refl eq_refl).
  pose proof (IH k ltac:(lia) (fun i => Hfg (S i))) as IH'.
  destruct (g y); cbn; lia.
Qed.

End Counting.

Section Matcher.

Local Open Scope float_scope.

Variable FLOOR_Y : float.

Lemma matchInv_initial (vs : list SimulationVoxel.t) :
  matchInv vs (initialAvailable vs, replicate (length vs) None).
Proof.
  unfold initialAvailable. split; cbn [fst snd].
  - apply length_imap.
  - apply length_replicate.
  - intros i a. rewrite list_lookup_imap.
    destruct (vs !! i); cbn; [|done]. now intros [= <-].
  - intros i a v. rewrite list_lookup_imap. intros Ha Hv. rewrite Hv in Ha.
    cbn in Ha. now injection Ha as <-.
  - intros i a Ha _. apply lookup_replicate_2.
    apply lookup_lt_Some in Ha. now rewrite length_imap in Ha.
  - intros i a. rewrite list_lookup_imap.
    destruct (vs !! i); cbn; [|done]. intros [= <-]. discriminate.
Qed.

(** One target cell: either nothing is selected and nothing changes, or
    the selected free entry is marked taken and receives the target. *)
Lemma matchTarget_step (vs : list SimulationVoxel.t)
    (st : list Available.t * list (option RebuildTarget.t))
    (target : VoxelData.t) :
  matchInv vs st ->
  match bestMatch (fst st) target with
  | None => matchTarget FLOOR_Y st target = st
  | Some b =>
      exists a,
        untakenAt (fst st) b a
        /\ matchTarget FLOOR_Y st target
           = (<[b := setTaken a]> (fst st),
              <[b := Some (matchedTarget FLOOR_Y target)]> (snd st))
  end.
Proof.
  intros Hinv. destruct st as [available mappings]. cbn [fst snd] in *.
  unfold matchTarget.
  pose proof (bestMatch_scanResult available target) as Hres.
  destruct (bestMatch available target) as [b|]; [|reflexivity].
  destruct Hres as (a & [Ha Hfree] & _). exists a.
  split; [now split|]. rewrite Ha.
  now rewrite (mi_index _ _ Hinv b a Ha).
Qed.

Lemma matchTarget_matchInv (vs : list SimulationVoxel.t)
    (st : list Available.t * list (option RebuildTarget.t))
    (target : VoxelData.t) :
  matchInv vs st -> matchInv vs (matchTarget FLOOR_Y st target).
Proof.
  intros Hinv. pose proof (matchTarget_step vs st target Hinv) as Hstep.
  destruct (bestMatch (fst st) target) as [b|]; [|now rewrite Hstep].
  destruct Hstep as (a & [Ha Hfree] & ->).
  assert (Hb : (b < length (snd st))%nat).
  { rewrite (mi_mappings _ _ Hinv), <- (mi_available _ _ Hinv).
    now apply lookup_lt_Some in Ha. }
  split; cbn [fst snd].
  - rewrite length_insert. apply Hinv.
  - rewrite length_insert. apply Hinv.
  - intros i a' Hi. apply list_lookup_insert_Some in Hi as [(<- & <- & _)|[_ Hi]].
    + apply (mi_index _ _ Hinv b a Ha).
    + apply (mi_index _ _ Hinv i a' Hi).
  - intros i a' v Hi Hv. apply list_lookup_insert_Some in Hi as [(<- & <- & _)|[_ Hi]].
    + apply (mi_color _ _ Hinv b a v Ha Hv).
    + apply (mi_color _ _ Hinv i a' v Hi Hv).
  - intros i a' Hi Ht. apply list_lookup_insert_Some in Hi as [(<- & <- & _)|[Hne Hi]].
    + discriminate.
    + rewrite list_lookup_insert_ne by assumption.
      apply (mi_free _ _ Hinv i a' Hi Ht).
  - intros i a' Hi Ht. apply list_lookup_insert_Some in Hi as [(<- & <- & _)|[Hne Hi]].
    + exists (matchedTarget FLOOR_Y target).
      split; [now apply list_lookup_insert_eq | reflexivity].
    + rewrite list_lookup_insert_ne by assumption.
      apply (mi_taken _ _ Hinv i a' Hi Ht).
Qed.

Lemma fold_matchTarget_matchInv (vs : list SimulationVoxel.t)
    (targets : list VoxelData.t) :
  forall st, matchInv vs st -> matchInv vs (fold_left (matchTarget FLOOR_Y) targets st).
Proof.
  induction targets as [|target targets IH]; intros st Hinv; cbn; [assumption|].
  apply IH, matchTarget_matchInv, Hinv.
Qed.

(** A taken entry and its mapping are never touched again. *)
Lemma matchTarget_taken_kept (vs : list SimulationVoxel.t)
    (st : list Available.t * list (option RebuildTarget.t))
    (target : VoxelData.t) (i : nat) (a : Available.t) :
  matchInv vs st ->
  fst st !! i = Some a -> Available.taken a = true ->
  fst (matchTarget FLOOR_Y st target) !! i = Some a
  /\ snd (matchTarget FLOOR_Y st target) !! i = snd st !! i.
Proof.
  intros Hinv Hi Ht. pose proof (matchTarget_step vs st target Hinv) as Hstep.
  destruct (bestMatch (fst st) target) as [b|]; [|now rewrite Hstep].
  destruct Hstep as (a' & [Ha' Hfree] & ->). cbn [fst snd].
  assert (b <> i) by (intros ->; congruence).
  now rewrite !list_lookup_insert_ne by assumption.
Qed.

Lemma fold_matchTarget_taken_kept (vs : list SimulationVoxel.t)
    (targets : list VoxelData.t) (i : nat) (a : Available.t) :
  forall st,
    matchInv vs st ->
    fst st !! i = Some a -> Available.taken a = true ->
    snd (fold_left (matchTarget FLOOR_Y) targets st) !! i = snd st !! i.
Proof.
  induction targets as [|target targets IH]; intros st Hinv Hi Ht; cbn; [reflexivity|].
  destruct (matchTarget_taken_kept vs st target i a Hinv Hi Ht) as [Hi' Hm].
  rewrite (IH _ (matchTarget_matchInv vs st target Hinv) Hi' Ht). exact Hm.
Qed.

(** Every mapping comes from one of the target cells processed. *)
Lemma fold_matchTarget_provenance (Q : RebuildTarget.t -> Prop)
    (vs : list SimulationVoxel.t) (targets : list VoxelData.t) :
  (forall target, target ∈ targets -> Q (matchedTarget FLOOR_Y target)) ->
  forall st,
    matchInv vs st ->
    (forall i t, snd st !! i = Some (Some t) -> Q t) ->
    forall i t, snd (fold_left (matchTarget FLOOR_Y) targets st) !! i = Some (Some t) -> Q t.
Proof.
  induction targets as [|target targets IH]; intros HQ st Hinv Hst; cbn; [assumption|].
  apply IH.
  - intros t Ht. apply HQ. now right.
  - now apply matchTarget_matchInv.
  - pose proof (matchTarget_step vs st target Hinv) as Hstep.
    destruct (bestMatch (fst st) target) as [b|]; [|now rewrite Hstep].
    destruct Hstep as (a & _ & ->). cbn [snd]. intros i t Hi.
    apply list_lookup_insert_Some in Hi as [(_ & [= <-] & _)|[_ Hi]].
    + apply HQ. now left.
    + now apply (Hst i t).
Qed.

(** No free entry: nothing is selected. *)
Lemma matchTarget_all_taken (vs : list SimulationVoxel.t)
    (st : list Available.t * list (option RebuildTarget.t))
    (target : VoxelData.t) :
  matchInv vs st ->
  (forall i a, fst st !! i = Some a -> Available.taken a = true) ->
  matchTarget FLOOR_Y st target = st.
Proof.
  intros Hinv Hall. pose proof (matchTarget_step vs st target Hinv) as Hstep.
  destruct (bestMatch (fst st) target) as [b|]; [|assumption].
  destruct Hstep as (a & [Ha Hfree] & _).
  rewrite (Hall b a Ha) in Hfree. discriminate.
Qed.

Lemma fold_matchTarget_all_taken (vs : list SimulationVoxel.t)
    (targets : list VoxelData.t)
    (st : list Available.t * list (option RebuildTarget.t)) :
  matchInv vs st ->
  (forall i a, fst st !! i = Some a -> Available.taken a = true) ->
  fold_left (matchTarget FLOOR_Y) targets st = st.
Proof.
  intros Hinv Hall. induction targets as [|target targets IH]; cbn; [reflexivity|].
  now rewrite (matchTarget_all_taken vs st target Hinv Hall).
Qed.

(** With a free entry left, and its distance below 9999, one is selected. *)
Lemma matchTarget_count (vs : list SimulationVoxel.t)
    (st : list Available.t * list (option RebuildTarget.t))
    (target : VoxelData.t) :
  matchInv vs st ->
  belowSentinel vs [target] ->
  countb Available.taken (fst (matchTarget FLOOR_Y st target))
  = Nat.min (S (countb Available.taken (fst st))) (length vs).
Proof.
  intros Hinv Hdist. pose proof (matchTarget_step vs st target Hinv) as Hstep.
  pose proof (bestMatch_scanResult (fst st) target) as Hres.
  pose proof (countb_le Available.taken (fst st)) as Hle.
  rewrite (mi_available _ _ Hinv) in Hle.
  destruct (bestMatch (fst st) target) as [b|].
  - destruct Hstep as (a & [Ha Hfree] & ->). cbn [fst].
    rewrite (countb_insert _ _ b a (setTaken a) Ha Hfree eq_refl).
    pose proof (countb_le Available.taken (<[b := setTaken a]> (fst st))) as Hle'.
    rewrite (countb_insert _ _ b a (setTaken a) Ha Hfree eq_refl) in Hle'.
    rewrite length_insert, (mi_available _ _ Hinv) in Hle'. lia.
  - rewrite Hstep.
    destruct (decide (countb Available.taken (fst st) < length vs)%nat) as [Hlt|]; [|lia].
    exfalso. rewrite <- (mi_available _ _ Hinv) in Hlt.
    destruct (countb_lt_exists _ _ Hlt) as (i & a & Ha & Hfree).
    assert (is_Some (vs !! i)) as [v Hv].
    { apply lookup_lt_is_Some. rewrite <- (mi_available _ _ Hinv).
      now apply lookup_lt_Some in Ha. }
    unfold scanResult in Hres. cbv beta iota zeta in Hres.
    specialize (Hres i a (conj Ha Hfree)).
    rewrite (mi_color _ _ Hinv i a v Ha Hv) in Hres.
    rewrite (Hdist v target) in Hres; [discriminate| |now left].
    eapply list_elem_of_lookup_2, Hv.
Qed.

Lemma fold_matchTarget_count (vs : list SimulationVoxel.t)
    (targets : list VoxelData.t) :
  belowSentinel vs targets ->
  forall st,
    matchInv vs st ->
    countb Available.taken (fst (fold_left (matchTarget FLOOR_Y) targets st))
    = Nat.min (countb Available.taken (fst st) + length targets) (length vs).
Proof.
  induction targets as [|target targets IH]; intros Hdist st Hinv; cbn [fold_left length].
  - pose proof (countb_le Available.taken (fst st)) as Hle.
    rewrite (mi_available _ _ Hinv) in Hle. lia.
  - rewrite IH.
    + rewrite (matchTarget_count vs); [lia|assumption|].
      intros v t Hv Ht. apply Hdist; [assumption|].
      apply list_elem_of_singleton in Ht as ->. now left.
    + intros v t Hv Ht. apply Hdist; [assumption|now right].
    + now apply matchTarget_matchInv.
Qed.

Lemma fillRubble_lookup (vs : list SimulationVoxel.t)
    (mappings : list (option RebuildTarget.t)) (i : nat) (v : SimulationVoxel.t) :
  vs !! i = Some v ->
  fillRubble vs mappings !! i
  = Some (match mappings !! i with
          | Some (Some t) => t
          | _ => rubbleTarget v
          end).
Proof. intros Hv. unfold fillRubble. now rewrite list_lookup_imap, Hv. Qed.

Lemma length_fillRubble (vs : list SimulationVoxel.t)
    (mappings : list (option RebuildTarget.t)) :
  length (fillRubble vs mappings) = length vs.
Proof. apply length_imap. Qed.

(** The non-rubble entries of the final table are the taken entries. *)
Lemma fillRubble_count (vs : list SimulationVoxel.t)
    (st : list Available.t * list (option RebuildTarget.t)) :
  matchInv vs st ->
  countb (fun t => negb (RebuildTarget.isRubble t)) (fillRubble vs (snd st))
  = countb Available.taken (fst st).
Proof.
  intros Hinv. apply countb_pointwise.
  - now rewrite length_fillRubble, (mi_available _ _ Hinv).
  - intros i t a Ht Ha.
    assert (is_Some (vs !! i)) as [v Hv].
    { apply lookup_lt_is_Some. rewrite <- (mi_available _ _ Hinv).
      now apply lookup_lt_Some in Ha. }
    rewrite (fillRubble_lookup _ _ i v Hv) in Ht. injection Ht as <-.
    destruct (Available.taken a) eqn:Htaken.
    + destruct (mi_taken _ _ Hinv i a Ha Htaken) as (t & -> & ->). reflexivity.
    + rewrite (mi_free _ _ Hinv i a Ha Htaken). reflexivity.
Qed.

Lemma countb_initialAvailable (vs : list SimulationVoxel.t) :
  countb Available.taken (initialAvailable vs) = 0%nat.
Proof.
  apply countb_none. intros i a. unfold initialAvailable.
  rewrite list_lookup_imap. destruct (vs !! i); cbn; [|done]. now intros [= <-].
Qed.

(** With a free entry left, and its distance below 9999, a voxel is
    selected. *)
Lemma bestMatch_is_Some (vs : list SimulationVoxel.t)
    (st : list Available.t * list (option RebuildTarget.t))
    (target : VoxelData.t) :
  matchInv vs st ->
  belowSentinel vs [target] ->
  (countb Available.taken (fst st) < length vs)%nat ->
  is_Some (bestMatch (fst st) target).
Proof.
  intros Hinv Hdist Hlt.
  pose proof (bestMatch_scanResult (fst st) target) as Hres.
  destruct (bestMatch (fst st) target) as [b|]; [now exists b|exfalso].
  rewrite <- (mi_available _ _ Hinv) in Hlt.
  destruct (countb_lt_exists _ _ Hlt) as (i & a & Ha & Hfree).
  assert (is_Some (vs !! i)) as [v Hv].
  { apply lookup_lt_is_Some. rewrite <- (mi_available _ _ Hinv).
    now apply lookup_lt_Some in Ha. }
  unfold scanResult in Hres. cbv beta iota zeta in Hres.
  specialize (Hres i a (conj Ha Hfree)).
  rewrite (mi_color _ _ Hinv i a v Ha Hv) in Hres.
  rewrite (Hdist v target) in Hres; [discriminate| |now left].
  eapply list_elem_of_lookup_2, Hv.
Qed.

(** A tick outside Dismantling, the table having one entry per voxel,
    succeeds, keeps the table and leaves every rubble voxel as it is. *)
Lemma updatePhysics_rubble_kept (now : float) (e : VoxelEngine) :
  state e <> DISMANTLING ->
  length (rebuildTargets e) = length (voxels e) ->
  exists e',
    updatePhysics FLOOR_Y now e = Some e'
    /\ state e' <> DISMANTLING
    /\ rebuildTargets e' = rebuildTargets e
    /\ length (voxels e') = length (voxels e)
    /\ forall i t, rebuildTargets e !! i = Some t ->
         RebuildTarget.isRubble t = true ->
         voxels e' !! i = voxels e !! i.
Proof.
  intros Hst Hlen. unfold updatePhysics.
  destruct (state e) eqn:Hs; [|contradiction|].
  - exists e. rewrite Hs. repeat split; done.
  - destruct (animateVoxels_spec (rebuildTargets e) (now - rebuildStartTime e)
                (voxels e) 0 true ltac:(cbn; lia))
      as (vs' & allDone' & -> & Hl & Hvs & _).
    eexists. split; [reflexivity|]. cbn [state rebuildTargets voxels].
    split; [destruct allDone'; discriminate|]. split; [reflexivity|].
    split; [assumption|].
    intros i t Ht Hr.
    assert (is_Some (voxels e !! i)) as [v Hv].
    { apply lookup_lt_is_Some. rewrite <- Hlen. now apply lookup_lt_Some in Ht. }
    rewrite (Hvs i v t Hv Ht), Hv. unfold animateVoxel. now rewrite Hr.
Qed.

Lemma runTicks_rubble_kept (nows : list float) :
  forall e : VoxelEngine,
    state e <> DISMANTLING ->
    length (rebuildTargets e) = length (voxels e) ->
    exists e',
      runTicks FLOOR_Y nows e = Some e'
      /\ forall i t, rebuildTargets e !! i = Some t ->
           RebuildTarget.isRubble t = true ->
           voxels e' !! i = voxels e !! i.
Proof.
  induction nows as [|now nows IH]; intros e Hst Hlen; cbn [runTicks].
  - exists e. split; [reflexivity|]. reflexivity.
  - destruct (updatePhysics_rubble_kept now e Hst Hlen)
      as (e1 & -> & Hst1 & Htab & Hl1 & Hkept).
    destruct (IH e1 Hst1 ltac:(congruence)) as (e2 & -> & Hkept2).
    exists e2. split; [reflexivity|].
    intros i t Ht Hr. rewrite (Hkept2 i t) by congruence. now apply (Hkept i t).
Qed.

(** An accepted [rebuild] stores the table the matcher and the rubble loop
    compute. *)
Lemma rebuild_accepted (now : float) (e : VoxelEngine)
    (targetModel : list VoxelData.t) :
  state e <> REBUILDING ->
  rebuild FLOOR_Y now e targetModel
  = {| voxels := voxels e;
       rebuildTargets :=
         fillRubble (voxels e) (snd (matchAll FLOOR_Y (voxels e) targetModel));
       rebuildStartTime := now;
       state := REBUILDING;
       notified := notified e ++ [StateChange REBUILDING] |}.
Proof.
  intros Hst. unfold rebuild.
  destruct (decide (state e = REBUILDING)); [contradiction | reflexivity].
Qed.

(** The voxel a target cell selects keeps that cell as its target in the
    final table. *)
Lemma rebuild_selected_entry (now : float) (e : VoxelEngine)
    (targetModel : list VoxelData.t) (k : nat) (target : VoxelData.t) (b : nat) :
  state e <> REBUILDING ->
  targetModel !! k = Some target ->
  bestMatch (fst (fold_left (matchTarget FLOOR_Y) (take k targetModel)
                    (initialAvailable (voxels e),
                     replicate (length (voxels e)) None))) target = Some b ->
  rebuildTargets (rebuild FLOOR_Y now e targetModel) !! b
  = Some (matchedTarget FLOOR_Y target).
Proof.
  intros Hst Hk Hbest.
  set (init := (initialAvailable (voxels e),
                replicate (length (voxels e)) (@None RebuildTarget.t))) in *.
  set (st := fold_left (matchTarget FLOOR_Y) (take k targetModel) init) in *.
  assert (Hinv : matchInv (voxels e) st)
    by apply fold_matchTarget_matchInv, matchInv_initial.
  pose proof (matchTarget_step (voxels e) st target Hinv) as Hstep.
  rewrite Hbest in Hstep. destruct Hstep as (a & [Ha Hfree] & Hstep).
  assert (Hb : (b < length (voxels e))%nat).
  { rewrite <- (mi_available _ _ Hinv). now apply lookup_lt_Some in Ha. }
  destruct (lookup_lt_is_Some_2 _ _ Hb) as [v Hv].
  rewrite (rebuild_accepted now e targetModel Hst). cbn [rebuildTargets].
  rewrite (fillRubble_lookup _ _ b v Hv).
  unfold matchAll. fold init.
  rewrite <- (take_drop_middle targetModel k target Hk), fold_left_app.
  cbn [fold_left]. fold st. rewrite Hstep.
  rewrite (fold_matchTarget_taken_kept (voxels e) _ b (setTaken a)).
  - cbn [snd]. rewrite list_lookup_insert_eq; [reflexivity|].
    rewrite (mi_mappings _ _ Hinv). exact Hb.
  - rewrite <- Hstep. now apply matchTarget_matchInv.
  - cbn [fst]. apply list_lookup_insert_eq. now apply lookup_lt_Some in Ha.
  - reflexivity.
Qed.


(** The counts of an accepted [rebuild] whose colour distances are all
    below the initial [bestDist]. *)
Lemma rebuild_counts (now : float) (e : VoxelEngine)
    (targetModel : list VoxelData.t) :
  state e <> REBUILDING ->
  belowSentinel (voxels e) targetModel ->
  let e' := rebuild FLOOR_Y now e targetModel in
  let n := length (voxels e) in
  let nonRubble := countb (fun t => negb (RebuildTarget.isRubble t)) in
  length (rebuildTargets e') = n
  /\ (forall nows, is_Some (runTicks FLOOR_Y nows e'))
  /\ ((length targetModel <= n)%nat ->
      nonRubble (rebuildTargets e') = length targetModel
      /\ forall i t nows e2,
           rebuildTargets e' !! i = Some t ->
           RebuildTarget.isRubble t = true ->
           runTicks FLOOR_Y nows e' = Some e2 ->
           voxels e2 !! i = voxels e !! i)
  /\ ((n < length targetModel)%nat ->
      nonRubble (rebuildTargets e') = n
      /\ Forall (fun t => RebuildTarget.isRubble t = false) (rebuildTargets e')
      /\ e' = rebuild FLOOR_Y now e (take n targetModel)
      /\ (forall k target, (k < n)%nat -> targetModel !! k = Some target ->
            exists b, rebuildTargets e' !! b = Some (matchedTarget FLOOR_Y target))
      /\ (forall b t, rebuildTargets e' !! b = Some t ->
            exists k target, (k < n)%nat /\ targetModel !! k = Some target
                             /\ t = matchedTarget FLOOR_Y target)).
Proof.
  intros Hst Hdist e' n nonRubble.
  pose proof (matchInv_initial (voxels e)) as Hinit.
  assert (Hinv : matchInv (voxels e) (matchAll FLOOR_Y (voxels e) targetModel))
    by apply fold_matchTarget_matchInv, Hinit.
  assert (He' : e' = rebuild FLOOR_Y now e targetModel) by reflexivity.
  rewrite (rebuild_accepted now e targetModel Hst) in He'.
  assert (Htab : rebuildTargets e'
                 = fillRubble (voxels e) (snd (matchAll FLOOR_Y (voxels e) targetModel)))
    by now rewrite He'.
  assert (Hvox : voxels e' = voxels e) by now rewrite He'.
  assert (Hlen : length (rebuildTargets e') = n)
    by (rewrite Htab; apply length_fillRubble).
  assert (Hnd : state e' <> DISMANTLING) by now rewrite He'.
  assert (Hcount : nonRubble (rebuildTargets e') = Nat.min (length targetModel) n).
  { unfold nonRubble. rewrite Htab, (fillRubble_count _ _ Hinv).
    unfold matchAll. rewrite (fold_matchTarget_count _ _ Hdist _ Hinit).
    cbn [fst]. now rewrite countb_initialAvailable. }
  split; [assumption|]. split.
  { intros nows.
    destruct (runTicks_rubble_kept nows e' Hnd ltac:(rewrite Hlen, Hvox; reflexivity))
      as (e2 & -> & _). now exists e2. }
  split.
  - intros Hle. split; [rewrite Hcount; lia|].
    intros i t nows e2 Ht Hr Hrun.
    destruct (runTicks_rubble_kept nows e' Hnd ltac:(rewrite Hlen, Hvox; reflexivity))
      as (e2' & Hrun' & Hkept).
    rewrite Hrun in Hrun'. injection Hrun' as <-.
    rewrite (Hkept i t Ht Hr). now rewrite Hvox.
  - intros Hlt.
    assert (Hn : nonRubble (rebuildTargets e') = n) by (rewrite Hcount; lia).
    assert (Hall : Forall (fun t => RebuildTarget.isRubble t = false) (rebuildTargets e')).
    { apply Forall_lookup. intros i t Ht.
      pose proof (countb_full (fun t => negb (RebuildTarget.isRubble t))
                    (rebuildTargets e') ltac:(fold nonRubble; lia) i t Ht) as Hneg.
      now apply negb_true_iff in Hneg. }
    assert (Htake : matchAll FLOOR_Y (voxels e) targetModel
                    = matchAll FLOOR_Y (voxels e) (take n targetModel)).
    { unfold matchAll.
      rewrite <- (take_drop n targetModel) at 1. rewrite fold_left_app.
      apply fold_matchTarget_all_taken with (vs := voxels e).
      - apply fold_matchTarget_matchInv, Hinit.
      - apply countb_full.
        rewrite (mi_available _ _ (fold_matchTarget_matchInv (voxels e)
                                     (take n targetModel) _ Hinit)).
        assert (Hsub : belowSentinel (voxels e) (take n targetModel)).
        { intros v t Hv Ht. apply Hdist; [assumption|].
          apply elem_of_take in Ht as (i & Hi & _).
          eapply list_elem_of_lookup_2, Hi. }
        rewrite (fold_matchTarget_count _ _ Hsub _ Hinit).
        cbn [fst]. rewrite countb_initialAvailable, length_take. fold n. lia. }
    assert (Hprov : forall b t, rebuildTargets e' !! b = Some t ->
              exists k target, (k < n)%nat /\ targetModel !! k = Some target
                               /\ t = matchedTarget FLOOR_Y target).
    { intros b t Ht.
      pose proof (proj1 (Forall_lookup _ _) Hall b t Ht) as Hr.
      assert (is_Some (voxels e !! b)) as [v Hv].
      { apply lookup_lt_is_Some. fold n. rewrite <- Hlen.
        now apply lookup_lt_Some in Ht. }
      rewrite Htab, Htake, (fillRubble_lookup _ _ b v Hv) in Ht.
      destruct (snd (matchAll FLOOR_Y (voxels e) (take n targetModel)) !! b)
        as [[t'|]|] eqn:Hm; injection Ht as <-; try discriminate.
      apply (fold_matchTarget_provenance
               (fun t => exists k target, (k < n)%nat /\ targetModel !! k = Some target
                                          /\ t = matchedTarget FLOOR_Y target)
               (voxels e) (take n targetModel)) with (i := b) (st := (initialAvailable (voxels e), replicate (length (voxels e)) None)).
      - intros target Ht. apply elem_of_take in Ht as (k & Hk & Hkn).
        now exists k, target.
      - exact Hinit.
      - cbn [snd]. intros i t Hi. apply lookup_replicate_1 in Hi as [? _]. discriminate.
      - exact Hm. }
    split; [assumption|]. split; [assumption|]. split; [|split; [|assumption]].
    + unfold e'. rewrite !rebuild_accepted by assumption. now rewrite Htake.
    + intros k target Hkn Hk.
      set (st := fold_left (matchTarget FLOOR_Y) (take k targetModel)
                   (initialAvailable (voxels e), replicate (length (voxels e)) None)).
      assert (Hinvk : matchInv (voxels e) st)
        by apply fold_matchTarget_matchInv, Hinit.
      assert (Hsub : belowSentinel (voxels e) (take k targetModel)).
      { intros v t Hv Ht. apply Hdist; [assumption|].
        apply elem_of_take in Ht as (i & Hi & _). eapply list_elem_of_lookup_2, Hi. }
      destruct (bestMatch_is_Some (voxels e) st target Hinvk) as [b Hb].
      * intros v t Hv Ht. apply list_elem_of_singleton in Ht as ->.
        apply Hdist; [assumption|]. eapply list_elem_of_lookup_2, Hk.
      * unfold st. rewrite (fold_matchTarget_count _ _ Hsub _ Hinit).
        cbn [fst]. rewrite countb_initialAvailable, length_take. fold n. lia.
      * exists b. apply (rebuild_selected_entry now e targetModel k target b Hst Hk Hb).
Qed.

End Matcher.

(* ------------------------------------------------------------------------- *)
(** * Invariants of the reachable engine states *)
(* ------------------------------------------------------------------------- *)

Section Reachable.

Local Open Scope float_scope.

Variable FLOOR_Y : float.

Lemma createVoxels_coloursBuilt (data : list VoxelData.t) :
  coloursBuilt (createVoxels data).
Proof.
  unfold coloursBuilt, createVoxels. apply Forall_lookup. intros i v.
  rewrite list_lookup_imap. destruct (data !! i) as [d|]; cbn; [|done].
  intros [= <-]. now exists (VoxelData.color d).
Qed.

Lemma seedVelocities_coloursBuilt (random : nat -> float) (vs : list SimulationVoxel.t) :
  forall k, coloursBuilt vs -> coloursBuilt (seedVelocities random k vs).
Proof.
  unfold coloursBuilt. induction vs as [|v vs IH]; intros k Hvs; cbn; [constructor|].
  apply Forall_cons in Hvs as [Hv Hvs]. constructor; [exact Hv | now apply IH].
Qed.

Lemma physicsStep_color (v : SimulationVoxel.t) :
  SimulationVoxel.color (physicsStep FLOOR_Y v) = SimulationVoxel.color v.
Proof.
  unfold physicsStep.
  destruct (SimulationVoxel.y v + (SimulationVoxel.vy v - 0.025) <? FLOOR_Y + 0.5);
    reflexivity.
Qed.

Lemma animateVoxel_color (elapsed : float) (t : RebuildTarget.t)
    (v : SimulationVoxel.t) (allDone : bool) :
  SimulationVoxel.color (fst (animateVoxel elapsed t v allDone))
  = SimulationVoxel.color v.
Proof.
  unfold animateVoxel.
  destruct (RebuildTarget.isRubble t), (elapsed <? RebuildTarget.delay t),
    (Number.gtb (distSq t (ease t v)) 0.01); reflexivity.
Qed.

(** The animator's loop, when it does not throw, keeps the number of voxels
    and their colours. *)
Lemma animateVoxels_kept (targets : list RebuildTarget.t) (elapsed : float)
    (vs : list SimulationVoxel.t) :
  forall i allDone vs' allDone',
    animateVoxels targets elapsed i vs allDone = Some (vs', allDone') ->
    length vs' = length vs /\ (coloursBuilt vs -> coloursBuilt vs').
Proof.
  unfold coloursBuilt.
  induction vs as [|v vs IH]; intros i allDone vs' allDone' H; cbn in H.
  - injection H as <- <-. split; [reflexivity | constructor].
  - destruct (targets !! i) as [t|]; [|discriminate].
    pose proof (animateVoxel_color elapsed t v allDone) as Hc.
    destruct (animateVoxel elapsed t v allDone) as [v1 allDone1]. cbn [fst] in Hc.
    destruct (animateVoxels targets elapsed (S i) vs allDone1) as [[vs1 allDone2]|] eqn:Hrest;
      [|discriminate].
    injection H as <- <-. destruct (IH _ _ _ _ Hrest) as [Hlen Hcol].
    split; [cbn; lia|]. intros Hvs. apply Forall_cons in Hvs as [[hex Hv] Hvs].
    constructor; [exists hex; congruence | now apply Hcol].
Qed.

(** Every reachable engine holds voxels whose colours were built from
    packed colours and, while it is Rebuilding, a table with one entry per
    voxel. *)
Lemma reachable_invariant (e : VoxelEngine) :
  reachable FLOOR_Y e ->
  coloursBuilt (voxels e)
  /\ (state e = REBUILDING -> length (rebuildTargets e) = length (voxels e)).
Proof.
  induction 1 as [|e data _ [IHc IHt]|e random _ [IHc IHt]
                  |e now targetModel _ [IHc IHt]|e now e' _ [IHc IHt] Hup].
  - split; [constructor | discriminate].
  - split; [apply createVoxels_coloursBuilt | discriminate].
  - unfold dismantle. destruct (decide (state e = STABLE)); [|now split].
    split; [now apply seedVelocities_coloursBuilt | discriminate].
  - unfold rebuild. destruct (decide (state e = REBUILDING)); [now split|].
    split; [exact IHc|]. intros _. apply length_fillRubble.
  - unfold updatePhysics in Hup. destruct (state e) eqn:Hs.
    + injection Hup as <-. rewrite Hs. now split.
    + injection Hup as <-. cbn [voxels state]. split; [|discriminate].
      unfold coloursBuilt in *. apply Forall_fmap.
      eapply Forall_impl; [exact IHc|]. intros v [hex Hv]. exists hex.
      cbn. now rewrite physicsStep_color.
    + destruct (animateVoxels (rebuildTargets e) (now - rebuildStartTime e) 0
                  (voxels e) true) as [[vs allDone]|] eqn:Ha; [|discriminate].
      injection Hup as <-. cbn [voxels state rebuildTargets].
      destruct (animateVoxels_kept _ _ _ _ _ _ _ Ha) as [Hlen Hcol].
      split; [now apply Hcol|]. intros _. rewrite Hlen. now apply IHt.
Qed.

(** Colours built from packed colours are closer to every target colour
    than the initial [bestDist]. *)
Lemma coloursBuilt_belowSentinel (vs : list SimulationVoxel.t)
    (targets : list VoxelData.t) :
  coloursBuilt vs -> belowSentinel vs targets.
Proof.
  intros Hvs v target Hv _.
  destruct (proj1 (Forall_forall _ _) Hvs v Hv) as [hex ->].
  apply getColorDist_below_sentinel.
Qed.


(** C3. For every accepted [rebuild(T)] on a reachable engine with [n]
    voxels: the table has one entry per voxel and the ticks that follow
    never throw.  If [T] has no more than [n] cells, exactly [|T|] entries
    are non-rubble and the other [n - |T|] are rubble, and a voxel whose
    entry is rubble is, after any run of ticks, the voxel it was at the
    call.  If [T] has more than [n] cells, all [n] entries are non-rubble
    (no rubble), the engine is the one the call with only the first [n]
    cells of [T] yields, each of these first [n] cells is the target of some
    voxel, and every voxel's target is one of these first [n] cells. *)
Theorem C3_rubble_and_dropped_targets (now : float) (e : VoxelEngine)
    (targetModel : list VoxelData.t) :
  reachable FLOOR_Y e ->
  state e <> REBUILDING ->
  let e' := rebuild FLOOR_Y now e targetModel in
  let n := length (voxels e) in
  let nonRubble := countb (fun t => negb (RebuildTarget.isRubble t)) in
  length (rebuildTargets e') = n
  /\ (forall nows, is_Some (runTicks FLOOR_Y nows e'))
  /\ ((length targetModel <= n)%nat ->
      nonRubble (rebuildTargets e') = length targetModel
      /\ countb RebuildTarget.isRubble (rebuildTargets e')
         = (n - length targetModel)%nat
      /\ forall i t nows e2,
           rebuildTargets e' !! i = Some t ->
           RebuildTarget.isRubble t = true ->
           runTicks FLOOR_Y nows e' = Some e2 ->
           voxels e2 !! i = voxels e !! i)
  /\ ((n < length targetModel)%nat ->
      nonRubble (rebuildTargets e') = n
      /\ Forall (fun t => RebuildTarget.isRubble t = false) (rebuildTargets e')
      /\ e' = rebuild FLOOR_Y now e (take n targetModel)
      /\ (forall k target, (k < n)%nat -> targetModel !! k = Some target ->
            exists b, rebuildTargets e' !! b = Some (matchedTarget FLOOR_Y target))
      /\ (forall b t, rebuildTargets e' !! b = Some t ->
            exists k target, (k < n)%nat /\ targetModel !! k = Some target
                             /\ t = matchedTarget FLOOR_Y target)).
Proof.
  intros Hreach Hst e' n nonRubble.
  destruct (reachable_invariant e Hreach) as [Hcol _].
  destruct (rebuild_counts FLOOR_Y now e targetModel Hst
              (coloursBuilt_belowSentinel _ _ Hcol))
    as (Hlen & Hticks & Hfew & Hmany).
  fold e' in Hlen, Hticks, Hfew, Hmany. fold n in Hlen, Hfew, Hmany.
  fold nonRubble in Hfew, Hmany.
  split; [exact Hlen|]. split; [exact Hticks|]. split; [|exact Hmany].
  intros Hle. destruct (Hfew Hle) as [Hcount Hkept].
  split; [exact Hcount|]. split; [|exact Hkept].
  pose proof (countb_negb RebuildTarget.isRubble (rebuildTargets e')) as Hsum.
  fold nonRubble in Hsum. lia.
Qed.

End Reachable.

(* ------------------------------------------------------------------------- *)
(** * The statements at sample engines *)
(* ------------------------------------------------------------------------- *)

Section Samples.

Local Open Scope float_scope.




Lemma C3_witness :
  reachable sampleFloor rgbDismantled
  /\ state rgbDismantled <> REBUILDING
  /\ countb (fun t => negb (RebuildTarget.isRubble t))
       (rebuildTargets (rebuild sampleFloor 1000 rgbDismantled (take 2 rgbTarget)))
     = 2%nat.
Proof.
  assert (H1 : reachable sampleFloor rgbDismantled)
    by apply reachable_dismantle, reachable_load, reachable_new.
  assert (H2 : state rgbDismantled <> REBUILDING) by (vm_compute; discriminate).
  split; [exact H1|]. split; [exact H2|].
  destruct (C3_rubble_and_dropped_targets sampleFloor 1000 rgbDismantled
              (take 2 rgbTarget) H1 H2) as (_ & _ & Hfew & _).
  apply Hfew. vm_compute. lia.
Defined.

Lemma C4_witness :
  state rgbDismantled = DISMANTLING
  /\ exists e', updatePhysics sampleFloor 0 rgbDismantled = Some e'
                /\ state e' = DISMANTLING
                /\ length (voxels e') = length (voxels rgbDismantled).
Proof.
  assert (H1 : state rgbDismantled = DISMANTLING) by reflexivity.
  split; [exact H1|].
  destruct (C4_dismantling_tick sampleFloor 0 rgbDismantled H1)
    as (e' & Hup & Hst & Hlen & _).
  exists e'. auto.
Defined.

Lemma C5_witness :
  state rgbDismantled <> STABLE
  /\ dismantle sampleRandom rgbDismantled = rgbDismantled
  /\ state rgbRebuilding = REBUILDING
  /\ rebuild sampleFloor 2000 rgbRebuilding rgbModel = rgbRebuilding
  /\ state rgbLoaded = STABLE
  /\ state (dismantle sampleRandom rgbLoaded) = DISMANTLING.
Proof.
  assert (H1 : state rgbDismantled <> STABLE) by (vm_compute; discriminate).
  assert (H2 : state rgbRebuilding = REBUILDING) by reflexivity.
  assert (H3 : state rgbLoaded = STABLE) by reflexivity.
  split; [exact H1|]. split.
  { apply (C5_illegal_transitions_are_noops sampleFloor sampleRandom 0
             rgbDismantled []), H1. }
  split; [exact H2|]. split.
  { apply (C5_illegal_transitions_are_noops sampleFloor sampleRandom 2000
             rgbRebuilding rgbModel), H2. }
  split; [exact H3|].
  apply (C5_illegal_transitions_are_noops sampleFloor sampleRandom 0 rgbLoaded []), H3.
Defined.



(** The claim C10 as stated fails: a voxel loaded with a vertical coordinate
    that is [NaN] still has it after a tick in state Dismantling, and [NaN]
    is not at least [FLOOR_Y + 0.5]. *)
Lemma C10_counterexample :
  let e := dismantle sampleRandom (loadInitialModel emptyEngine nanModel) in
  state e = DISMANTLING
  /\ exists e' v',
       updatePhysics sampleFloor 0 e = Some e'
       /\ voxels e' !! 0%nat = Some v'
       /\ (sampleFloor + 0.5 <=? SimulationVoxel.y v') = false.
Proof.
  split; [reflexivity|]. eexists _, _.
  split; [vm_compute; reflexivity|]. split; reflexivity.
Qed.

Lemma C10_witness :
  state rgbDismantled = DISMANTLING
  /\ is_nan (sampleFloor + 0.5) = false
  /\ exists e' v v',
       updatePhysics sampleFloor 0 rgbDismantled = Some e'
       /\ voxels rgbDismantled !! 0%nat = Some v
       /\ voxels e' !! 0%nat = Some v'
       /\ is_nan (SimulationVoxel.y v + (SimulationVoxel.vy v - 0.025)) = false
       /\ (sampleFloor + 0.5 <=? SimulationVoxel.y v') = true.
Proof.
  assert (H1 : state rgbDismantled = DISMANTLING) by reflexivity.
  assert (H2 : is_nan (sampleFloor + 0.5) = false) by reflexivity.
  split; [exact H1|]. split; [exact H2|].
  eexists _, _, _.
  assert (H3 : updatePhysics sampleFloor 0 rgbDismantled
               = Some (mkEngine (map (physicsStep sampleFloor) (voxels rgbDismantled))
                                (rebuildTargets rgbDismantled)
                                (rebuildStartTime rgbDismantled) DISMANTLING
                                (notified rgbDismantled))) by reflexivity.
  split; [exact H3|].
  assert (H4 : voxels rgbDismantled !! 0%nat
               = Some (SimulationVoxel.mk 0 0 0 0 (THREE.Color_new 0xff0000)
                         ((0.75 - 0.5) * 0.8) (0.25 * 0.5) ((0.75 - 0.5) * 0.8)
                         0 0 0
                         ((0.25 - 0.5) * 0.2) ((0.75 - 0.5) * 0.2) ((0.25 - 0.5) * 0.2)))
    by reflexivity.
  split; [exact H4|].
  assert (H5 : forall v', v' = physicsStep sampleFloor
                 (SimulationVoxel.mk 0 0 0 0 (THREE.Color_new 0xff0000)
                    ((0.75 - 0.5) * 0.8) (0.25 * 0.5) ((0.75 - 0.5) * 0.8)
                    0 0 0
                    ((0.25 - 0.5) * 0.2) ((0.75 - 0.5) * 0.2) ((0.25 - 0.5) * 0.2)) ->
               voxels (mkEngine (map (physicsStep sampleFloor) (voxels rgbDismantled))
                                (rebuildTargets rgbDismantled)
                                (rebuildStartTime rgbDismantled) DISMANTLING
                                (notified rgbDismantled)) !! 0%nat = Some v')
    by (intros v' ->; reflexivity).
  split; [exact (H5 _ eq_refl)|].
  assert (H6 : is_nan (0 + (0.25 * 0.5 - 0.025)) = false) by reflexivity.
  split; [exact H6|].
  exact (C10_floor_bound_after_tick sampleFloor 0 rgbDismantled _ 0 _ _
           H1 H2 H3 H4 (H5 _ eq_refl) H6).
Defined.

End Samples.

Example of_Z_255 : Number.of_Z 255 = 255%float.
Proof. reflexivity. Qed.

Example toFixed2_samples :
  map Number.toFixed2 [1.005; 0.125; -0.001; 2.5; -7.126; 1e21; 12345.678]%float
  = [1; 0.13; -0; 2.5; -7.13; 1e21; 12345.68]%float.
Proof. vm_compute. reflexivity. Qed.

Example getHexString_sample :
  THREE.getHexString (THREE.Color_new 0x00ff7f) = list_ascii_of_string "00ff7f".
Proof. vm_compute. reflexivity. Qed.

(** The scenario of section 8 of the specification: voxels red, green and
    blue at (0,0,0), (1,0,0) and (2,0,0), scattered, then rebuilt into red,
    blue, green at the same cells.  Every voxel goes to the cell of its own
    colour with no delay, and after enough ticks the voxels sit exactly on
    their cells and the state is Stable again. *)
Example rgb_rebuild_settles :
  let target := [VoxelData.mk 0 0 0 0xff0000; VoxelData.mk 1 0 0 0x0000ff;
                 VoxelData.mk 2 0 0 0x00ff00]%float in
  let e := rebuild sampleFloor 1000 rgbDismantled target in
  map RebuildTarget.delay (rebuildTargets e) = [0; 0; 0]%float
  /\ match runTicks sampleFloor (repeat 2000%float 80) e with
     | Some e' =>
         state e' = STABLE
         /\ map (fun v => (SimulationVoxel.x v, SimulationVoxel.y v, SimulationVoxel.z v))
                (voxels e')
            = [(0, 0, 0); (2, 0, 0); (1, 0, 0)]%float
     | None => False
     end.
Proof. vm_compute. repeat split; reflexivity. Qed.

(* ------------------------------------------------------------------------- *)
(** * Equality of binary64 numbers *)
(* ------------------------------------------------------------------------- *)

Section FloatEquality.

Local Open Scope float_scope.

(** A number that is not [NaN] equals itself. *)
Lemma eqb_refl (a : float) : is_nan a = false -> (a =? a) = true.
Proof. unfold is_nan. now destruct (a =? a). Qed.

(** [NaN] equals nothing. *)
Lemma eqb_is_nan_l (a b : float) : (a =? b) = true -> is_nan a = false.
Proof.
  unfold is_nan. rewrite !FloatAxioms.eqb_spec. unfold SFeqb, SFcompare.
  destruct (Prim2SF a) as [[]|[]| |[] ? ?], (Prim2SF b) as [[]|[]| |[] ? ?];
    try (simpl; congruence); intros _;
    rewrite ?Z.compare_refl, ?Pos.compare_cont_refl, ?Pos.compare_refl; reflexivity.
Qed.

Lemma eqb_is_nan_r (a b : float) : (a =? b) = true -> is_nan b = false.
Proof.
  unfold is_nan. rewrite !FloatAxioms.eqb_spec. unfold SFeqb, SFcompare.
  destruct (Prim2SF a) as [[]|[]| |[] ? ?], (Prim2SF b) as [[]|[]| |[] ? ?];
    try (simpl; congruence); intros _;
    rewrite ?Z.compare_refl, ?Pos.compare_cont_refl, ?Pos.compare_refl; reflexivity.
Qed.

End FloatEquality.

(* ------------------------------------------------------------------------- *)
(** * Packed colours beyond 24 bits *)
(* ------------------------------------------------------------------------- *)

Section PackedColours.

Local Open Scope Z_scope.

Lemma getHex_Color_new_low24 (hex : Z) :
  THREE.getHex (THREE.Color_new hex) = hex mod 2 ^ 24.
Proof.
  unfold THREE.getHex, THREE.Color_new. cbn [THREE.r THREE.g THREE.b].
  rewrite !channel_roundtrip by apply land_255_range.
  change 255 with (Z.ones 8). rewrite !Z.land_ones, !Z.shiftr_div_pow2 by lia.
  change (2 ^ 24) with 16777216. change (2 ^ 16) with 65536. change (2 ^ 8) with 256.
  Z.to_euclidean_division_equations. lia.
Qed.

Lemma Color_new_low24 (hex : Z) :
  THREE.Color_new (hex mod 2 ^ 24) = THREE.Color_new hex.
Proof.
  unfold THREE.Color_new.
  assert (H16 : Z.land (Z.shiftr (hex mod 2 ^ 24) 16) 255 = Z.land (Z.shiftr hex 16) 255).
  { change 255 with (Z.ones 8). rewrite !Z.land_ones, !Z.shiftr_div_pow2 by lia.
    change (2 ^ 24) with 16777216. change (2 ^ 16) with 65536. change (2 ^ 8) with 256.
    Z.to_euclidean_division_equations. lia. }
  assert (H8 : Z.land (Z.shiftr (hex mod 2 ^ 24) 8) 255 = Z.land (Z.shiftr hex 8) 255).
  { change 255 with (Z.ones 8). rewrite !Z.land_ones, !Z.shiftr_div_pow2 by lia.
    change (2 ^ 24) with 16777216. change (2 ^ 8) with 256.
    Z.to_euclidean_division_equations. lia. }
  assert (H0 : Z.land (hex mod 2 ^ 24) 255 = Z.land hex 255).
  { change 255 with (Z.ones 8). rewrite !Z.land_ones by lia.
    change (2 ^ 24) with 16777216. change (2 ^ 8) with 256.
    Z.to_euclidean_division_equations. lia. }
  now rewrite H16, H8, H0.
Qed.

(** A colour built from a packed colour is rebuilt from what it reads back
    as. *)
Lemma Color_new_getHex (c : THREE.Color) :
  (exists hex, c = THREE.Color_new hex) ->
  THREE.Color_new (THREE.getHex c) = c.
Proof.
  intros [hex ->]. now rewrite getHex_Color_new_low24, Color_new_low24.
Qed.

End PackedColours.

(* ------------------------------------------------------------------------- *)
(** * Edit operations *)
(* ------------------------------------------------------------------------- *)

Section Edit.

Local Open Scope float_scope.

Variable FLOOR_Y : float.

Lemma createVoxels_lookup (data : list VoxelData.t) (i : nat) (v : SimulationVoxel.t) :
  createVoxels data !! i = Some v ->
  exists d,
    data !! i = Some d
    /\ SimulationVoxel.id v = i
    /\ SimulationVoxel.x v = VoxelData.x d
    /\ SimulationVoxel.y v = VoxelData.y d
    /\ SimulationVoxel.z v = VoxelData.z d
    /\ SimulationVoxel.color v = THREE.Color_new (VoxelData.color d)
    /\ atRest v.
Proof.
  unfold createVoxels. rewrite list_lookup_imap.
  destruct (data !! i) as [d|]; cbn; [|done]. intros [= <-].
  exists d. cbn. unfold atRest. cbn. tauto.
Qed.

(** The snapshot of freshly created voxels is the data they were created
    from, each colour reduced to its low 24 bits. *)
Lemma createVoxels_toVoxelData (data : list VoxelData.t) :
  map toVoxelData (createVoxels data) = map low24 data.
Proof.
  unfold createVoxels. apply list_eq. intros i.
  rewrite !list_lookup_fmap, list_lookup_imap.
  destruct (data !! i) as [d|]; [|reflexivity].
  cbn. unfold toVoxelData, low24. cbn. now rewrite getHex_Color_new_low24.
Qed.

Lemma toVoxelData_low24 (vs : list SimulationVoxel.t) :
  coloursBuilt vs -> map low24 (map toVoxelData vs) = map toVoxelData vs.
Proof.
  unfold coloursBuilt. induction 1 as [|v vs [hex Hv] _ IH]; [reflexivity|].
  cbn [map]. rewrite IH. f_equal.
  unfold low24, toVoxelData. cbn. rewrite Hv, getHex_Color_new_low24.
  now rewrite Z.mod_mod by lia.
Qed.

Lemma existsb_toVoxelData (pos : Vector3.t) (vs : list SimulationVoxel.t) :
  existsb (fun d => (VoxelData.x d =? Vector3.x pos)
                    && (VoxelData.y d =? Vector3.y pos)
                    && (VoxelData.z d =? Vector3.z pos)) (map toVoxelData vs)
  = existsb (occupies pos) vs.
Proof. induction vs as [|v vs IH]; [reflexivity|]. cbn. now rewrite IH. Qed.

Lemma existsb_occupies_false (pos : Vector3.t) (vs : list SimulationVoxel.t) :
  existsb (occupies pos) vs = false <-> forall v, v ∈ vs -> occupies pos v = false.
Proof.
  split.
  - intros H v Hv. destruct (occupies pos v) eqn:Ho; [|reflexivity].
    rewrite <- H. symmetry. apply existsb_exists. exists v.
    split; [now apply list_elem_of_In | assumption].
  - intros H. destruct (existsb (occupies pos) vs) eqn:He; [|reflexivity].
    apply existsb_exists in He as (v & Hv & Ho).
    rewrite (H v) in Ho; [discriminate | now apply list_elem_of_In].
Qed.

(** [addVoxel] at a free position is [loadInitialModel] of the snapshot
    with the new voxel appended. *)
Lemma addVoxel_free (e : VoxelEngine) (pos : Vector3.t) (colorHex : Z) :
  (forall v, v ∈ voxels e -> occupies pos v = false) ->
  addVoxel e pos colorHex
  = loadInitialModel e (map toVoxelData (voxels e) ++ [placed pos colorHex]).
Proof.
  intros Hfree. unfold addVoxel. cbv zeta.
  change (existsb _ _) with
    (existsb (fun d => (VoxelData.x d =? Vector3.x pos)
                       && (VoxelData.y d =? Vector3.y pos)
                       && (VoxelData.z d =? Vector3.z pos))
             (map toVoxelData (voxels e))).
  rewrite existsb_toVoxelData, (proj2 (existsb_occupies_false pos (voxels e)) Hfree).
  reflexivity.
Qed.

Lemma addVoxel_occupied (e : VoxelEngine) (pos : Vector3.t) (colorHex : Z)
    (v : SimulationVoxel.t) :
  v ∈ voxels e -> occupies pos v = true -> addVoxel e pos colorHex = e.
Proof.
  intros Hv Ho. unfold addVoxel. cbv zeta.
  change (existsb _ _) with
    (existsb (fun d => (VoxelData.x d =? Vector3.x pos)
                       && (VoxelData.y d =? Vector3.y pos)
                       && (VoxelData.z d =? Vector3.z pos))
             (map toVoxelData (voxels e))).
  rewrite existsb_toVoxelData.
  destruct (existsb (occupies pos) (voxels e)) eqn:He; [reflexivity|].
  rewrite (proj1 (existsb_occupies_false pos (voxels e)) He v Hv) in Ho.
  discriminate.
Qed.

(** X1. [addVoxel] on a reachable engine.  If some voxel stands exactly at
    [pos] (each coordinate equal to that of [pos] under [===]) the call
    changes nothing: same voxels, same state, no notification.  Otherwise
    the engine is reloaded, whatever its state was: it is reachable and
    Stable, it has notified the new count and then Stable, it holds one
    voxel more, its snapshot is the old snapshot followed by a voxel at
    [pos] with the low 24 bits of [colorHex], every earlier voxel keeps its
    colour, and every voxel has its index as id and is at rest (velocity,
    rotation and angular velocity zero). *)
Theorem X1_addVoxel (e : VoxelEngine) (pos : Vector3.t) (colorHex : Z) :
  reachable FLOOR_Y e ->
  ((exists v, v ∈ voxels e /\ occupies pos v = true) ->
   addVoxel e pos colorHex = e)
  /\ ((forall v, v ∈ voxels e -> occupies pos v = false) ->
      let e' := addVoxel e pos colorHex in
      let n := length (voxels e) in
      reachable FLOOR_Y e'
      /\ state e' = STABLE
      /\ notified e' = notified e ++ [CountChange (S n); StateChange STABLE]
      /\ length (voxels e') = S n
      /\ getVoxelData e'
         = getVoxelData e
           ++ [{| VoxelData.x := Vector3.x pos;
                  VoxelData.y := Vector3.y pos;
                  VoxelData.z := Vector3.z pos;
                  VoxelData.color := (colorHex mod 2 ^ 24)%Z |}]
      /\ (forall i v, voxels e !! i = Some v ->
            exists v', voxels e' !! i = Some v'
                       /\ SimulationVoxel.color v' = SimulationVoxel.color v)
      /\ (forall i v', voxels e' !! i = Some v' ->
            SimulationVoxel.id v' = i /\ atRest v')).
Proof.
  intros Hreach. split.
  { intros (v & Hv & Ho). exact (addVoxel_occupied e pos colorHex v Hv Ho). }
  intros Hfree e' n. subst e'. rewrite (addVoxel_free e pos colorHex Hfree).
  destruct (reachable_invariant FLOOR_Y e Hreach) as [Hcol _].
  assert (Hlen : length (createVoxels (map toVoxelData (voxels e) ++ [placed pos colorHex]))
                 = S n).
  { unfold createVoxels. rewrite length_imap, length_app, length_map. cbn. subst n. lia. }
  split; [now apply reachable_load|]. split; [reflexivity|].
  split; [unfold loadInitialModel; cbn [notified]; now rewrite Hlen|].
  split; [exact Hlen|]. split.
  { change (getVoxelData ?x) with (map toVoxelData (voxels x)).
    cbn [loadInitialModel voxels].
    rewrite createVoxels_toVoxelData, map_app, toVoxelData_low24 by assumption.
    reflexivity. }
  split.
  - intros i v Hv. cbn [loadInitialModel voxels].
    assert (is_Some (createVoxels (map toVoxelData (voxels e) ++ [placed pos colorHex]) !! i))
      as [v' Hv'].
    { apply lookup_lt_is_Some. rewrite Hlen. apply lookup_lt_Some in Hv. subst n. lia. }
    exists v'. split; [assumption|].
    destruct (createVoxels_lookup _ _ _ Hv') as (d & Hd & _ & _ & _ & _ & -> & _).
    rewrite lookup_app_l in Hd
      by (rewrite length_map; now apply lookup_lt_Some in Hv).
    rewrite list_lookup_fmap, Hv in Hd. injection Hd as <-. cbn.
    apply Color_new_getHex.
    exact (proj1 (Forall_lookup _ _) Hcol i v Hv).
  - intros i v' Hv'. cbn [loadInitialModel voxels] in Hv'.
    destruct (createVoxels_lookup _ _ _ Hv') as (d & _ & Hid & _ & _ & _ & _ & Hrest).
    now split.
Qed.


Lemma occupies_self (pos : Vector3.t) (v : SimulationVoxel.t) :
  isPosition pos ->
  SimulationVoxel.x v = Vector3.x pos ->
  SimulationVoxel.y v = Vector3.y pos ->
  SimulationVoxel.z v = Vector3.z pos ->
  occupies pos v = true.
Proof.
  intros (Hx & Hy & Hz) Ex Ey Ez. unfold occupies. rewrite Ex, Ey, Ez.
  now rewrite !eqb_refl by assumption.
Qed.

Lemma occupies_isPosition (pos : Vector3.t) (v : SimulationVoxel.t) :
  occupies pos v = true -> isPosition pos.
Proof.
  unfold occupies, isPosition. rewrite !andb_true_iff. intros [[Hx Hy] Hz].
  repeat split; eapply eqb_is_nan_r; eassumption.
Qed.

(** X2. [addVoxel] is idempotent at a position without [NaN]: a second
    call at the same position, with whatever colour, changes nothing. *)
Theorem X2_addVoxel_twice (e : VoxelEngine) (pos : Vector3.t) (c1 c2 : Z) :
  isPosition pos ->
  addVoxel (addVoxel e pos c1) pos c2 = addVoxel e pos c1.
Proof.
  intros Hpos.
  destruct (existsb (occupies pos) (voxels e)) eqn:He.
  - apply existsb_exists in He as (v & Hv & Ho). apply list_elem_of_In in Hv.
    now rewrite !(addVoxel_occupied e pos _ v Hv Ho).
  - pose proof (proj1 (existsb_occupies_false pos (voxels e)) He) as Hfree.
    rewrite (addVoxel_free e pos c1 Hfree).
    set (data := map toVoxelData (voxels e) ++ [placed pos c1]).
    assert (is_Some (createVoxels data !! length (voxels e))) as [v Hv].
    { apply lookup_lt_is_Some. unfold createVoxels, data.
      rewrite length_imap, length_app, length_map. cbn. lia. }
    apply (addVoxel_occupied _ pos c2 v).
    + cbn [loadInitialModel voxels]. eapply list_elem_of_lookup_2, Hv.
    + destruct (createVoxels_lookup _ _ _ Hv) as (d & Hd & _ & Hx & Hy & Hz & _).
      unfold data in Hd.
      rewrite lookup_app_r in Hd by now rewrite length_map.
      rewrite length_map, Nat.sub_diag in Hd. injection Hd as <-.
      now apply occupies_self.
Qed.

Lemma length_filter_all {A : Type} (f : A -> bool) (l : list A) :
  (forall x, x ∈ l -> f x = true) -> List.filter f l = l.
Proof.
  intros H. apply forallb_filter_id, forallb_forall.
  intros x Hx. now apply H, list_elem_of_In.
Qed.

(** [removeVoxel] with no voxel at the position changes nothing. *)
Lemma removeVoxel_absent (e : VoxelEngine) (pos : Vector3.t) :
  (forall v, v ∈ voxels e -> occupies pos v = false) ->
  removeVoxel e pos = e.
Proof.
  intros Hfree. unfold removeVoxel. cbv zeta.
  change (List.filter _ (voxels e))
    with (List.filter (fun v => negb (occupies pos v)) (voxels e)).
  rewrite length_filter_all by (intros v Hv; now rewrite (Hfree v Hv)).
  rewrite length_map. now destruct (decide _).
Qed.

(** [removeVoxel] with a voxel at the position is [loadInitialModel] of the
    snapshot of the other voxels. *)
Lemma removeVoxel_present (e : VoxelEngine) (pos : Vector3.t) (v : SimulationVoxel.t) :
  v ∈ voxels e -> occupies pos v = true ->
  removeVoxel e pos
  = loadInitialModel e
      (map toVoxelData (List.filter (fun v => negb (occupies pos v)) (voxels e)))
  /\ (length (List.filter (fun v => negb (occupies pos v)) (voxels e))
      < length (voxels e))%nat.
Proof.
  intros Hv Ho.
  assert (Hlt : (length (List.filter (fun v => negb (occupies pos v)) (voxels e))
                 < length (voxels e))%nat).
  { pose proof (filter_length_le (fun v => negb (occupies pos v)) (voxels e)) as Hle.
    destruct (decide (length (List.filter (fun v => negb (occupies pos v)) (voxels e))
                      = length (voxels e))) as [Heq|]; [exfalso|lia].
    apply filter_length_forallb in Heq. rewrite forallb_forall in Heq.
    specialize (Heq v (proj1 (list_elem_of_In _ _) Hv)).
    rewrite Ho in Heq. discriminate. }
  split; [|exact Hlt].
  unfold removeVoxel. cbv zeta.
  change (List.filter _ (voxels e))
    with (List.filter (fun v => negb (occupies pos v)) (voxels e)).
  rewrite length_map. destruct (decide _); [lia | reflexivity].
Qed.



(** X5. A position with a [NaN] coordinate is never occupied: [addVoxel]
    there always adds a voxel, [removeVoxel] there never removes one, not
    even the voxel just added. *)
Theorem X5_nan_position (e : VoxelEngine) (pos : Vector3.t) (colorHex : Z) :
  is_nan (Vector3.x pos) || is_nan (Vector3.y pos) || is_nan (Vector3.z pos) = true ->
  length (voxels (addVoxel e pos colorHex)) = S (length (voxels e))
  /\ removeVoxel e pos = e
  /\ removeVoxel (addVoxel e pos colorHex) pos = addVoxel e pos colorHex.
Proof.
  intros Hnan.
  assert (Hnever : forall v, occupies pos v = false).
  { intros v. destruct (occupies pos v) eqn:Ho; [|reflexivity].
    destruct (occupies_isPosition pos v Ho) as (Hx & Hy & Hz).
    rewrite Hx, Hy, Hz in Hnan. discriminate. }
  split.
  { rewrite addVoxel_free by (intros v _; apply Hnever).
    cbn [loadInitialModel voxels]. unfold createVoxels.
    rewrite length_imap, length_app, length_map. cbn. lia. }
  split; apply removeVoxel_absent; intros v _; apply Hnever.
Qed.

End Edit.

(* ------------------------------------------------------------------------- *)
(** * Lifecycle invariants *)
(* ------------------------------------------------------------------------- *)

Section Lifecycle.

Local Open Scope float_scope.

Variable FLOOR_Y : float.

Lemma map_through {A B C : Type} (p : A -> B) (f : A -> C) (g : B -> C)
    (l1 l2 : list A) :
  (forall a, f a = g (p a)) -> map p l1 = map p l2 -> map f l1 = map f l2.
Proof.
  intros Hfg H.
  assert (Hl : forall l, map f l = map g (map p l)).
  { intros l. rewrite List.map_map. apply map_ext. exact Hfg. }
  now rewrite !Hl, H.
Qed.

Lemma getUniqueColors_fold (e : VoxelEngine) :
  getUniqueColors e
  = fold_left Set_add
      (map (fun v => "#"%char :: THREE.getHexString (SimulationVoxel.color v))
           (voxels e)) [].
Proof.
  unfold getUniqueColors. generalize (@nil (list ascii)).
  induction (voxels e) as [|v vs IH]; intros acc; [reflexivity|]. cbn. apply IH.
Qed.

(** The three read-outs depend on the placements only. *)
Lemma readouts_placement (e1 e2 : VoxelEngine) :
  map placement (voxels e1) = map placement (voxels e2) ->
  getVoxelData e1 = getVoxelData e2
  /\ getJsonData_data e1 = getJsonData_data e2
  /\ getUniqueColors e1 = getUniqueColors e2.
Proof.
  intros H. split; [|split].
  - unfold getVoxelData.
    apply (map_through placement _
             (fun p => {| VoxelData.x := p.1.1.1; VoxelData.y := p.1.1.2;
                          VoxelData.z := p.1.2;
                          VoxelData.color := THREE.getHex p.2 |}));
      [reflexivity | exact H].
  - unfold getJsonData_data.
    set (h := fun (i : nat) (p : float * float * float * THREE.Color) =>
                {| JsonVoxel.id := i;
                   JsonVoxel.x := Number.toFixed2 p.1.1.1;
                   JsonVoxel.y := Number.toFixed2 p.1.1.2;
                   JsonVoxel.z := Number.toFixed2 p.1.2;
                   JsonVoxel.c := "#"%char :: THREE.getHexString p.2 |}).
    assert (Hl : forall vs, imap (fun i v => h i (placement v)) vs
                            = imap h (map placement vs))
      by (intros vs; now rewrite imap_fmap).
    exact (eq_trans (Hl _) (eq_trans (f_equal (imap h) H) (eq_sym (Hl _)))).
  - rewrite !getUniqueColors_fold. f_equal.
    apply (map_through placement _
             (fun p => "#"%char :: THREE.getHexString p.2));
      [reflexivity | exact H].
Qed.

Lemma seedVelocities_kept (random : nat -> float) (vs : list SimulationVoxel.t) :
  forall k,
    map placement (seedVelocities random k vs) = map placement vs
    /\ map identity (seedVelocities random k vs) = map identity vs
    /\ map rotation (seedVelocities random k vs) = map rotation vs.
Proof.
  induction vs as [|v vs IH]; intros k; [done|].
  destruct (IH (k + 6)%nat) as (H1 & H2 & H3). cbn [seedVelocities map].
  rewrite H1, H2, H3. done.
Qed.

(** X6. [dismantle], accepted or not, moves nothing: position, colour,
    identity and rotation of every voxel and the number of voxels stay, and
    so do the snapshot, the JSON records and the palette; only velocities
    are seeded. *)
Theorem X6_dismantle_moves_nothing (random : nat -> float) (e : VoxelEngine) :
  let e' := dismantle random e in
  map placement (voxels e') = map placement (voxels e)
  /\ map identity (voxels e') = map identity (voxels e)
  /\ map rotation (voxels e') = map rotation (voxels e)
  /\ length (voxels e') = length (voxels e)
  /\ getVoxelData e' = getVoxelData e
  /\ getJsonData_data e' = getJsonData_data e
  /\ getUniqueColors e' = getUniqueColors e.
Proof.
  intros e'.
  assert (H : map placement (voxels e') = map placement (voxels e)
              /\ map identity (voxels e') = map identity (voxels e)
              /\ map rotation (voxels e') = map rotation (voxels e)).
  { subst e'. unfold dismantle. destruct (decide (state e = STABLE)); [|done].
    apply seedVelocities_kept. }
  destruct H as (Hp & Hi & Hr).
  destruct (readouts_placement e' e Hp) as (H1 & H2 & H3).
  repeat split; try assumption.
  apply (f_equal length) in Hi. now rewrite !length_map in Hi.
Qed.

Lemma physicsStep_identity (v : SimulationVoxel.t) :
  identity (physicsStep FLOOR_Y v) = identity v.
Proof.
  unfold physicsStep, identity.
  destruct (SimulationVoxel.y v + (SimulationVoxel.vy v - 0.025) <? FLOOR_Y + 0.5);
    reflexivity.
Qed.

Lemma animateVoxel_identity (elapsed : float) (t : RebuildTarget.t)
    (v : SimulationVoxel.t) (allDone : bool) :
  identity (fst (animateVoxel elapsed t v allDone)) = identity v.
Proof.
  unfold animateVoxel.
  destruct (RebuildTarget.isRubble t), (elapsed <? RebuildTarget.delay t),
    (Number.gtb (distSq t (ease t v)) 0.01); reflexivity.
Qed.

Lemma animateVoxels_identity (targets : list RebuildTarget.t) (elapsed : float)
    (vs : list SimulationVoxel.t) :
  forall i allDone vs' allDone',
    animateVoxels targets elapsed i vs allDone = Some (vs', allDone') ->
    map identity vs' = map identity vs.
Proof.
  induction vs as [|v vs IH]; intros i allDone vs' allDone' H; cbn in H.
  - now injection H as <- <-.
  - destruct (targets !! i) as [t|]; [|discriminate].
    pose proof (animateVoxel_identity elapsed t v allDone) as Hc.
    destruct (animateVoxel elapsed t v allDone) as [v1 allDone1]. cbn [fst] in Hc.
    destruct (animateVoxels targets elapsed (S i) vs allDone1) as [[vs1 allDone2]|] eqn:Hrest;
      [|discriminate].
    injection H as <- <-. cbn [map]. now rewrite Hc, (IH _ _ _ _ Hrest).
Qed.

(** A tick writes neither identities, colours, the table nor the start
    time, and notifies at most the change to Stable. *)
Lemma updatePhysics_kept (now : float) (e e' : VoxelEngine) :
  updatePhysics FLOOR_Y now e = Some e' ->
  map identity (voxels e') = map identity (voxels e)
  /\ rebuildTargets e' = rebuildTargets e
  /\ rebuildStartTime e' = rebuildStartTime e
  /\ ((state e' = state e /\ notified e' = notified e)
      \/ (state e = REBUILDING /\ state e' = STABLE
          /\ notified e' = notified e ++ [StateChange STABLE])).
Proof.
  unfold updatePhysics. destruct (state e) eqn:Hs.
  - intros [= <-]. rewrite Hs. repeat split. now left.
  - intros [= <-]. cbn [voxels rebuildTargets rebuildStartTime state notified].
    split; [|repeat split; now left].
    rewrite List.map_map. apply map_ext, physicsStep_identity.
  - destruct (animateVoxels (rebuildTargets e) (now - rebuildStartTime e) 0
                (voxels e) true) as [[vs allDone]|] eqn:Ha; [|discriminate].
    intros [= <-]. cbn [voxels rebuildTargets rebuildStartTime state notified].
    split; [exact (animateVoxels_identity _ _ _ _ _ _ _ Ha)|].
    repeat split. destruct allDone; [now right | now left].
Qed.

(** A tick of a reachable engine never throws. *)
Lemma updatePhysics_total (now : float) (e : VoxelEngine) :
  reachable FLOOR_Y e -> exists e', updatePhysics FLOOR_Y now e = Some e'.
Proof.
  intros Hreach. destruct (reachable_invariant FLOOR_Y e Hreach) as [_ Hlen].
  unfold updatePhysics. destruct (state e) eqn:Hs; [eauto|eauto|].
  destruct (animateVoxels_spec (rebuildTargets e) (now - rebuildStartTime e)
              (voxels e) 0 true) as (vs' & allDone' & -> & _).
  { rewrite Hlen by reflexivity. cbn. lia. }
  eauto.
Qed.

(** X7. Any run of ticks from a reachable engine completes (no tick
    throws) and ends in a reachable engine with the same number of voxels,
    the same ids and colours in the same order, the same palette, the same
    target table and the same start time. *)
Theorem X7_ticks_keep_identity (nows : list float) (e : VoxelEngine) :
  reachable FLOOR_Y e ->
  exists e',
    runTicks FLOOR_Y nows e = Some e'
    /\ reachable FLOOR_Y e'
    /\ length (voxels e') = length (voxels e)
    /\ map SimulationVoxel.id (voxels e') = map SimulationVoxel.id (voxels e)
    /\ map SimulationVoxel.color (voxels e') = map SimulationVoxel.color (voxels e)
    /\ getUniqueColors e' = getUniqueColors e
    /\ rebuildTargets e' = rebuildTargets e
    /\ rebuildStartTime e' = rebuildStartTime e.
Proof.
  revert e. induction nows as [|now nows IH]; intros e Hreach; cbn [runTicks].
  - exists e. repeat split; done.
  - destruct (updatePhysics_total now e Hreach) as [e1 He1]. rewrite He1.
    destruct (updatePhysics_kept now e e1 He1) as (Hid & Htab & Htime & _).
    destruct (IH e1 (reachable_tick FLOOR_Y e now e1 Hreach He1))
      as (e' & -> & Hreach' & Hl & Hi & Hc & Hu & Ht & Hs).
    exists e'. split; [reflexivity|]. split; [assumption|].
    assert (Hids : map SimulationVoxel.id (voxels e1) = map SimulationVoxel.id (voxels e))
      by (apply (map_through identity _ fst); [reflexivity | exact Hid]).
    assert (Hcols : map SimulationVoxel.color (voxels e1)
                    = map SimulationVoxel.color (voxels e))
      by (apply (map_through identity _ snd); [reflexivity | exact Hid]).
    split. { rewrite Hl. apply (f_equal length) in Hid. now rewrite !length_map in Hid. }
    split; [congruence|]. split; [congruence|]. split.
    { rewrite Hu, !getUniqueColors_fold. f_equal.
      apply (map_through SimulationVoxel.color _
               (fun c => "#"%char :: THREE.getHexString c));
        [reflexivity | exact Hcols]. }
    split; congruence.
Qed.

(** X8. Ticks and the lifecycle.  From Stable a run of ticks changes
    nothing at all.  From Dismantling a run of ticks completes, stays
    Dismantling and notifies nothing.  From Rebuilding on a reachable engine
    a run of ticks completes and either stays Rebuilding with nothing
    notified, or ends Stable with exactly one notification, the change to
    Stable. *)
Theorem X8_ticks_and_states (nows : list float) (e : VoxelEngine) :
  (state e = STABLE -> runTicks FLOOR_Y nows e = Some e)
  /\ (state e = DISMANTLING ->
      exists e', runTicks FLOOR_Y nows e = Some e'
                 /\ state e' = DISMANTLING
                 /\ notified e' = notified e)
  /\ (reachable FLOOR_Y e -> state e = REBUILDING ->
      exists e', runTicks FLOOR_Y nows e = Some e'
                 /\ ((state e' = REBUILDING /\ notified e' = notified e)
                     \/ (state e' = STABLE
                         /\ notified e' = notified e ++ [StateChange STABLE]))).
Proof.
  assert (Hstable : forall nows e, state e = STABLE -> runTicks FLOOR_Y nows e = Some e).
  { clear. intros nows. induction nows as [|now nows IH]; intros e Hs; cbn [runTicks];
      [reflexivity|].
    unfold updatePhysics. rewrite Hs. now apply IH. }
  split; [apply Hstable|]. split.
  - revert e. induction nows as [|now nows IH]; intros e Hs; cbn [runTicks].
    + now exists e.
    + unfold updatePhysics. rewrite Hs.
      destruct (IH {| voxels := map (physicsStep FLOOR_Y) (voxels e);
                      rebuildTargets := rebuildTargets e;
                      rebuildStartTime := rebuildStartTime e;
                      state := DISMANTLING;
                      notified := notified e |} eq_refl) as (e' & -> & Hs' & Hn').
      now exists e'.
  - revert e. induction nows as [|now nows IH]; intros e Hreach Hs; cbn [runTicks].
    + exists e. auto.
    + destruct (updatePhysics_total now e Hreach) as [e1 He1]. rewrite He1.
      destruct (updatePhysics_kept now e e1 He1)
        as (_ & _ & _ & [[Hs1 Hn1]|(_ & Hs1 & Hn1)]).
      * destruct (IH e1 (reachable_tick FLOOR_Y e now e1 Hreach He1) ltac:(congruence))
          as (e' & -> & Hend).
        exists e'. split; [reflexivity|]. now rewrite <- Hn1.
      * rewrite (Hstable nows e1 Hs1). exists e1. auto.
Qed.

Lemma createVoxels_ids (data : list VoxelData.t) :
  forall i v, createVoxels data !! i = Some v -> SimulationVoxel.id v = i.
Proof.
  intros i v Hv. now destruct (createVoxels_lookup data i v Hv) as (_ & _ & -> & _).
Qed.

Lemma ids_through (vs vs' : list SimulationVoxel.t) :
  map identity vs' = map identity vs ->
  (forall i v, vs !! i = Some v -> SimulationVoxel.id v = i) ->
  forall i v, vs' !! i = Some v -> SimulationVoxel.id v = i.
Proof.
  intros H Hvs i v' Hv'. apply (f_equal (fun l => l !! i)) in H.
  rewrite !list_lookup_fmap, Hv' in H. cbn in H.
  destruct (vs !! i) as [v|] eqn:Hv; [|discriminate].
  injection H as Hid _. rewrite Hid. now apply Hvs.
Qed.

(** X9. In every reachable engine the voxel at index [i] has id [i]. *)
Theorem X9_id_is_index (e : VoxelEngine) :
  reachable FLOOR_Y e ->
  forall i v, voxels e !! i = Some v -> SimulationVoxel.id v = i.
Proof.
  induction 1 as [|e data _ IH|e random _ IH|e now targetModel _ IH|e now e' _ IH Hup].
  - intros i v Hv. discriminate.
  - apply createVoxels_ids.
  - unfold dismantle. destruct (decide (state e = STABLE)); [|exact IH].
    cbn [voxels]. apply (ids_through (voxels e)); [|exact IH].
    apply seedVelocities_kept.
  - unfold rebuild. destruct (decide (state e = REBUILDING)); exact IH.
  - apply (ids_through (voxels e)); [|exact IH].
    now destruct (updatePhysics_kept now e e' Hup).
Qed.


End Lifecycle.

(* ------------------------------------------------------------------------- *)
(** * The target table and the palette *)
(* ------------------------------------------------------------------------- *)

Section Table.

Local Open Scope float_scope.

Variable FLOOR_Y : float.

(** A taken entry of the working list stays as it is to the end of the
    loop. *)
Lemma fold_matchTarget_taken_stays (vs : list SimulationVoxel.t)
    (targets : list VoxelData.t) (i : nat) (a : Available.t) :
  forall st,
    matchInv vs st ->
    fst st !! i = Some a -> Available.taken a = true ->
    fst (fold_left (matchTarget FLOOR_Y) targets st) !! i = Some a.
Proof.
  induction targets as [|target targets IH]; intros st Hinv Hi Ht; cbn; [assumption|].
  destruct (matchTarget_taken_kept FLOOR_Y vs st target i a Hinv Hi Ht) as [Hi' _].
  exact (IH _ (matchTarget_matchInv FLOOR_Y vs st target Hinv) Hi' Ht).
Qed.

(** X11. The matcher is one-to-one: in an accepted [rebuild], two
    different target cells that are both assigned a source voxel are
    assigned different voxels, and each of the two voxels has its own cell
    as its entry of the final table. *)
Theorem X11_matcher_one_to_one (now : float) (e : VoxelEngine)
    (targetModel : list VoxelData.t) (k1 k2 : nat) (t1 t2 : VoxelData.t)
    (b1 b2 : nat) :
  state e <> REBUILDING ->
  (k1 < k2)%nat ->
  targetModel !! k1 = Some t1 ->
  targetModel !! k2 = Some t2 ->
  let init := (initialAvailable (voxels e),
               replicate (length (voxels e)) (@None RebuildTarget.t)) in
  let working k := fst (fold_left (matchTarget FLOOR_Y) (take k targetModel) init) in
  bestMatch (working k1) t1 = Some b1 ->
  bestMatch (working k2) t2 = Some b2 ->
  b1 <> b2
  /\ rebuildTargets (rebuild FLOOR_Y now e targetModel) !! b1
     = Some (matchedTarget FLOOR_Y t1)
  /\ rebuildTargets (rebuild FLOOR_Y now e targetModel) !! b2
     = Some (matchedTarget FLOOR_Y t2).
Proof.
  intros Hst Hlt Hk1 Hk2 init working Hb1 Hb2. subst working. cbv beta in Hb1, Hb2.
  split; [|split; eapply rebuild_selected_entry; eassumption].
  set (st1 := fold_left (matchTarget FLOOR_Y) (take k1 targetModel) init) in *.
  set (st2 := fold_left (matchTarget FLOOR_Y) (take k2 targetModel) init) in *.
  assert (Hinv1 : matchInv (voxels e) st1)
    by apply fold_matchTarget_matchInv, matchInv_initial.
  assert (Hinv2 : matchInv (voxels e) st2)
    by apply fold_matchTarget_matchInv, matchInv_initial.
  pose proof (matchTarget_step FLOOR_Y (voxels e) st1 t1 Hinv1) as Hstep1.
  rewrite Hb1 in Hstep1. destruct Hstep1 as (a1 & [Ha1 _] & Hstep1).
  pose proof (matchTarget_step FLOOR_Y (voxels e) st2 t2 Hinv2) as Hstep2.
  rewrite Hb2 in Hstep2. destruct Hstep2 as (a2 & [Ha2 Hfree2] & _).
  assert (Hsplit : st2 = fold_left (matchTarget FLOOR_Y)
                           (drop (S k1) (take k2 targetModel))
                           (matchTarget FLOOR_Y st1 t1)).
  { unfold st2, st1.
    rewrite <- (take_drop (S k1) (take k2 targetModel)) at 1.
    rewrite take_take, Nat.min_l by lia.
    rewrite (take_S_r _ _ _ Hk1), !fold_left_app. reflexivity. }
  intros ->.
  assert (Htaken : fst st2 !! b2 = Some (setTaken a1)).
  { rewrite Hsplit.
    apply (fold_matchTarget_taken_stays (voxels e)).
    - now apply matchTarget_matchInv.
    - rewrite Hstep1. cbn [fst]. apply list_lookup_insert_eq.
      now apply lookup_lt_Some in Ha1.
    - reflexivity. }
  rewrite Htaken in Ha2. injection Ha2 as <-. discriminate.
Qed.

(** X12. The final table of an accepted [rebuild], which leaves the
    voxels as they are and stores the time of the call: the entry of every
    voxel is either rubble, holding the voxel's own position and delay 0, or
    non-rubble and the entry [{x, y, z, delay}] computed from one of the
    cells of the target model. *)
Theorem X12_table_entries (now : float) (e : VoxelEngine)
    (targetModel : list VoxelData.t) :
  state e <> REBUILDING ->
  let e' := rebuild FLOOR_Y now e targetModel in
  voxels e' = voxels e
  /\ rebuildStartTime e' = now
  /\ forall i v, voxels e !! i = Some v ->
       exists t,
         rebuildTargets e' !! i = Some t
         /\ ((RebuildTarget.isRubble t = true
              /\ RebuildTarget.x t = SimulationVoxel.x v
              /\ RebuildTarget.y t = SimulationVoxel.y v
              /\ RebuildTarget.z t = SimulationVoxel.z v
              /\ RebuildTarget.delay t = 0)
             \/ (RebuildTarget.isRubble t = false
                 /\ exists target,
                      target ∈ targetModel
                      /\ t = matchedTarget FLOOR_Y target)).
Proof.
  intros Hst e'. subst e'. rewrite (rebuild_accepted FLOOR_Y now e targetModel Hst).
  cbn [voxels rebuildStartTime rebuildTargets].
  split; [reflexivity|]. split; [reflexivity|].
  intros i v Hv. rewrite (fillRubble_lookup _ _ i v Hv). eexists. split; [reflexivity|].
  pose proof (matchInv_initial (voxels e)) as Hinit.
  assert (Hinv : matchInv (voxels e) (matchAll FLOOR_Y (voxels e) targetModel))
    by apply fold_matchTarget_matchInv, Hinit.
  assert (is_Some (fst (matchAll FLOOR_Y (voxels e) targetModel) !! i)) as [a Ha].
  { apply lookup_lt_is_Some. rewrite (mi_available _ _ Hinv).
    now apply lookup_lt_Some in Hv. }
  destruct (Available.taken a) eqn:Htaken.
  - destruct (mi_taken _ _ Hinv i a Ha Htaken) as (t & Ht & Hr).
    rewrite Ht. right. split; [exact Hr|].
    clear Hv Ha Hr Htaken. unfold matchAll in Ht. revert i t Ht.
    apply (fold_matchTarget_provenance FLOOR_Y
             (fun t => exists target, target ∈ targetModel
                                      /\ t = matchedTarget FLOOR_Y target)
             (voxels e) targetModel).
    + intros target Htarget. now exists target.
    + exact Hinit.
    + intros j t Hj. cbn [snd] in Hj. apply lookup_replicate in Hj as [? _].
      discriminate.
  - rewrite (mi_free _ _ Hinv i a Ha Htaken). left. cbn. tauto.
Qed.

(** A tick over a table of rubble entries only, one per voxel, ends the
    reassembly at once and moves nothing. *)
Lemma updatePhysics_all_rubble (now : float) (e : VoxelEngine) :
  state e = REBUILDING ->
  rebuildTargets e = map rubbleTarget (voxels e) ->
  updatePhysics FLOOR_Y now e
  = Some {| voxels := voxels e;
            rebuildTargets := rebuildTargets e;
            rebuildStartTime := rebuildStartTime e;
            state := STABLE;
            notified := notified e ++ [StateChange STABLE] |}.
Proof.
  intros Hs Htab. unfold updatePhysics. rewrite Hs.
  destruct (animateVoxels_spec (rebuildTargets e) (now - rebuildStartTime e)
              (voxels e) 0 true) as (vs' & allDone' & -> & Hl & Hvs & Hdone).
  { rewrite Htab, length_map. cbn. lia. }
  assert (Hrub : forall k v t, voxels e !! k = Some v ->
                   rebuildTargets e !! (0 + k)%nat = Some t ->
                   RebuildTarget.isRubble t = true).
  { intros k v t Hv Ht. rewrite Htab, list_lookup_fmap in Ht. cbn in Ht.
    rewrite Hv in Ht. now injection Ht as <-. }
  assert (vs' = voxels e) as ->.
  { apply list_eq. intros k. destruct (voxels e !! k) as [v|] eqn:Hv.
    - assert (is_Some (rebuildTargets e !! (0 + k)%nat)) as [t Ht].
      { apply lookup_lt_is_Some. rewrite Htab, length_map.
        now apply lookup_lt_Some in Hv. }
      rewrite (Hvs k v t Hv Ht). unfold animateVoxel.
      now rewrite (Hrub k v t Hv Ht).
    - apply lookup_ge_None. rewrite Hl. now apply lookup_ge_None. }
  assert (allDone' = true) as ->.
  { apply Hdone. split; [reflexivity|]. intros k v t Hv Ht.
    unfold animateVoxel. now rewrite (Hrub k v t Hv Ht). }
  reflexivity.
Qed.

Lemma fillRubble_none (vs : list SimulationVoxel.t) :
  fillRubble vs (replicate (length vs) None) = map rubbleTarget vs.
Proof.
  apply list_eq. intros i. unfold fillRubble.
  rewrite list_lookup_imap, list_lookup_fmap.
  destruct (vs !! i) as [v|] eqn:Hv; [|reflexivity]. cbn.
  now rewrite lookup_replicate_2 by now apply lookup_lt_Some in Hv.
Qed.

(** X13. A [rebuild] with nothing to do, accepted with an empty target
    model or on an engine without voxels: every entry of the table is
    rubble, and the next tick, whatever its time, ends the reassembly: the
    state is Stable, no voxel has moved and the two notifications were
    Rebuilding and Stable. *)
Theorem X13_rebuild_without_work (now now' : float) (e : VoxelEngine)
    (targetModel : list VoxelData.t) :
  state e <> REBUILDING ->
  targetModel = [] \/ voxels e = [] ->
  rebuildTargets (rebuild FLOOR_Y now e targetModel) = map rubbleTarget (voxels e)
  /\ updatePhysics FLOOR_Y now' (rebuild FLOOR_Y now e targetModel)
     = Some {| voxels := voxels e;
               rebuildTargets := map rubbleTarget (voxels e);
               rebuildStartTime := now;
               state := STABLE;
               notified := notified e
                           ++ [StateChange REBUILDING; StateChange STABLE] |}.
Proof.
  intros Hst Hcase.
  assert (Htab : rebuildTargets (rebuild FLOOR_Y now e targetModel)
                 = map rubbleTarget (voxels e)).
  { rewrite (rebuild_accepted FLOOR_Y now e targetModel Hst). cbn [rebuildTargets].
    destruct Hcase as [-> | ->]; [apply fillRubble_none | reflexivity]. }
  split; [exact Htab|].
  rewrite updatePhysics_all_rubble.
  - rewrite Htab, (rebuild_accepted FLOOR_Y now e targetModel Hst).
    cbn [voxels rebuildStartTime notified]. now rewrite <- app_assoc.
  - now rewrite (rebuild_accepted FLOOR_Y now e targetModel Hst).
  - rewrite Htab. now rewrite (rebuild_accepted FLOOR_Y now e targetModel Hst).
Qed.

End Table.

Section Palette.

Lemma fold_Set_add (l : list (list ascii)) :
  forall acc,
    NoDup acc ->
    NoDup (fold_left Set_add l acc)
    /\ (forall s, s ∈ fold_left Set_add l acc <-> s ∈ acc \/ s ∈ l)
    /\ (length (fold_left Set_add l acc) <= length acc + length l)%nat
    /\ exists new, fold_left Set_add l acc = acc ++ new.
Proof.
  induction l as [|x l IH]; intros acc Hacc; cbn [fold_left].
  - split; [assumption|]. split; [|split; [apply Nat.le_add_r|exists []; now rewrite app_nil_r]].
    intros s. rewrite elem_of_nil. tauto.
  - assert (Hnd : NoDup (Set_add acc x)).
    { unfold Set_add. destruct (decide (x ∈ acc)); [assumption|].
      apply NoDup_app. split; [assumption|]. split; [|apply NoDup_singleton].
      intros y Hy Hx. apply list_elem_of_singleton in Hx as ->. contradiction. }
    destruct (IH _ Hnd) as (H1 & H2 & H3 & new & H4).
    split; [assumption|]. split; [|split].
    + intros s. rewrite H2, elem_of_cons. unfold Set_add.
      destruct (decide (x ∈ acc)) as [Hin|Hnin].
      * split; [tauto|]. intros [?|[->|?]]; tauto.
      * rewrite elem_of_app, list_elem_of_singleton. tauto.
    + unfold Set_add in *. destruct (decide (x ∈ acc));
        rewrite ?length_app in H3; cbn [length] in *; lia.
    + rewrite H4. unfold Set_add. destruct (decide (x ∈ acc)).
      * now exists new.
      * exists (x :: new). now rewrite <- app_assoc.
Qed.

(** X14. [getUniqueColors] lists every colour string of the store
    exactly once: the result has no duplicates, a string belongs to it
    exactly when it is ['#'] followed by the hex string of some voxel's
    colour, it is no longer than the voxel list, and every entry is ['#']
    followed by six hexadecimal digits. *)
Theorem X14_getUniqueColors (e : VoxelEngine) :
  NoDup (getUniqueColors e)
  /\ (forall s, s ∈ getUniqueColors e <->
        exists v, v ∈ voxels e
                  /\ s = "#"%char :: THREE.getHexString (SimulationVoxel.color v))
  /\ (length (getUniqueColors e) <= length (voxels e))%nat
  /\ Forall (fun s => exists digits,
               s = "#"%char :: digits
               /\ length digits = 6%nat
               /\ Forall isHexDigit digits) (getUniqueColors e).
Proof.
  rewrite getUniqueColors_fold.
  destruct (fold_Set_add
              (map (fun v => "#"%char :: THREE.getHexString (SimulationVoxel.color v))
                   (voxels e)) [] NoDup_nil_2) as (H1 & H2 & H3 & _).
  assert (Hmem : forall s,
            s ∈ fold_left Set_add
                  (map (fun v => "#"%char
                                 :: THREE.getHexString (SimulationVoxel.color v))
                       (voxels e)) [] <->
            exists v, v ∈ voxels e
                      /\ s = "#"%char :: THREE.getHexString (SimulationVoxel.color v)).
  { intros s. rewrite H2, elem_of_nil, list_elem_of_fmap.
    split.
    - intros [[]|(v & -> & Hv)]. now exists v.
    - intros (v & Hv & ->). right. now exists v. }
  split; [assumption|]. split; [exact Hmem|]. split.
  { rewrite length_map in H3. exact H3. }
  apply Forall_forall. intros s Hs. apply Hmem in Hs as (v & _ & ->).
  destruct (getHexString_digits (SimulationVoxel.color v)) as [Hlen Hhex].
  now exists (THREE.getHexString (SimulationVoxel.color v)).
Qed.

End Palette.

(* ------------------------------------------------------------------------- *)
(** * Colour strings *)
(* ------------------------------------------------------------------------- *)

Section Integers.

Local Open Scope Z_scope.

(** A positive number between [2^(j-1)] and [2^j] has [j] binary digits. *)
Lemma digits_exact (p : positive) (j : Z) :
  2 ^ (j - 1) <= Zpos p < 2 ^ j -> Zpos (digits2_pos p) = j.
Proof.
  intros [Hlo Hhi]. pose proof (digits_le p j Hhi) as Hle.
  destruct (Z.eq_dec (Zpos (digits2_pos p)) j) as [|Hne]; [assumption|exfalso].
  rewrite digits2_pos_size in *.
  pose proof (Pos.size_gt p) as Hgt.
  assert (Hlt : Zpos p < 2 ^ Zpos (Pos.size p)).
  { rewrite <- Pos2Z.inj_pow. exact Hgt. }
  assert (2 ^ Zpos (Pos.size p) <= 2 ^ (j - 1)) by (apply Z.pow_le_mono_r; lia).
  lia.
Qed.

Lemma digits_lower (p : positive) : 2 ^ (Zpos (digits2_pos p) - 1) <= Zpos p.
Proof.
  rewrite digits2_pos_size. pose proof (Pos.size_le p) as Hs.
  assert (H : 2 ^ Zpos (Pos.size p) <= 2 * Zpos p).
  { rewrite <- Pos2Z.inj_pow. exact Hs. }
  replace (Zpos (Pos.size p)) with (Z.succ (Zpos (Pos.size p) - 1)) in H by lia.
  rewrite Z.pow_succ_r in H by lia. lia.
Qed.

(** An integer below [2^53] is a number: converting it rounds nothing. *)
Lemma of_Z_exact (p : positive) :
  Zpos p < 2 ^ 53 ->
  exists (m : positive) (k : Z),
    0 <= k <= 52
    /\ Zpos m = Zpos p * 2 ^ k
    /\ Prim2SF (Number.of_Z (Zpos p)) = S754_finite false m (- k).
Proof.
  intros Hp.
  set (d := Zpos (digits2_pos p)).
  assert (Hd : 1 <= d <= 53).
  { split; [unfold d; lia|]. now apply digits_le. }
  pose proof (digits_lower p) as Hlo. fold d in Hlo.
  unfold Number.of_Z, binary_normalize, binary_round.
  pose proof (shl_align_value p 0 (fexp prec emax (Zpos (digits2_pos p) + 0)))
    as (_ & Hval & Hsnd).
  destruct (shl_align p 0 (fexp prec emax (Zpos (digits2_pos p) + 0))) as [mz ez].
  cbn [fst snd] in Hval, Hsnd. fold d in Hsnd. rewrite fexp_binary64 in Hsnd.
  assert (Hez : ez = d - 53) by lia. clear Hsnd.
  assert (Hmz : Zpos mz = Zpos p * 2 ^ (53 - d)).
  { rewrite Hval. f_equal. f_equal. lia. }
  assert (Hdig : Zpos (digits2_pos mz) = 53).
  { apply digits_exact. rewrite Hmz. split.
    - replace (53 - 1) with ((d - 1) + (53 - d)) by lia.
      rewrite Z.pow_add_r by lia. apply Z.mul_le_mono_nonneg_r; [|assumption].
      apply Z.pow_nonneg. lia.
    - assert (Hpd : Zpos p < 2 ^ d).
      { unfold d. rewrite digits2_pos_size, <- Pos2Z.inj_pow. apply Pos.size_gt. }
      replace 53 with (d + (53 - d)) at 2 by lia.
      rewrite Z.pow_add_r by lia. apply Z.mul_lt_mono_pos_r; [|assumption].
      apply Z.pow_pos_nonneg; lia. }
  exists mz, (53 - d). split; [lia|]. split; [exact Hmz|].
  assert (Hres : binary_round_aux prec emax false (Zpos mz) ez loc_Exact
                 = S754_finite false mz ez).
  { unfold binary_round_aux, shr_fexp. cbn [Zdigits2 round_nearest_even].
    rewrite Hdig, fexp_binary64.
    replace (Z.max (53 + ez - 53) (-1074) - ez) with 0 by lia.
    cbn [shr shr_record_of_loc shr_m loc_of_shr_record round_nearest_even Zdigits2].
    rewrite Hdig, fexp_binary64.
    replace (Z.max (53 + ez - 53) (-1074) - ez) with 0 by lia.
    cbn [shr shr_record_of_loc shr_m].
    replace (ez <=? emax - prec) with true; [reflexivity|].
    symmetry. apply Z.leb_le. change (emax - prec) with 971. lia. }
  rewrite Hres, Prim2SF_SF2Prim.
  - f_equal. lia.
  - cbn [SpecFloat.valid_binary]. unfold bounded, canonical_mantissa.
    rewrite Hdig, fexp_binary64. apply andb_true_iff. split.
    + apply Z.eqb_eq. lia.
    + apply Z.leb_le. change (emax - prec) with 971. lia.
Qed.

(** Such an integer is read back from its number. *)
Lemma Math_round_of_Z (n : Z) :
  0 <= n < 2 ^ 53 ->
  Number.Math_round (Number.of_Z n) = n /\ is_nan (Number.of_Z n) = false.
Proof.
  intros [Hn Hlt]. destruct n as [|p|p]; [split; reflexivity| |lia].
  destruct (of_Z_exact p Hlt) as (m & k & Hk & Hm & Hsf).
  split.
  - unfold Number.Math_round. rewrite Hsf.
    destruct k as [|k|k]; [| |lia].
    + change (- 0) with 0. cbv beta iota. rewrite Z.pow_0_r in *. lia.
    + change (- Z.pos k) with (Z.neg k). cbv beta iota.
      rewrite Hm. assert (Hpk : 0 < 2 ^ Zpos k) by (apply Z.pow_pos_nonneg; lia).
      rewrite Z.pow_add_r by lia. change (2 ^ 1) with 2.
      symmetry. apply Z.div_unique with (2 ^ Zpos k); lia.
  - unfold is_nan. rewrite FloatAxioms.eqb_spec, Hsf. unfold SFeqb, SFcompare.
    now rewrite Z.compare_refl, Pos.compare_cont_refl.
Qed.

End Integers.

Section HexStrings.

Local Open Scope Z_scope.

(** A property of the 16 digit values is checked on each of them. *)
Lemma nibble_cases (P : Z -> bool) :
  forallb P (map Z.of_nat (seq 0 16)) = true ->
  forall d, isDigitValue d -> P d = true.
Proof.
  intros H d Hd. rewrite forallb_forall in H. apply H.
  apply in_map_iff. exists (Z.to_nat d). unfold isDigitValue in Hd.
  split; [lia|]. apply in_seq. lia.
Qed.

(** The character [toString(16)] prints for a digit value is read back as
    that value, and is neither white space, a sign, [x], [X] nor [#]. *)
Lemma hexDigit_read (d : Z) :
  isDigitValue d ->
  digit16 (Number.hexDigit d) = Some d
  /\ isWhiteSpace (Number.hexDigit d) = false
  /\ Ascii.eqb (Number.hexDigit d) "-" = false
  /\ Ascii.eqb (Number.hexDigit d) "+" = false
  /\ Ascii.eqb (Number.hexDigit d) "x" = false
  /\ Ascii.eqb (Number.hexDigit d) "X" = false
  /\ Ascii.eqb (Number.hexDigit d) "#" = false.
Proof.
  intros Hd.
  pose proof (nibble_cases
    (fun d => match digit16 (Number.hexDigit d) with
              | Some d' => d' =? d
              | None => false
              end
              && negb (isWhiteSpace (Number.hexDigit d))
              && negb (Ascii.eqb (Number.hexDigit d) "-")
              && negb (Ascii.eqb (Number.hexDigit d) "+")
              && negb (Ascii.eqb (Number.hexDigit d) "x")
              && negb (Ascii.eqb (Number.hexDigit d) "X")
              && negb (Ascii.eqb (Number.hexDigit d) "#"))
    ltac:(vm_compute; reflexivity) d Hd) as H.
  cbv beta in H. rewrite !andb_true_iff, !negb_true_iff in H.
  destruct H as [[[[[[H1 H2] H3] H4] H5] H6] H7].
  destruct (digit16 (Number.hexDigit d)) as [d'|]; [|discriminate].
  apply Z.eqb_eq in H1 as ->. auto 10.
Qed.

Lemma digits16_hexDigits (ds : list Z) :
  Forall isDigitValue ds -> digits16 (map Number.hexDigit ds) = ds.
Proof.
  induction 1 as [|d ds Hd _ IH]; [reflexivity|]. cbn [map digits16].
  destruct (hexDigit_read d Hd) as (-> & _). now rewrite IH.
Qed.

Lemma radix16_app (ds : list Z) (d : Z) :
  radix16 (ds ++ [d]) = 16 * radix16 ds + d.
Proof. unfold radix16. now rewrite fold_left_app. Qed.

Lemma radix16_zeros (k : nat) (ds : list Z) :
  radix16 (replicate k 0 ++ ds) = radix16 ds.
Proof.
  unfold radix16. rewrite fold_left_app. f_equal.
  induction k as [|k IH]; [reflexivity|]. exact IH.
Qed.

(** [toString(16)] prints the digits of its argument, most significant
    first, and no more digits than the argument needs. *)
Lemma toString16_aux_digits (fuel : nat) :
  forall (n : Z) (acc : list ascii),
    0 <= n < 16 ^ Z.of_nat fuel ->
    exists ds,
      Number.toString16_aux fuel n acc = map Number.hexDigit ds ++ acc
      /\ Forall isDigitValue ds
      /\ radix16 ds = n
      /\ forall k, 1 <= k -> n < 16 ^ k -> (Z.of_nat (length ds) <= k).
Proof.
  induction fuel as [|fuel IH]; intros n acc Hn.
  - exists []. cbn in *. repeat split; [constructor|lia|cbn; lia].
  - cbn [Number.toString16_aux]. cbv zeta.
    assert (Hmod : isDigitValue (n mod 16)) by (apply Z.mod_pos_bound; lia).
    destruct (n / 16 =? 0) eqn:Hq.
    + apply Z.eqb_eq in Hq. exists [n mod 16].
      split; [reflexivity|]. split; [now constructor|]. split.
      * unfold radix16. cbn [fold_left]. rewrite (Z.div_mod n 16) at 2 by lia. lia.
      * intros k Hk _. cbn. lia.
    + apply Z.eqb_neq in Hq.
      destruct (IH (n / 16) (Number.hexDigit (n mod 16) :: acc)) as (ds & -> & Hds & Hval & Hlen).
      { split; [apply Z.div_pos; lia|].
        apply Z.div_lt_upper_bound; [lia|].
        rewrite Nat2Z.inj_succ, Z.pow_succ_r in Hn by lia. lia. }
      exists (ds ++ [n mod 16]).
      split; [now rewrite map_app, <- app_assoc|].
      split; [apply Forall_app; split; [assumption | now constructor]|].
      split.
      * rewrite radix16_app, Hval. rewrite (Z.div_mod n 16) at 3 by lia. lia.
      * intros k Hk Hnk. rewrite length_app. cbn [length].
        assert (2 <= k).
        { destruct (Z.eq_dec k 1) as [->|]; [|lia].
          change (16 ^ 1) with 16 in Hnk.
          assert (n / 16 = 0) by (apply Z.div_small; lia). contradiction. }
        specialize (Hlen (k - 1) ltac:(lia)).
        assert (n / 16 < 16 ^ (k - 1)).
        { apply Z.div_lt_upper_bound; [lia|].
          replace k with (Z.succ (k - 1)) in Hnk by lia.
          rewrite Z.pow_succ_r in Hnk by lia. lia. }
        lia.
Qed.

Lemma toString16_digits (n : Z) :
  0 <= n ->
  exists ds,
    Number.toString16 n = map Number.hexDigit ds
    /\ Forall isDigitValue ds
    /\ radix16 ds = n
    /\ forall k, 1 <= k -> n < 16 ^ k -> (Z.of_nat (length ds) <= k).
Proof.
  intros Hn. unfold Number.toString16.
  destruct (toString16_aux_digits (S (Z.to_nat (Z.log2 n))) n []) as (ds & H & Hrest).
  - split; [assumption|].
    destruct (Z.eq_dec n 0) as [->|Hne]; [reflexivity|].
    pose proof (Z.log2_spec n ltac:(lia)) as [_ Hlog].
    pose proof (Z.log2_nonneg n) as Hl.
    rewrite Nat2Z.inj_succ, Z2Nat.id by assumption.
    eapply Z.lt_le_trans; [exact Hlog|].
    apply Z.pow_le_mono_l. lia.
  - exists ds. now rewrite H, app_nil_r.
Qed.

(** The six characters of [getHexString] are the digits of [getHex]. *)
Lemma getHexString_radix16 (c : THREE.Color) :
  0 <= THREE.getHex c < 2 ^ 24 ->
  exists ds,
    THREE.getHexString c = map Number.hexDigit ds
    /\ Forall isDigitValue ds
    /\ length ds = 6%nat
    /\ radix16 ds = THREE.getHex c.
Proof.
  intros [H0 Hlt]. unfold THREE.getHexString. cbv zeta.
  destruct (toString16_digits (THREE.getHex c) H0) as (ds & -> & Hds & Hval & Hlen).
  specialize (Hlen 6 ltac:(lia) ltac:(change (16 ^ 6) with (2 ^ 24); lia)).
  change (list_ascii_of_string "000000") with (map Number.hexDigit (replicate 6 0)).
  rewrite <- map_app, length_map, <- fmap_drop.
  rewrite length_app, length_replicate.
  replace (6 + length ds - 6)%nat with (length ds) by lia.
  rewrite drop_app_le by (rewrite length_replicate; lia).
  rewrite drop_replicate.
  exists (replicate (6 - length ds) 0 ++ ds).
  split; [reflexivity|]. split.
  { apply Forall_app. split; [|assumption].
    apply Forall_replicate. unfold isDigitValue. lia. }
  split; [rewrite length_app, length_replicate; lia|].
  now rewrite radix16_zeros.
Qed.

End HexStrings.

Section ColourStrings.

Local Open Scope Z_scope.

Variable FLOOR_Y : float.

(** [parseInt(s, 16)] of a string of digits that [toString(16)] prints. *)
Lemma parseInt16_hexDigits (ds : list Z) :
  ds <> [] -> Forall isDigitValue ds ->
  parseInt16 (map Number.hexDigit ds)
  = if radix16 ds =? 0 then 0%float else Number.of_Z (radix16 ds).
Proof.
  intros Hne Hds. destruct ds as [|d0 ds]; [contradiction|]. clear Hne.
  pose proof (digits16_hexDigits (d0 :: ds) Hds) as Hdigits.
  apply Forall_cons in Hds as [Hd0 Hds].
  destruct (hexDigit_read d0 Hd0) as (_ & Hws & Hm & Hp & _).
  unfold parseInt16. cbn [map trimStart]. rewrite Hws. cbv zeta.
  rewrite Hm, Hp. cbn [orb].
  assert (Hprefix :
    match Number.hexDigit d0 :: map Number.hexDigit ds with
    | c0 :: c1 :: rest =>
        if Ascii.eqb c0 "0" && (Ascii.eqb c1 "x" || Ascii.eqb c1 "X")
        then rest else Number.hexDigit d0 :: map Number.hexDigit ds
    | _ => Number.hexDigit d0 :: map Number.hexDigit ds
    end = map Number.hexDigit (d0 :: ds)).
  { destruct Hds as [|d1 ds Hd1 _]; [reflexivity|]. cbn [map].
    destruct (hexDigit_read d1 Hd1) as (_ & _ & _ & _ & -> & -> & _).
    now rewrite andb_false_r. }
  rewrite Hprefix, Hdigits. reflexivity.
Qed.

Lemma radix16_nonneg (ds : list Z) : Forall isDigitValue ds -> 0 <= radix16 ds.
Proof.
  intros Hds. unfold radix16.
  assert (H : forall acc, 0 <= acc -> 0 <= fold_left (fun a d => 16 * a + d) ds acc).
  { induction Hds as [|d ds Hd Hds IH]; intros acc Hacc; [assumption|].
    cbn [fold_left]. apply IH. unfold isDigitValue in Hd. lia. }
  now apply H.
Qed.

(** A colour string of [#] (or nothing) and digits that [toString(16)]
    prints reads back as the integer the digits denote, as long as that
    integer is a number. *)
Lemma colorOfString_hexDigits (ds : list Z) :
  ds <> [] -> Forall isDigitValue ds -> radix16 ds < 2 ^ 53 ->
  colorOfString ("#"%char :: map Number.hexDigit ds) = radix16 ds
  /\ colorOfString (map Number.hexDigit ds) = radix16 ds.
Proof.
  intros Hne Hds Hlt.
  assert (H0 : 0 <= radix16 ds) by now apply radix16_nonneg.
  assert (Hread : (if is_nan (parseInt16 (map Number.hexDigit ds))
                   then 13421772
                   else packedColor (parseInt16 (map Number.hexDigit ds)))
                  = radix16 ds).
  { rewrite (parseInt16_hexDigits ds Hne Hds).
    destruct (radix16 ds =? 0) eqn:Hz.
    - apply Z.eqb_eq in Hz. now rewrite Hz.
    - destruct (Math_round_of_Z (radix16 ds) (conj H0 Hlt)) as [Hr ->]. exact Hr. }
  split.
  - unfold colorOfString. cbv zeta. exact Hread.
  - destruct ds as [|d0 ds]; [contradiction|].
    pose proof (proj1 (Forall_cons _ _ _) Hds) as [Hd0 _].
    destruct (hexDigit_read d0 Hd0) as (_ & _ & _ & _ & _ & _ & Hh).
    unfold colorOfString. cbn [map] in *. rewrite Hh. cbv zeta. exact Hread.
Qed.

Lemma colorOfString_getHexString (c : THREE.Color) :
  0 <= THREE.getHex c < 2 ^ 24 ->
  colorOfString ("#"%char :: THREE.getHexString c) = THREE.getHex c
  /\ colorOfString (THREE.getHexString c) = THREE.getHex c.
Proof.
  intros Hc. destruct (getHexString_radix16 c Hc) as (ds & -> & Hds & Hlen & Hval).
  rewrite <- Hval in *.
  apply colorOfString_hexDigits; [now destruct ds|assumption|].
  assert (2 ^ 24 < 2 ^ 53) by (apply Z.pow_lt_mono_r; lia). lia.
Qed.

Lemma colorOfString_built (hex : Z) :
  colorOfString ("#"%char :: THREE.getHexString (THREE.Color_new hex))
  = hex mod 2 ^ 24
  /\ colorOfString (THREE.getHexString (THREE.Color_new hex)) = hex mod 2 ^ 24.
Proof.
  rewrite <- getHex_Color_new_low24. apply colorOfString_getHexString.
  rewrite getHex_Color_new_low24. apply Z.mod_pos_bound. lia.
Qed.

(** The palette holds the colour strings of the voxels, once each. *)
Lemma getUniqueColors_elem (e : VoxelEngine) :
  NoDup (getUniqueColors e)
  /\ (forall s, s ∈ getUniqueColors e <->
        exists v, v ∈ voxels e
                  /\ s = "#"%char :: THREE.getHexString (SimulationVoxel.color v))
  /\ (length (getUniqueColors e) <= length (voxels e))%nat.
Proof.
  rewrite getUniqueColors_fold.
  destruct (fold_Set_add
              (map (fun v => "#"%char :: THREE.getHexString (SimulationVoxel.color v))
                   (voxels e)) [] NoDup_nil_2) as (H1 & H2 & H3 & _).
  split; [assumption|]. split.
  - intros s. rewrite H2, elem_of_nil, list_elem_of_fmap.
    split.
    + intros [[]|(v & -> & Hv)]. now exists v.
    + intros (v & Hv & ->). right. now exists v.
  - rewrite length_map in H3. exact H3.
Qed.

(** X15. The colour strings the engine emits are read back by the
    importers' colour conversion.  On a reachable engine, the colour read
    from the [c] field of JSON record [i] is the colour of entry [i] of the
    snapshot, and the colour read from a string of the palette is the
    packed colour of a voxel whose colour it rebuilds.  In general the
    string of a colour built from [hex], with or without its ['#'], reads
    back as the low 24 bits of [hex]. *)
Theorem X15_colour_strings_read_back (e : VoxelEngine) :
  reachable FLOOR_Y e ->
  (forall i rec,
     getJsonData_data e !! i = Some rec ->
     exists d, getVoxelData e !! i = Some d
               /\ colorOfString (JsonVoxel.c rec) = VoxelData.color d)
  /\ (forall s,
        s ∈ getUniqueColors e ->
        exists v, v ∈ voxels e
                  /\ colorOfString s = THREE.getHex (SimulationVoxel.color v)
                  /\ THREE.Color_new (colorOfString s) = SimulationVoxel.color v)
  /\ (forall hex,
        colorOfString ("#"%char :: THREE.getHexString (THREE.Color_new hex))
        = hex mod 2 ^ 24
        /\ colorOfString (THREE.getHexString (THREE.Color_new hex))
           = hex mod 2 ^ 24).
Proof.
  intros Hreach. destruct (reachable_invariant FLOOR_Y e Hreach) as [Hcol _].
  assert (Hv : forall v, v ∈ voxels e ->
            colorOfString ("#"%char :: THREE.getHexString (SimulationVoxel.color v))
            = THREE.getHex (SimulationVoxel.color v)
            /\ THREE.Color_new (THREE.getHex (SimulationVoxel.color v))
               = SimulationVoxel.color v).
  { intros v Hv. destruct (proj1 (Forall_forall _ _) Hcol v Hv) as [hex Hhex].
    split; [|apply Color_new_getHex; now exists hex].
    rewrite Hhex, getHex_Color_new_low24. exact (proj1 (colorOfString_built hex)). }
  split; [|split].
  - intros i rec. unfold getJsonData_data, getVoxelData.
    rewrite list_lookup_imap, list_lookup_fmap.
    destruct (voxels e !! i) as [v|] eqn:Hi; cbn; [|done]. intros [= <-].
    eexists. split; [reflexivity|]. cbn.
    apply Hv. eapply list_elem_of_lookup_2, Hi.
  - intros s Hs. apply (proj1 (proj2 (getUniqueColors_elem e))) in Hs as (v & Hin & ->).
    exists v. split; [assumption|]. destruct (Hv v Hin) as [Hread Hnew].
    now rewrite Hread.
  - exact colorOfString_built.
Qed.

Lemma digit16_None (c : ascii) : digit16 c = None -> Ascii.eqb c "0" = false.
Proof.
  intros H. destruct (Ascii.eqb_spec c "0") as [->|]; [discriminate|reflexivity].
Qed.

(** X16. The fallback of the importers' colour conversion: a colour
    string that is empty, or only ['#'], or starts (after an optional ['#'])
    with a character that is neither white space, a sign nor a hexadecimal
    digit, is read as [0xCCCCCC]. *)
Theorem X16_colour_fallback (c : ascii) (rest : list ascii) :
  isWhiteSpace c = false ->
  c <> "-"%char -> c <> "+"%char -> c <> "#"%char ->
  digit16 c = None ->
  colorOfString (c :: rest) = 0xCCCCCC
  /\ colorOfString ("#"%char :: c :: rest) = 0xCCCCCC
  /\ colorOfString [] = 0xCCCCCC
  /\ colorOfString ["#"%char] = 0xCCCCCC.
Proof.
  intros Hws Hm Hp Hh Hd.
  assert (Hnan : parseInt16 (c :: rest) = nan).
  { unfold parseInt16. cbn [trimStart]. rewrite Hws. cbv zeta.
    rewrite (proj2 (Ascii.eqb_neq c "-") Hm), (proj2 (Ascii.eqb_neq c "+") Hp).
    cbn [orb]. rewrite (digit16_None c Hd).
    destruct rest as [|c1 rest]; cbn [andb digits16]; now rewrite Hd. }
  split; [|split; [|split; reflexivity]].
  - unfold colorOfString. rewrite (proj2 (Ascii.eqb_neq c "#") Hh). cbv zeta.
    now rewrite Hnan.
  - unfold colorOfString. cbv zeta. change (Ascii.eqb "#" "#") with true. cbv iota.
    now rewrite Hnan.
Qed.

End ColourStrings.

(* ------------------------------------------------------------------------- *)
(** * Exact matches and settled reassemblies *)
(* ------------------------------------------------------------------------- *)

Section ExactMatch.

Local Open Scope float_scope.

Variable FLOOR_Y : float.

(** A colour built from a packed colour is at distance zero from it. *)
Lemma getColorDist_self (hex : Z) :
  getColorDist (THREE.Color_new hex) hex = 0.
Proof.
  assert (Hchan : forall (w : float) (k : Z),
            forallb (fun k => match Prim2SF ((Number.of_Z k / 255 - Number.of_Z k / 255) * w) with
                              | S754_zero false => true
                              | _ => false
                              end) (map Z.of_nat (seq 0 256)) = true ->
            (0 <= k < 256)%Z ->
            (Number.of_Z k / 255 - Number.of_Z k / 255) * w = 0).
  { intros w k Hall Hk.
    pose proof (byte_cases _ Hall k Hk) as H. cbv beta in H.
    apply Prim2SF_inj.
    destruct (Prim2SF ((Number.of_Z k / 255 - Number.of_Z k / 255) * w)) as [[]| | |];
      try discriminate. reflexivity. }
  unfold getColorDist, THREE.Color_new. cbn [THREE.r THREE.g THREE.b]. cbv zeta.
  rewrite (Hchan 0.3 _ ltac:(vm_compute; reflexivity) (land_255_range _)).
  rewrite (Hchan 0.59 _ ltac:(vm_compute; reflexivity) (land_255_range _)).
  rewrite (Hchan 0.11 _ ltac:(vm_compute; reflexivity) (land_255_range _)).
  reflexivity.
Qed.



End ExactMatch.

Section Settled.

Local Open Scope float_scope.

Variable FLOOR_Y : float.

Lemma SFsub_self (s : bool) (m : positive) (e : Z) :
  SFsub prec emax (S754_finite s m e) (S754_finite s m e) = S754_zero false.
Proof.
  unfold SFsub, shl_align.
  replace (Z.min e e) with e by (symmetry; apply Z.min_id).
  replace (IntDef.Z.sub e e) with 0%Z by (symmetry; apply Z.sub_diag).
  cbn [fst].
  replace (IntDef.Z.sub (cond_Zopp s (Zpos m)) (cond_Zopp s (Zpos m))) with 0%Z
    by (symmetry; apply Z.sub_diag).
  reflexivity.
Qed.

(** Easing a coordinate that is on its target leaves it on the target, or
    loses it to [NaN]: the difference to the target is zero or [NaN]. *)
Lemma ease_on_target (x : float) :
  nanOrZero (Prim2SF (x - (x + (x - x) * speed))).
Proof.
  rewrite sub_spec, add_spec, mul_spec, sub_spec.
  assert (H12 : exists m e, Prim2SF speed = S754_finite false m e)
    by (vm_compute; eauto).
  destruct H12 as (m12 & e12 & ->).
  unfold SF64sub, SF64add, SF64mul.
  destruct (Prim2SF x) as [[]|[]| |s m e]; try exact I.
  rewrite SFsub_self. cbn [SFmul xorb SFadd]. now rewrite SFsub_self.
Qed.

Lemma nanOrZero_sq (d : float) :
  nanOrZero (Prim2SF d) -> nanOrZero (Prim2SF (Number.sq d)).
Proof.
  unfold Number.sq. rewrite mul_spec. unfold SF64mul.
  destruct (Prim2SF d) as [[]|[]| |s m e]; cbn; tauto.
Qed.

Lemma nanOrZero_add (a b : float) :
  nanOrZero (Prim2SF a) -> nanOrZero (Prim2SF b) -> nanOrZero (Prim2SF (a + b)).
Proof.
  rewrite add_spec. unfold SF64add.
  destruct (Prim2SF a) as [[]|[]| |s m e], (Prim2SF b) as [[]|[]| |s' m' e'];
    cbn; tauto.
Qed.

Lemma nanOrZero_not_above (d : float) :
  nanOrZero (Prim2SF d) -> Number.gtb d 0.01 = false.
Proof.
  unfold Number.gtb. rewrite FloatAxioms.ltb_spec.
  assert (H : exists m e, Prim2SF 0.01 = S754_finite false m e)
    by (vm_compute; eauto).
  destruct H as (m & e & ->).
  destruct (Prim2SF d) as [[]|[]| |s' m' e']; cbn; tauto.
Qed.

(** A non-rubble voxel past its delay that is on its target, its rotation
    zero, is left as it is and does not clear [allDone]. *)
Lemma animateVoxel_on_target (elapsed : float) (t : RebuildTarget.t)
    (v : SimulationVoxel.t) (allDone : bool) :
  RebuildTarget.isRubble t = false ->
  (elapsed <? RebuildTarget.delay t) = false ->
  SimulationVoxel.x v = RebuildTarget.x t ->
  SimulationVoxel.y v = RebuildTarget.y t ->
  SimulationVoxel.z v = RebuildTarget.z t ->
  SimulationVoxel.rx v = 0 -> SimulationVoxel.ry v = 0 -> SimulationVoxel.rz v = 0 ->
  animateVoxel elapsed t v allDone = (v, allDone).
Proof.
  intros Hr Hd Hx Hy Hz Hrx Hry Hrz. unfold animateVoxel. rewrite Hr, Hd. cbv zeta.
  assert (Hdist : Number.gtb (distSq t (ease t v)) 0.01 = false).
  { apply nanOrZero_not_above. unfold distSq, ease, setPose.
    cbn [SimulationVoxel.x SimulationVoxel.y SimulationVoxel.z].
    rewrite Hx, Hy, Hz.
    repeat apply nanOrZero_add; apply nanOrZero_sq, ease_on_target. }
  rewrite Hdist. f_equal. unfold snap, ease, setPose. destruct v. cbn in *.
  now subst.
Qed.

(** The tick of a reassembly that has arrived, for a table with one entry
    per voxel. *)
Lemma updatePhysics_settled (now : float) (e : VoxelEngine) :
  state e = REBUILDING ->
  length (rebuildTargets e) = length (voxels e) ->
  (forall i v t,
     voxels e !! i = Some v -> rebuildTargets e !! i = Some t ->
     RebuildTarget.isRubble t = false ->
     (now - rebuildStartTime e <? RebuildTarget.delay t) = false
     /\ SimulationVoxel.x v = RebuildTarget.x t
     /\ SimulationVoxel.y v = RebuildTarget.y t
     /\ SimulationVoxel.z v = RebuildTarget.z t
     /\ SimulationVoxel.rx v = 0
     /\ SimulationVoxel.ry v = 0
     /\ SimulationVoxel.rz v = 0) ->
  updatePhysics FLOOR_Y now e
  = Some {| voxels := voxels e;
            rebuildTargets := rebuildTargets e;
            rebuildStartTime := rebuildStartTime e;
            state := STABLE;
            notified := notified e ++ [StateChange STABLE] |}.
Proof.
  intros Hs Hlen Hon. unfold updatePhysics. rewrite Hs.
  destruct (animateVoxels_spec (rebuildTargets e) (now - rebuildStartTime e)
              (voxels e) 0 true) as (vs' & allDone' & -> & Hl & Hvs & Hdone).
  { rewrite Hlen. cbn. lia. }
  assert (Hkept : forall k v t, voxels e !! k = Some v ->
                    rebuildTargets e !! (0 + k)%nat = Some t ->
                    animateVoxel (now - rebuildStartTime e) t v true = (v, true)).
  { intros k v t Hv Ht. cbn in Ht.
    destruct (RebuildTarget.isRubble t) eqn:Hr.
    - unfold animateVoxel. now rewrite Hr.
    - destruct (Hon k v t Hv Ht Hr) as (Hd & Hx & Hy & Hz & Hrx & Hry & Hrz).
      now apply animateVoxel_on_target. }
  assert (vs' = voxels e) as ->.
  { apply list_eq. intros k. destruct (voxels e !! k) as [v|] eqn:Hv.
    - assert (is_Some (rebuildTargets e !! (0 + k)%nat)) as [t Ht].
      { apply lookup_lt_is_Some. rewrite Hlen. now apply lookup_lt_Some in Hv. }
      now rewrite (Hvs k v t Hv Ht), (Hkept k v t Hv Ht).
    - apply lookup_ge_None. rewrite Hl. now apply lookup_ge_None. }
  assert (allDone' = true) as ->.
  { apply Hdone. split; [reflexivity|]. intros k v t Hv Ht.
    now rewrite (Hkept k v t Hv Ht). }
  reflexivity.
Qed.

(** X18. A reassembly that has arrived ends.  On a reachable engine in
    state Rebuilding, if every non-rubble voxel is past its delay, stands on
    its target and has rotation zero, the tick moves nothing, switches to
    Stable and notifies that change. *)
Theorem X18_settled_rebuild_ends (now : float) (e : VoxelEngine) :
  reachable FLOOR_Y e ->
  state e = REBUILDING ->
  (forall i v t,
     voxels e !! i = Some v -> rebuildTargets e !! i = Some t ->
     RebuildTarget.isRubble t = false ->
     (now - rebuildStartTime e <? RebuildTarget.delay t) = false
     /\ SimulationVoxel.x v = RebuildTarget.x t
     /\ SimulationVoxel.y v = RebuildTarget.y t
     /\ SimulationVoxel.z v = RebuildTarget.z t
     /\ SimulationVoxel.rx v = 0
     /\ SimulationVoxel.ry v = 0
     /\ SimulationVoxel.rz v = 0) ->
  updatePhysics FLOOR_Y now e
  = Some {| voxels := voxels e;
            rebuildTargets := rebuildTargets e;
            rebuildStartTime := rebuildStartTime e;
            state := STABLE;
            notified := notified e ++ [StateChange STABLE] |}.
Proof.
  intros Hreach Hs Hon.
  destruct (reachable_invariant FLOOR_Y e Hreach) as [_ Hlen].
  exact (updatePhysics_settled now e Hs (Hlen Hs) Hon).
Qed.

End Settled.

(* ------------------------------------------------------------------------- *)
(** * The display state *)
(* ------------------------------------------------------------------------- *)

Section Display.

Variable FLOOR_Y : float.

Lemma appState_app (log more : list Notification) (s : AppState) :
  appState (log ++ more ++ [StateChange s]) = s.
Proof. unfold appState. now rewrite app_assoc, fold_left_app. Qed.

Lemma voxelCount_StateChange (log : list Notification) (s : AppState) :
  voxelCount (log ++ [StateChange s]) = voxelCount log.
Proof. unfold voxelCount. now rewrite fold_left_app. Qed.


End Display.

(* ------------------------------------------------------------------------- *)
(** * Reassembly into the engine's own snapshot *)
(* ------------------------------------------------------------------------- *)

Section OwnSnapshot.

Local Open Scope float_scope.

Variable FLOOR_Y : float.

(** The working list and the mappings after the first [k] cells of the
    engine's own snapshot: the first [k] voxels are taken, each with its own
    cell. *)
Lemma matchAll_own_snapshot (vs : list SimulationVoxel.t) :
  coloursBuilt vs ->
  forall k, (k <= length vs)%nat ->
    fold_left (matchTarget FLOOR_Y) (take k (map toVoxelData vs))
      (initialAvailable vs, replicate (length vs) None)
    = (imap (fun i v => {| Available.index := i;
                           Available.color := SimulationVoxel.color v;
                           Available.taken := Nat.ltb i k |}) vs,
       imap (fun i v => if Nat.ltb i k
                        then Some (matchedTarget FLOOR_Y (toVoxelData v))
                        else None) vs).
Proof.
  intros Hcol k. induction k as [|k IH]; intros Hk.
  - rewrite take_0. cbn [fold_left]. f_equal. apply list_eq. intros i.
    rewrite list_lookup_imap.
    destruct (vs !! i) as [v|] eqn:Hv; cbn.
    + apply lookup_replicate_2. now apply lookup_lt_Some in Hv.
    + apply lookup_ge_None. rewrite length_replicate. now apply lookup_ge_None.
  - destruct (lookup_lt_is_Some_2 vs k ltac:(lia)) as [v Hv].
    assert (Hcell : map toVoxelData vs !! k = Some (toVoxelData v))
      by now rewrite list_lookup_fmap, Hv.
    rewrite (take_S_r _ _ _ Hcell), fold_left_app. cbn [fold_left].
    specialize (IH ltac:(lia)).
    set (st := (imap (fun i v => {| Available.index := i;
                                    Available.color := SimulationVoxel.color v;
                                    Available.taken := Nat.ltb i k |}) vs,
                imap (fun i v => if Nat.ltb i k
                                 then Some (matchedTarget FLOOR_Y (toVoxelData v))
                                 else None) vs)) in *.
    assert (Hinv : matchInv vs st).
    { rewrite <- IH. apply fold_matchTarget_matchInv, matchInv_initial. }
    rewrite IH.
    assert (Hown : untakenAt (fst st) k
                     {| Available.index := k;
                        Available.color := SimulationVoxel.color v;
                        Available.taken := false |}).
    { split; [|reflexivity]. cbn [st fst]. rewrite list_lookup_imap, Hv. cbn [fmap option_fmap option_map].
      now rewrite Nat.ltb_irrefl. }
    assert (Hzero : getColorDist (SimulationVoxel.color v)
                      (VoxelData.color (toVoxelData v)) = 0).
    { destruct (proj1 (Forall_lookup _ _) Hcol k v Hv) as [hex Hhex].
      cbn [toVoxelData VoxelData.color]. rewrite Hhex, getHex_Color_new_low24.
      unfold getColorDist. rewrite Color_new_low24. apply getColorDist_self. }
    pose proof (matchTarget_step FLOOR_Y vs st (toVoxelData v) Hinv) as Hstep.
    pose proof (bestMatch_scanResult (fst st) (toVoxelData v)) as Hres.
    destruct (bestMatch (fst st) (toVoxelData v)) as [b|].
    + destruct Hres as (a & [Ha Hfree] & _ & _ & Hearlier & _).
      destruct Hstep as (a0 & [Ha0 _] & ->).
      assert (a0 = a) as -> by congruence.
      assert (Hb : b = k).
      { cbn [st fst] in Ha. rewrite list_lookup_imap in Ha.
        destruct (vs !! b) as [vb|]; [|discriminate]. cbn [fmap option_fmap option_map] in Ha.
        injection Ha as <-. cbn [Available.taken] in Hfree. apply Nat.ltb_ge in Hfree.
        destruct (Nat.eq_dec b k) as [|Hne]; [assumption|exfalso].
        destruct (Hearlier k _ ltac:(lia) Hown) as [_ Hfar].
        cbn [Available.color] in Hfar. rewrite Hzero in Hfar. discriminate. }
      subst b. destruct Hown as [Hk' _]. rewrite Hk' in Ha. injection Ha as <-.
      cbn [st fst snd]. f_equal.
      * apply list_eq. intros i. destruct (Nat.eq_dec i k) as [->|Hne].
        -- rewrite list_lookup_insert_eq by (rewrite length_imap; lia).
           rewrite list_lookup_imap, Hv. cbn [fmap option_fmap option_map].
           now rewrite (proj2 (Nat.ltb_lt k (S k)) ltac:(lia)).
        -- rewrite list_lookup_insert_ne by congruence.
           rewrite !list_lookup_imap. destruct (vs !! i); [|reflexivity]. cbn [fmap option_fmap option_map].
           do 2 f_equal. apply eq_true_iff_eq. rewrite !Nat.ltb_lt. lia.
      * apply list_eq. intros i. destruct (Nat.eq_dec i k) as [->|Hne].
        -- rewrite list_lookup_insert_eq by (rewrite length_imap; lia).
           rewrite list_lookup_imap, Hv. cbn [fmap option_fmap option_map].
           now rewrite (proj2 (Nat.ltb_lt k (S k)) ltac:(lia)).
        -- rewrite list_lookup_insert_ne by congruence.
           rewrite !list_lookup_imap. destruct (vs !! i); [|reflexivity]. cbn [fmap option_fmap option_map].
           f_equal.
           replace (Nat.ltb i (S k)) with (Nat.ltb i k); [reflexivity|].
           apply eq_true_iff_eq. rewrite !Nat.ltb_lt. lia.
    + exfalso. unfold scanResult in Hres. cbv beta iota zeta in Hres.
      specialize (Hres k _ Hown). cbn [Available.color] in Hres.
      rewrite Hzero in Hres. discriminate.
Qed.

(** The table an accepted [rebuild] into the engine's own snapshot
    stores. *)
Lemma rebuild_own_snapshot (now : float) (e : VoxelEngine) :
  coloursBuilt (voxels e) ->
  state e <> REBUILDING ->
  rebuildTargets (rebuild FLOOR_Y now e (getVoxelData e))
  = map (fun v => matchedTarget FLOOR_Y (toVoxelData v)) (voxels e).
Proof.
  intros Hcol Hst. rewrite (rebuild_accepted FLOOR_Y now e _ Hst).
  cbn [rebuildTargets]. unfold matchAll.
  change (getVoxelData e) with (map toVoxelData (voxels e)).
  rewrite <- (firstn_all (map toVoxelData (voxels e))), length_map.
  rewrite (matchAll_own_snapshot (voxels e) Hcol (length (voxels e)) (le_n _)).
  cbn [snd]. apply list_eq. intros i. unfold fillRubble.
  rewrite list_lookup_imap, list_lookup_fmap.
  destruct (voxels e !! i) as [v|] eqn:Hv; [|reflexivity].
  cbn [fmap option_fmap option_map].
  rewrite list_lookup_imap, Hv. cbn [fmap option_fmap option_map].
  now rewrite (proj2 (Nat.ltb_lt i (length (voxels e)))
                 (lookup_lt_Some _ _ _ Hv)).
Qed.

(** X20. Rebuilding into the engine's own snapshot assigns every voxel its
    own place: after an accepted [rebuild(getVoxelData())] on a reachable
    engine no entry of the table is rubble, and the entry of voxel [i] is
    the voxel's own position with the delay of its height. *)
Theorem X20_rebuild_own_snapshot (now : float) (e : VoxelEngine) :
  reachable FLOOR_Y e ->
  state e <> REBUILDING ->
  let e' := rebuild FLOOR_Y now e (getVoxelData e) in
  Forall (fun t => RebuildTarget.isRubble t = false) (rebuildTargets e')
  /\ forall i v,
       voxels e !! i = Some v ->
       exists t,
         rebuildTargets e' !! i = Some t
         /\ RebuildTarget.x t = SimulationVoxel.x v
         /\ RebuildTarget.y t = SimulationVoxel.y v
         /\ RebuildTarget.z t = SimulationVoxel.z v
         /\ RebuildTarget.delay t
            = Number.Math_max 0 ((SimulationVoxel.y v - FLOOR_Y) / 15) * 800.
Proof.
  intros Hreach Hst e'. subst e'.
  destruct (reachable_invariant FLOOR_Y e Hreach) as [Hcol _].
  rewrite (rebuild_own_snapshot now e Hcol Hst). split.
  - apply Forall_fmap, Forall_forall. reflexivity.
  - intros i v Hv. eexists. rewrite list_lookup_fmap, Hv. cbn.
    split; [reflexivity|]. repeat split.
Qed.


End OwnSnapshot.

(* ------------------------------------------------------------------------- *)
(** * The ghost block *)
(* ------------------------------------------------------------------------- *)

Section GhostProperties.

Local Open Scope float_scope.

Variable FLOOR_Y : float.

Lemma leb_refl (a : float) : is_nan a = false -> (a <=? a) = true.
Proof. intros Ha. exact (ltb_total a a Ha Ha (ltb_irrefl a)). Qed.

(** X22. The ghost after a pointer move.  Outside edit mode [updateGhost]
    changes nothing.  In edit mode, without an intersection, or in delete
    mode over the floor, the ghost is hidden and [getGhostPosition] returns
    [null]; in every other case the ghost is shown, [getGhostPosition]
    returns the position just stored, and the height of that position, when
    it and the resting height [FLOOR_Y + 0.5] are numbers, is not below the
    resting height. *)
Theorem X22_ghost_position (intersects : option Intersection) (mode : BuildTool)
    (g : Ghost) :
  let g' := updateGhost FLOOR_Y intersects mode g in
  (isEditMode g = false -> g' = g)
  /\ (isEditMode g = true ->
      match intersects with
      | None => getGhostPosition g' = None
      | Some intersect =>
          match mode, object intersect with
          | Delete, FloorMesh => getGhostPosition g' = None
          | _, _ =>
              exists pos,
                getGhostPosition g' = Some pos
                /\ lastGhostPos g' = pos
                /\ (is_nan (Vector3.y pos) = false ->
                    is_nan (FLOOR_Y + 0.5) = false ->
                    (FLOOR_Y + 0.5 <=? Vector3.y pos) = true)
          end
      end).
Proof.
  intros g'. subst g'. unfold updateGhost. split.
  { intros ->. reflexivity. }
  intros ->. cbn [negb]. destruct intersects as [intersect|]; [|reflexivity].
  cbv zeta.
  assert (Hclamp : forall y, is_nan (if y <? FLOOR_Y + 0.5 then FLOOR_Y + 0.5 else y) = false ->
                     is_nan (FLOOR_Y + 0.5) = false ->
                     (FLOOR_Y + 0.5 <=? (if y <? FLOOR_Y + 0.5 then FLOOR_Y + 0.5 else y))
                     = true).
  { intros y Hy HF. destruct (y <? FLOOR_Y + 0.5) eqn:Hlt.
    - now apply leb_refl.
    - now apply ltb_total. }
  destruct mode, (object intersect); try reflexivity;
    (eexists; split; [reflexivity|]; split; [reflexivity|]; apply Hclamp).
Qed.


End GhostProperties.

(* ------------------------------------------------------------------------- *)
(** * The further statements at sample engines *)
(* ------------------------------------------------------------------------- *)

Section FurtherSamples.

Local Open Scope float_scope.

Lemma rgbLoaded_reachable : reachable sampleFloor rgbLoaded.
Proof. apply reachable_load, reachable_new. Qed.

Lemma rgbRebuilding_reachable : reachable sampleFloor rgbRebuilding.
Proof.
  apply reachable_rebuild, reachable_dismantle, reachable_load, reachable_new.
Qed.

Lemma X1_witness :
  reachable sampleFloor rgbLoaded
  /\ (forall v, v ∈ voxels rgbLoaded -> occupies (Vector3.mk 3 0 0) v = false)
  /\ getVoxelData (addVoxel rgbLoaded (Vector3.mk 3 0 0) 0xffff00)
     = rgbModel ++ [VoxelData.mk 3 0 0 0xffff00].
Proof.
  assert (H1 : reachable sampleFloor rgbLoaded) by exact rgbLoaded_reachable.
  assert (H2 : forall v, v ∈ voxels rgbLoaded -> occupies (Vector3.mk 3 0 0) v = false)
    by (apply existsb_occupies_false; vm_compute; reflexivity).
  split; [exact H1|]. split; [exact H2|].
  destruct (X1_addVoxel sampleFloor rgbLoaded (Vector3.mk 3 0 0) 0xffff00 H1)
    as [_ Hfree].
  destruct (Hfree H2) as (_ & _ & _ & _ & Hdata & _).
  rewrite Hdata. vm_compute. reflexivity.
Defined.

Lemma X2_witness :
  isPosition (Vector3.mk 3 0 0)
  /\ addVoxel (addVoxel rgbLoaded (Vector3.mk 3 0 0) 0xffff00) (Vector3.mk 3 0 0) 0x00ffff
     = addVoxel rgbLoaded (Vector3.mk 3 0 0) 0xffff00.
Proof.
  assert (H1 : isPosition (Vector3.mk 3 0 0)) by (repeat split; reflexivity).
  split; [exact H1|].
  apply (X2_addVoxel_twice rgbLoaded (Vector3.mk 3 0 0) 0xffff00 0x00ffff H1).
Defined.



Lemma X5_witness :
  is_nan nan || is_nan 0 || is_nan 0 = true
  /\ length (voxels (addVoxel rgbLoaded (Vector3.mk nan 0 0) 0xffff00)) = 4%nat.
Proof.
  assert (H1 : is_nan nan || is_nan 0 || is_nan 0 = true) by reflexivity.
  split; [exact H1|].
  exact (proj1 (X5_nan_position rgbLoaded (Vector3.mk nan 0 0) 0xffff00 H1)).
Defined.

Lemma X7_witness :
  reachable sampleFloor rgbRebuilding
  /\ exists e',
       runTicks sampleFloor [1000; 2000] rgbRebuilding = Some e'
       /\ length (voxels e') = 3%nat.
Proof.
  assert (H1 : reachable sampleFloor rgbRebuilding) by exact rgbRebuilding_reachable.
  split; [exact H1|].
  destruct (X7_ticks_keep_identity sampleFloor [1000; 2000] rgbRebuilding H1)
    as (e' & Hrun & _ & Hlen & _).
  exists e'. split; [exact Hrun | exact Hlen].
Defined.

Lemma X8_witness :
  state rgbDismantled = DISMANTLING
  /\ exists e',
       runTicks sampleFloor [0; 16; 32] rgbDismantled = Some e'
       /\ state e' = DISMANTLING
       /\ notified e' = notified rgbDismantled.
Proof.
  assert (H1 : state rgbDismantled = DISMANTLING) by reflexivity.
  split; [exact H1|].
  exact (proj1 (proj2 (X8_ticks_and_states sampleFloor [0; 16; 32] rgbDismantled)) H1).
Defined.

Lemma X9_witness :
  reachable sampleFloor rgbRebuilding
  /\ forall i v, voxels rgbRebuilding !! i = Some v -> SimulationVoxel.id v = i.
Proof.
  assert (H1 : reachable sampleFloor rgbRebuilding) by exact rgbRebuilding_reachable.
  split; [exact H1|].
  exact (X9_id_is_index sampleFloor rgbRebuilding H1).
Defined.


Lemma X11_witness :
  state rgbLoaded <> REBUILDING
  /\ (0 < 1)%nat
  /\ rgbTarget !! 0%nat = Some (VoxelData.mk 0 0 0 0xff0000)
  /\ rgbTarget !! 1%nat = Some (VoxelData.mk 1 3 0 0x0000ff)
  /\ rebuildTargets (rebuild sampleFloor 1000 rgbLoaded rgbTarget) !! 2%nat
     = Some (matchedTarget sampleFloor (VoxelData.mk 1 3 0 0x0000ff)).
Proof.
  assert (H1 : state rgbLoaded <> REBUILDING) by (vm_compute; discriminate).
  assert (H2 : (0 < 1)%nat) by lia.
  assert (H3 : rgbTarget !! 0%nat = Some (VoxelData.mk 0 0 0 0xff0000)) by reflexivity.
  assert (H4 : rgbTarget !! 1%nat = Some (VoxelData.mk 1 3 0 0x0000ff)) by reflexivity.
  split; [exact H1|]. split; [exact H2|]. split; [exact H3|]. split; [exact H4|].
  refine (proj2 (proj2 (X11_matcher_one_to_one sampleFloor 1000 rgbLoaded rgbTarget
                          0 1 _ _ 0 2 H1 H2 H3 H4 _ _)));
    vm_compute; reflexivity.
Defined.

Lemma X12_witness :
  state rgbDismantled <> REBUILDING
  /\ voxels (rebuild sampleFloor 1000 rgbDismantled rgbTarget) = voxels rgbDismantled.
Proof.
  assert (H1 : state rgbDismantled <> REBUILDING) by (vm_compute; discriminate).
  split; [exact H1|].
  exact (proj1 (X12_table_entries sampleFloor 1000 rgbDismantled rgbTarget H1)).
Defined.

Lemma X13_witness :
  state rgbLoaded <> REBUILDING
  /\ rebuildTargets (rebuild sampleFloor 1000 rgbLoaded [])
     = map rubbleTarget (voxels rgbLoaded).
Proof.
  assert (H1 : state rgbLoaded <> REBUILDING) by (vm_compute; discriminate).
  split; [exact H1|].
  exact (proj1 (X13_rebuild_without_work sampleFloor 1000 2000 rgbLoaded [] H1
                  (or_introl eq_refl))).
Defined.

Lemma X15_witness :
  reachable sampleFloor rgbLoaded
  /\ forall s, s ∈ getUniqueColors rgbLoaded ->
       exists v, v ∈ voxels rgbLoaded
                 /\ colorOfString s = THREE.getHex (SimulationVoxel.color v)
                 /\ THREE.Color_new (colorOfString s) = SimulationVoxel.color v.
Proof.
  assert (H1 : reachable sampleFloor rgbLoaded) by exact rgbLoaded_reachable.
  split; [exact H1|].
  exact (proj1 (proj2 (X15_colour_strings_read_back sampleFloor rgbLoaded H1))).
Defined.

Lemma X16_witness :
  isWhiteSpace "z" = false
  /\ colorOfString (list_ascii_of_string "zebra") = 0xCCCCCC%Z.
Proof.
  assert (H1 : isWhiteSpace "z" = false) by reflexivity.
  split; [exact H1|].
  refine (proj1 (X16_colour_fallback "z" (list_ascii_of_string "ebra") H1 _ _ _ _));
    try discriminate; reflexivity.
Defined.


Lemma X18_witness :
  reachable sampleFloor (rebuild sampleFloor 1000 rgbLoaded rgbModel)
  /\ state (rebuild sampleFloor 1000 rgbLoaded rgbModel) = REBUILDING
  /\ exists e',
       updatePhysics sampleFloor 1000 (rebuild sampleFloor 1000 rgbLoaded rgbModel)
       = Some e'
       /\ state e' = STABLE
       /\ voxels e' = voxels rgbLoaded.
Proof.
  assert (H1 : reachable sampleFloor (rebuild sampleFloor 1000 rgbLoaded rgbModel))
    by apply reachable_rebuild, rgbLoaded_reachable.
  assert (H2 : state (rebuild sampleFloor 1000 rgbLoaded rgbModel) = REBUILDING)
    by reflexivity.
  split; [exact H1|]. split; [exact H2|].
  eexists. split.
  - apply (X18_settled_rebuild_ends sampleFloor 1000 _ H1 H2).
    intros i v t Hv Ht _.
    destruct i as [|[|[|i]]]; vm_compute in Hv, Ht; try discriminate;
      injection Hv as <-; injection Ht as <-; repeat split; reflexivity.
  - split; reflexivity.
Defined.


Lemma X20_witness :
  reachable sampleFloor rgbLoaded
  /\ state rgbLoaded <> REBUILDING
  /\ Forall (fun t => RebuildTarget.isRubble t = false)
       (rebuildTargets (rebuild sampleFloor 1000 rgbLoaded (getVoxelData rgbLoaded))).
Proof.
  assert (H1 : reachable sampleFloor rgbLoaded) by exact rgbLoaded_reachable.
  assert (H2 : state rgbLoaded <> REBUILDING) by (vm_compute; discriminate).
  split; [exact H1|]. split; [exact H2|].
  exact (proj1 (X20_rebuild_own_snapshot sampleFloor 1000 rgbLoaded H1 H2)).
Defined.


Lemma X22_witness :
  isEditMode (setEditMode true newGhost) = true
  /\ getGhostPosition
       (updateGhost sampleFloor
          (Some (mkIntersection FloorMesh (Vector3.mk 2.3 0 (-1.2)) (Vector3.mk 0 1 0)))
          Add (setEditMode true newGhost))
     = Some (Vector3.mk 2 1 (-1))
  /\ getGhostPosition
       (updateGhost sampleFloor
          (Some (mkIntersection FloorMesh (Vector3.mk 2.3 0 (-1.2)) (Vector3.mk 0 1 0)))
          Delete (setEditMode true newGhost))
     = None.
Proof.
  assert (H1 : isEditMode (setEditMode true newGhost) = true) by reflexivity.
  split; [exact H1|]. split.
  - destruct (proj2 (X22_ghost_position sampleFloor
                       (Some (mkIntersection FloorMesh (Vector3.mk 2.3 0 (-1.2))
                                (Vector3.mk 0 1 0)))
                       Add (setEditMode true newGhost)) H1) as (pos & -> & <- & _).
    vm_compute. reflexivity.
  - exact (proj2 (X22_ghost_position sampleFloor
                    (Some (mkIntersection FloorMesh (Vector3.mk 2.3 0 (-1.2))
                             (Vector3.mk 0 1 0)))
                    Delete (setEditMode true newGhost)) H1).
Defined.


End FurtherSamples.

(** The models of [Math.round] and [parseInt] at a few arguments. *)
Example Math_round_number_samples :
  Math_round_number 2.5 = 3%float
  /\ Math_round_number (-2.5) = (-2)%float
  /\ Math_round_number 0.4 = 0%float
  /\ Math_round_number (-0.4) = (-0)%float
  /\ Math_round_number 1e300 = 1e300%float
  /\ Math_round_number neg_infinity = neg_infinity.
Proof. repeat split; vm_compute; reflexivity. Qed.

Example parseInt16_samples :
  parseInt16 (list_ascii_of_string "ff") = 255%float
  /\ parseInt16 (list_ascii_of_string "  -0x1F") = (-31)%float
  /\ parseInt16 (list_ascii_of_string "12px") = 18%float
  /\ is_nan (parseInt16 (list_ascii_of_string "px")) = true
  /\ colorOfString (list_ascii_of_string "#FF5500") = 0xFF5500%Z
  /\ colorOfString (list_ascii_of_string "blue") = 0xb%Z.
Proof. repeat split; vm_compute; reflexivity. Qed.
